(** * Website Time Manager: the time-accounting and blocking engine

    A shallow embedding of the TypeScript sources
    [src/utils/index.ts], [src/types/index.ts] and
    [src/background/index.ts], with the properties of the
    specification stated over it, and of the [Site] class of
    the utilities and the countdown of [src/blocked.ts], which use
    them.  Of the legacy JavaScript service worker only the daily
    reset is embedded, for comparison.

    Conventions.
    - Millisecond timestamps, minute limits and ledger totals are
      integers ([Z]); JavaScript numbers that may be fractional or
      non-finite are [JsNum].
    - JavaScript strings are [string]; the site registry, a [Map] whose
      iteration order is its insertion order, is an association list.
    - [chrome.storage.local] is a [gmap] from storage keys to ledger
      records.
    - An [async] method is cut at its [await]s on browser calls: the
      code up to the call runs as one synchronous segment and leaves a
      [Pending] record; the code after it runs when the call completes. *)

From Stdlib Require Import ZArith QArith Qround Ascii String List Lia Bool.
From Stdlib Require Import DecimalString PrimFloat.
From stdpp Require Import gmap strings list.

Local Open Scope Z_scope.

(** ** JavaScript strings *)

Module JsString.

(** [s.startsWith(p)] *)
Definition startsWith (s p : string) : bool := String.prefix p s.

(** The string without its first [n] characters. *)
Fixpoint drop (n : nat) (s : string) : string :=
  match n, s with
  | O, _ => s
  | S _, EmptyString => EmptyString
  | S n', String _ t => drop n' t
  end.

(** [s.endsWith(suffix)] *)
Definition endsWith (s suffix : string) : bool :=
  (String.length suffix <=? String.length s)%nat
  && String.eqb (drop (String.length s - String.length suffix) s) suffix.

(** [s.includes(sub)] *)
Fixpoint includes (s sub : string) : bool :=
  String.prefix sub s
  || match s with
     | EmptyString => false
     | String _ t => includes t sub
     end.

(** [s.replace(/^p/, '')] for a literal prefix [p]. *)
Definition stripPrefix (p s : string) : string :=
  if String.prefix p s then drop (String.length p) s else s.

(** [s.replace(/c$/, '')] for a single character [c]. *)
Fixpoint stripLast (c : ascii) (s : string) : string :=
  match s with
  | EmptyString => EmptyString
  | String a EmptyString => if Ascii.eqb a c then EmptyString else s
  | String a t => String a (stripLast c t)
  end.

Definition lowerChar (c : ascii) : ascii :=
  let n := nat_of_ascii c in
  if ((65 <=? n) && (n <=? 90))%nat then ascii_of_nat (n + 32) else c.

(** [s.toLowerCase()] on ASCII text. *)
Fixpoint toLowerCase (s : string) : string :=
  match s with
  | EmptyString => EmptyString
  | String c t => String (lowerChar c) (toLowerCase t)
  end.

(** Decimal rendering of a non-negative integer, as [`${n}`]. *)
Definition ofZ (n : Z) : string := NilZero.string_of_int (Z.to_int n).

(** [s.padStart(w, '0')]: zeros are put in front of a text shorter than
    [w] until it has [w] characters; a longer text is returned as it
    is. *)
Definition padStart (w : nat) (s : string) : string :=
  string_of_list_ascii (repeat "0"%char (w - String.length s)%nat) +:+ s.

(** [s.split(sep).pop()] for a single character [sep]: the text after
    the last [sep], or all of [s] when it has none. *)
Fixpoint lastSegment (sep : ascii) (s : string) : string :=
  match s with
  | EmptyString => EmptyString
  | String c t =>
      if includes t (String sep EmptyString) then lastSegment sep t
      else if Ascii.eqb c sep then t
      else s
  end.

(** The number written by a string of decimal digits. *)
Definition digitOf (c : ascii) : option Z :=
  let n := nat_of_ascii c in
  if ((48 <=? n) && (n <=? 57))%nat then Some (Z.of_nat (n - 48)) else None.

Fixpoint digitsFrom (acc : Z) (s : string) : option Z :=
  match s with
  | EmptyString => Some acc
  | String c t =>
      match digitOf c with
      | Some d => digitsFrom (10 * acc + d) t
      | None => None
      end
  end.

Definition parseDigits (s : string) : option Z :=
  match s with
  | EmptyString => None
  | _ => digitsFrom 0 s
  end.

(** [s.replace(pat, '')] for a literal text [pat]: the first occurrence
    of [pat] is removed, and [s] is returned as it is when there is
    none. *)
Fixpoint removeFirst (pat s : string) : string :=
  if String.prefix pat s then drop (String.length pat) s
  else
    match s with
    | EmptyString => EmptyString
    | String c t => String c (removeFirst pat t)
    end.

(** [s.split(sep)] for a single character [sep]. *)
Fixpoint splitOn (sep : ascii) (s : string) : list string :=
  match s with
  | EmptyString => [EmptyString]
  | String c t =>
      if Ascii.eqb c sep then EmptyString :: splitOn sep t
      else
        match splitOn sep t with
        | piece :: pieces => String c piece :: pieces
        | [] => [String c EmptyString]
        end
  end.

(** The last character of a text, if it has one. *)
Fixpoint lastChar (s : string) : option ascii :=
  match s with
  | EmptyString => None
  | String c EmptyString => Some c
  | String _ t => lastChar t
  end.

End JsString.

(** ** Regular expressions

  The patterns of [src/utils/index.ts] need literals, character
  classes, sequence, option, bounded repetition and star; matching is
  anchored at both ends ([^...$]) and decided by derivatives. *)

Module Regex.

Inductive re : Type :=
| Void                                  (* matches nothing *)
| Eps                                   (* matches the empty string *)
| Class (ranges : list (ascii * ascii)) (* [a-zA-Z0-9-] *)
| Seq (r1 r2 : re)
| Alt (r1 r2 : re)
| UpTo (n : nat) (r : re)               (* r{0,n} *)
| Star (r : re).

(** [(r)?] *)
Definition Opt (r : re) : re := Alt Eps r.

Definition inRange (c : ascii) (rg : ascii * ascii) : bool :=
  ((nat_of_ascii (fst rg) <=? nat_of_ascii c)
   && (nat_of_ascii c <=? nat_of_ascii (snd rg)))%nat.

Definition inClass (ranges : list (ascii * ascii)) (c : ascii) : bool :=
  existsb (inRange c) ranges.

Fixpoint nullable (r : re) : bool :=
  match r with
  | Void => false
  | Eps => true
  | Class _ => false
  | Seq r1 r2 => nullable r1 && nullable r2
  | Alt r1 r2 => nullable r1 || nullable r2
  | UpTo _ _ => true
  | Star _ => true
  end.

Fixpoint deriv (c : ascii) (r : re) : re :=
  match r with
  | Void => Void
  | Eps => Void
  | Class rs => if inClass rs c then Eps else Void
  | Seq r1 r2 =>
      if nullable r1
      then Alt (Seq (deriv c r1) r2) (deriv c r2)
      else Seq (deriv c r1) r2
  | Alt r1 r2 => Alt (deriv c r1) (deriv c r2)
  | UpTo O _ => Void
  | UpTo (S n) r1 => Seq (deriv c r1) (UpTo n r1)
  | Star r1 => Seq (deriv c r1) (Star r1)
  end.

(** [/^r$/.test(s)] *)
Fixpoint test (r : re) (s : string) : bool :=
  match s with
  | EmptyString => nullable r
  | String c t => test (deriv c r) t
  end.

(** The language of a pattern, to reason about [test]. *)
Inductive lang : re -> string -> Prop :=
| L_Eps : lang Eps EmptyString
| L_Class rs c : inClass rs c = true -> lang (Class rs) (String c EmptyString)
| L_Seq r1 r2 s1 s2 : lang r1 s1 -> lang r2 s2 -> lang (Seq r1 r2) (s1 +:+ s2)
| L_AltL r1 r2 s : lang r1 s -> lang (Alt r1 r2) s
| L_AltR r1 r2 s : lang r2 s -> lang (Alt r1 r2) s
| L_UpTo0 n r : lang (UpTo n r) EmptyString
| L_UpToS n r s1 s2 : lang r s1 -> lang (UpTo n r) s2 -> lang (UpTo (S n) r) (s1 +:+ s2)
| L_Star0 r : lang (Star r) EmptyString
| L_StarS r s1 s2 : lang r s1 -> lang (Star r) s2 -> lang (Star r) (s1 +:+ s2).

(** Every character a pattern can consume lies in one of its classes. *)
Fixpoint alphabet (r : re) (c : ascii) : bool :=
  match r with
  | Void | Eps => false
  | Class rs => inClass rs c
  | Seq r1 r2 | Alt r1 r2 => alphabet r1 c || alphabet r2 c
  | UpTo _ r1 | Star r1 => alphabet r1 c
  end.

(** Every class of the pattern contains the lower-case form of each of
    its characters. *)
Fixpoint lowerClosed (r : re) : Prop :=
  match r with
  | Void | Eps => True
  | Class rs => forall c, inClass rs c = true -> inClass rs (JsString.lowerChar c) = true
  | Seq r1 r2 | Alt r1 r2 => lowerClosed r1 /\ lowerClosed r2
  | UpTo _ r1 | Star r1 => lowerClosed r1
  end.

End Regex.

(** ** JavaScript numbers that need not be integers *)

Module JsNumber.

Inductive JsNum : Type :=
| NaN
| PosInf
| NegInf
| Num (q : Q).

Definition ofZ (n : Z) : JsNum := Num (inject_Z n).

(** [isNaN(x)] *)
Definition isNaN (x : JsNum) : bool :=
  match x with NaN => true | _ => false end.

(** [x < y]; every comparison with [NaN] is false. *)
Definition lt (x y : JsNum) : bool :=
  match x, y with
  | NaN, _ | _, NaN => false
  | _, NegInf => false
  | NegInf, _ => true
  | PosInf, _ => false
  | Num _, PosInf => true
  | Num a, Num b => match Qcompare a b with Lt => true | _ => false end
  end.

(** [x >= y] *)
Definition ge (x y : JsNum) : bool :=
  match x, y with
  | NaN, _ | _, NaN => false
  | _, NegInf => true
  | NegInf, _ => false
  | PosInf, _ => true
  | Num _, PosInf => false
  | Num a, Num b => match Qcompare a b with Lt => false | _ => true end
  end.

(** [x > y] *)
Definition gt (x y : JsNum) : bool := lt y x.

(** [Math.floor(x)] *)
Definition floor (x : JsNum) : JsNum :=
  match x with
  | Num q => Num (inject_Z (Qfloor q))
  | other => other
  end.

(** [a / b] for integers [a] and [b]: the exact quotient when [b] is
    not zero, and the IEEE results of a division by zero otherwise. *)
Definition divZ (a b : Z) : JsNum :=
  if b =? 0 then
    (if a =? 0 then NaN else if 0 <? a then PosInf else NegInf)
  else Num (inject_Z a / inject_Z b)%Q.

(** [x <= y] *)
Definition le (x y : JsNum) : bool := ge y x.

(** [Math.max(x, y)]: [NaN] if either argument is. *)
Definition max (x y : JsNum) : JsNum :=
  match x, y with
  | NaN, _ | _, NaN => NaN
  | _, _ => if ge x y then x else y
  end.

(** [Math.min(x, y)]: [NaN] if either argument is. *)
Definition min (x y : JsNum) : JsNum :=
  match x, y with
  | NaN, _ | _, NaN => NaN
  | _, _ => if le x y then x else y
  end.

(** Truthiness of a number: neither [NaN] nor zero. *)
Definition toBoolean (x : JsNum) : bool :=
  match x with
  | NaN => false
  | Num q => negb (Qeq_bool q 0)
  | _ => true
  end.

End JsNumber.

(** ** IEEE doubles, to compare the exact quotient of [divZ] with *)

Module JsFloat.

Definition two : float := PrimFloat.add PrimFloat.one PrimFloat.one.

(** The double of an integer; exact below 2^53. *)
Fixpoint ofPos (p : positive) : float :=
  match p with
  | xH => PrimFloat.one
  | xO q => PrimFloat.mul two (ofPos q)
  | xI q => PrimFloat.add (PrimFloat.mul two (ofPos q)) PrimFloat.one
  end.

Definition ofZ (z : Z) : float :=
  match z with
  | Z0 => PrimFloat.zero
  | Zpos p => ofPos p
  | Zneg p => PrimFloat.opp (ofPos p)
  end.

(** The double written [0.8] in the source: the one nearest to 8/10. *)
Definition warningThreshold : float := PrimFloat.div (ofZ 8) (ofZ 10).

(** The two comparisons of [checkTimeThresholds] (lines 297 and 302) on
    doubles: [percentage >= 1.0] and [percentage >= 0.8]. *)
Definition thresholdTests (timeSpent siteLimitMs : Z) : bool * bool :=
  let percentage := PrimFloat.div (ofZ timeSpent) (ofZ siteLimitMs) in
  (PrimFloat.leb PrimFloat.one percentage, PrimFloat.leb warningThreshold percentage).

End JsFloat.

(** ** [Map<string, V>] in insertion order *)

Module JsMap.

Section WithValue.
Context {V : Type}.

(** [m.get(k)] *)
Fixpoint get (m : list (string * V)) (k : string) : option V :=
  match m with
  | [] => None
  | (k', v) :: rest => if String.eqb k' k then Some v else get rest k
  end.

(** [m.has(k)] *)
Definition has (m : list (string * V)) (k : string) : bool :=
  match get m k with Some _ => true | None => false end.

(** [m.set(k, v)]: an existing key keeps its position. *)
Fixpoint set (m : list (string * V)) (k : string) (v : V) : list (string * V) :=
  match m with
  | [] => [(k, v)]
  | (k', v') :: rest =>
      if String.eqb k' k then (k, v) :: rest else (k', v') :: set rest k v
  end.

(** The keys, in iteration order. *)
Definition keys (m : list (string * V)) : list string := map fst m.

End WithValue.

End JsMap.

(** ** The browser environment read by a synchronous segment *)

Module Browser.

(** [now] is [Date.now()]; [timezoneOffset] is
    [Date.prototype.getTimezoneOffset()], the minutes by which UTC is
    ahead of local time, taken as constant over the days considered;
    [hostnameOf url] is [new URL(url).hostname], [None] when the
    constructor throws. *)
Record Env : Type := {
  now : Z;
  timezoneOffset : Z;
  hostnameOf : string -> option string
}.

Definition msPerDay : Z := 24 * 60 * 60 * 1000.

(** Day number (days since 1970-01-01) of the instant in UTC and in
    local time. *)
Definition utcDay (e : Env) : Z := now e / msPerDay.
Definition localDay (e : Env) : Z := (now e - timezoneOffset e * 60000) / msPerDay.

(** Proleptic Gregorian date of a day number: (year, month, day). *)
Definition civilFromDays (days : Z) : Z * Z * Z :=
  let z := days + 719468 in
  let era := z / 146097 in
  let doe := z - era * 146097 in
  let yoe := (doe - doe / 1460 + doe / 36524 - doe / 146096) / 365 in
  let y := yoe + era * 400 in
  let doy := doe - (365 * yoe + yoe / 4 - yoe / 100) in
  let mp := (5 * doy + 2) / 153 in
  let d := doy - (153 * mp + 2) / 5 + 1 in
  let m := if mp <? 10 then mp + 3 else mp - 9 in
  (if m <=? 2 then y + 1 else y, m, d).

(** The date part of [Date.prototype.toISOString()]: [YYYY-MM-DD], with
    a sign and six digits for years outside 0..9999. *)
Definition isoDate (days : Z) : string :=
  let '(y, m, d) := civilFromDays days in
  let year :=
    if (0 <=? y) && (y <=? 9999) then JsString.padStart 4 (JsString.ofZ y)
    else (if y <? 0 then "-" else "+") +:+ JsString.padStart 6 (JsString.ofZ (Z.abs y)) in
  year +:+ "-" +:+ JsString.padStart 2 (JsString.ofZ m)
       +:+ "-" +:+ JsString.padStart 2 (JsString.ofZ d).

(** Day number of a proleptic Gregorian date. *)
Definition daysFromCivil (y m d : Z) : Z :=
  let y' := if m <=? 2 then y - 1 else y in
  let era := y' / 400 in
  let yoe := y' - era * 400 in
  let doy := (153 * (if 2 <? m then m - 3 else m + 9) + 2) / 5 + d - 1 in
  let doe := yoe * 365 + yoe / 4 - yoe / 100 + doy in
  era * 146097 + doe - 719468.

(** [new Date(s).getTime()] for a date-only text [YYYY-MM-DD], which is
    read as midnight UTC; [None] stands for an invalid date.  Other
    forms of date text are not modelled. *)
Definition parseDate (s : string) : option Z :=
  match String.length s, String.get 4 s, String.get 7 s with
  | 10%nat, Some "-"%char, Some "-"%char =>
      match JsString.parseDigits (String.substring 0 4 s),
            JsString.parseDigits (String.substring 5 2 s),
            JsString.parseDigits (String.substring 8 2 s) with
      | Some y, Some m, Some d =>
          if (1 <=? m) && (m <=? 12) && (1 <=? d) && (d <=? 31)
          then Some (daysFromCivil y m d * msPerDay)
          else None
      | _, _, _ => None
      end
  | _, _, _ => None
  end.

(** The same environment at another instant. *)
Definition atTime (t : Z) (e : Env) : Env :=
  {| now := t; timezoneOffset := timezoneOffset e; hostnameOf := hostnameOf e |}.

(** The local calendar day as [YYYY-MM-DD]. *)
Definition localDateString (e : Env) : string := isoDate (localDay e).

End Browser.

(** ** [src/types/index.ts] *)

Module Types.

Record SiteConfig : Type := {
  enabled : bool;
  timeLimit : Z;          (* in minutes *)
  isDefault : bool
}.

Record TimeData : Type := {
  timeSpent : Z;          (* in milliseconds *)
  date : string;          (* YYYY-MM-DD *)
  lastUpdate : Z          (* timestamp *)
}.

Record TabInfo : Type := {
  site : string;
  tabId : Z
}.

Record BackgroundState : Type := {
  sites : list (string * SiteConfig);
  defaultTimeLimit : Z;
  warningThreshold : Q;
  activeTab : option TabInfo;
  sessionStartTime : option Z;
  trackingInterval : option positive;
  maxUpdateInterval : Z;
  lastUpdateTime : Z
}.

Inductive ValidationError : Type :=
| MkValidationError (message : string).

Definition DEFAULT_TIME_LIMIT : Z := 30.
Definition WARNING_THRESHOLD : Q := 8 # 10.
Definition MAX_UPDATE_INTERVAL : Z := 5000.
Definition DEFAULT_SITES : list string :=
  ["youtube.com"; "facebook.com"; "instagram.com"; "twitter.com";
   "tiktok.com"; "reddit.com"].

End Types.

(** ** [src/utils/index.ts] *)

Module Utils.
Import Types JsNumber Browser.

Definition extractSite (hostname : string) : string :=
  if String.eqb hostname "" then ""
  else JsString.stripPrefix "www." hostname.

Definition formatTime (timeMs : Z) : string :=
  if (timeMs =? 0) || (timeMs <? 0) then "0s"
  else
    let seconds := timeMs / 1000 in
    let minutes := seconds / 60 in
    let hours := minutes / 60 in
    if 0 <? hours then
      let remainingMinutes := minutes mod 60 in
      if 0 <? remainingMinutes
      then JsString.ofZ hours +:+ "h " +:+ JsString.ofZ remainingMinutes +:+ "m"
      else JsString.ofZ hours +:+ "h"
    else if 0 <? minutes then JsString.ofZ minutes +:+ "m"
    else JsString.ofZ seconds +:+ "s".

(** [s.replace(/^https?:\/\//, '')] *)
Definition stripProtocol (s : string) : string :=
  if String.prefix "http://" s then JsString.drop 7 s
  else if String.prefix "https://" s then JsString.drop 8 s
  else s.

Definition alnum : list (ascii * ascii) :=
  [("a", "z"); ("A", "Z"); ("0", "9")]%char.

(** [[a-zA-Z0-9]([a-zA-Z0-9-]{0,61}[a-zA-Z0-9])?] *)
Definition labelRegex : Regex.re :=
  Regex.Seq (Regex.Class alnum)
    (Regex.Opt (Regex.Seq (Regex.UpTo 61 (Regex.Class (alnum ++ [("-", "-")]%char)))
                          (Regex.Class alnum))).

(** [/^label(\.label)*$/] *)
Definition hostnameRegex : Regex.re :=
  Regex.Seq labelRegex
    (Regex.Star (Regex.Seq (Regex.Class [(".", ".")]%char) labelRegex)).

Definition isValidUrl (url : string) : bool :=
  if String.eqb url "" then false
  else
    let cleanUrl := stripProtocol url in
    Regex.test hostnameRegex cleanUrl.

(** [new Date().toISOString().split('T')[0]] *)
Definition getTodayString (e : Env) : string := isoDate (utcDay e).

(** [setDate(getDate() + 1)] then [setHours(0, 0, 0, 0)] on the local
    date, read back with [getTime()]. *)
Definition getNextMidnight (e : Env) : Z :=
  (localDay e + 1) * msPerDay + timezoneOffset e * 60000.

Definition findMatchingSite (hostname : string) (sites : list (string * SiteConfig))
  : option string :=
  if String.eqb hostname "" then None
  else if JsMap.has sites hostname then Some hostname
  else
    List.find
      (fun site => JsString.endsWith hostname ("." +:+ site) || String.eqb hostname site)
      (JsMap.keys sites).

(** A hostname is a strict subdomain of [domain] when it ends with a
    dot followed by [domain]. *)
Definition subdomainOf (hostname domain : string) : Prop :=
  exists pre, hostname = pre +:+ "." +:+ domain.

Definition validateDomain (domain : string) : ValidationError + string :=
  if String.eqb domain "" then inl (MkValidationError "Domain must be a non-empty string")
  else
    let cleanDomain := stripProtocol domain in
    let cleanDomain := extractSite cleanDomain in
    let cleanDomain := JsString.stripLast "/" cleanDomain in
    if String.eqb cleanDomain "" || negb (JsString.includes cleanDomain ".")
    then inl (MkValidationError "Invalid domain format")
    else if negb (isValidUrl cleanDomain)
    then inl (MkValidationError "Domain contains invalid characters")
    else inr (JsString.toLowerCase cleanDomain).

(** The value of [cleanDomain] when line 198 is reached. *)
Definition cleanDomainOf (domain : string) : string :=
  JsString.stripLast "/" (extractSite (stripProtocol domain)).

(** The characters a host name is made of: letters, digits, hyphen and
    dot. *)
Definition allowedChar (c : ascii) : bool :=
  Regex.inClass (alnum ++ [("-", "-"); (".", ".")]%char) c.

(** The text [.l1.l2...] of the labels [l1; l2; ...]. *)
Definition dotted (labels : list string) : string :=
  fold_right (fun l acc => String "."%char (l +:+ acc)) EmptyString labels.

(** One label of a host name as [hostnameRegex] has it: a letter or
    digit, then, optionally, up to 61 letters, digits or hyphens and a
    letter or digit. *)
Definition validLabel (label : string) : bool :=
  match label with
  | EmptyString => false
  | String c rest =>
      Regex.inClass alnum c
      && (String.length rest <=? 62)%nat
      && forallb (Regex.inClass (alnum ++ [("-", "-")]%char)) (list_ascii_of_string rest)
      && match JsString.lastChar rest with
         | Some d => Regex.inClass alnum d
         | None => true
         end
  end.

(** A host name by its labels: the pieces between the dots are all
    valid labels. *)
Definition validHostname (s : string) : bool :=
  forallb validLabel (JsString.splitOn "." s).

Definition validateTimeLimit (timeLimit : JsNum) : ValidationError + JsNum :=
  if isNaN timeLimit then inl (MkValidationError "Time limit must be a valid number")
  else if lt timeLimit (ofZ 1) || gt timeLimit (ofZ 480)
  then inl (MkValidationError "Time limit must be between 1 and 480 minutes")
  else inr (floor timeLimit).

Definition clamp (value min max : JsNum) : JsNum :=
  JsNumber.min (JsNumber.max value min) max.

End Utils.

(** ** [src/background/index.ts] *)

Module Background.
Import Types JsNumber Browser Utils.

(** *** Browser calls and what is waiting for them *)

Record Tab : Type := {
  url : option string       (* [tab.url], absent without the permission *)
}.

Record WarningMessage : Type := {
  action : string;
  message : string;
  remainingTime : Z
}.

(** [chrome.runtime.getURL('src/blocked.html') + `?site=${encodeURIComponent(site)}`] *)
Inductive Url : Type :=
| BlockedPage (siteParam : string).

Inductive Request : Type :=
| StorageGet (key : string)
| StorageGetAll
| StorageSet (key : string) (data : TimeData)
| StorageRemove (keys : list string)
| TabsGet (tabId : Z)
| TabsUpdate (tabId : Z) (target : Url)
| TabsSendMessage (tabId : Z) (msg : WarningMessage).

(** The outcome of a browser call.  [getTabWithTimeout] never rejects:
    it yields the tab, or [null] on a timeout or [lastError]. *)
Inductive Response : Type :=
| Fulfilled
| Rejected (error : string)
| TabResult (tab : option Tab).

Definition isRejected (r : Response) : bool :=
  match r with Rejected _ => true | _ => false end.

(** A method suspended at an [await], with the locals it still needs.
    Line numbers are those of [src/background/index.ts]. *)
Inductive Pending : Type :=
| UpdateTimeSpent_getTimeData (site : string) (now sessionTime : Z) (today : string)
    (* line 269, inside [getTimeData] at line 352 *)
| UpdateTimeSpent_setTimeData (site : string) (now newTimeSpent : Z) (data : TimeData)
    (* line 274, inside [setTimeData] at line 375 *)
| BlockSite_update (tabId : Z) (site : string)
    (* line 315 *)
| ShowWarning_sendMessage (tabId : Z) (msg : WarningMessage)
    (* line 334 *)
| HandleTabChange_getTab (tabId : Z)
    (* line 138 *)
| HandleTabChange_getTimeData (tabId : Z) (matchedSite : string) (today : string)
    (* line 156, inside [getTimeData] at line 352 *)
| ResetDailyData_get
    (* line 386 *)
| ResetDailyData_remove (keysToRemove : list string)
    (* line 397 *).

Definition storageKey (site date : string) : string :=
  "timeData_" +:+ site +:+ "_" +:+ date.

Definition requestOf (p : Pending) : Request :=
  match p with
  | UpdateTimeSpent_getTimeData site _ _ today => StorageGet (storageKey site today)
  | UpdateTimeSpent_setTimeData site _ _ data => StorageSet (storageKey site (date data)) data
  | BlockSite_update tabId site => TabsUpdate tabId (BlockedPage site)
  | ShowWarning_sendMessage tabId msg => TabsSendMessage tabId msg
  | HandleTabChange_getTab tabId => TabsGet tabId
  | HandleTabChange_getTimeData _ matchedSite today => StorageGet (storageKey matchedSite today)
  | ResetDailyData_get => StorageGetAll
  | ResetDailyData_remove keys => StorageRemove keys
  end.

Inductive ConsoleEntry : Type :=
| ConsoleError (label detail : string)
| ConsoleWarn (text : string)
| ConsoleLog (text : string).

(** *** The service worker and its surroundings *)

Record World : Type := {
  state : BackgroundState;
  storage : gmap string TimeData;      (* chrome.storage.local *)
  intervals : list positive;           (* timers set and not yet cleared *)
  nextInterval : positive;             (* the id [setInterval] returns next *)
  pending : list Pending;              (* suspended methods, oldest first *)
  console : list ConsoleEntry          (* newest first *)
}.

Definition withState (f : BackgroundState -> BackgroundState) (w : World) : World :=
  {| state := f (state w); storage := storage w; intervals := intervals w;
     nextInterval := nextInterval w; pending := pending w; console := console w |}.

Definition withStorage (f : gmap string TimeData -> gmap string TimeData) (w : World) : World :=
  {| state := state w; storage := f (storage w); intervals := intervals w;
     nextInterval := nextInterval w; pending := pending w; console := console w |}.

Definition withPending (f : list Pending -> list Pending) (w : World) : World :=
  {| state := state w; storage := storage w; intervals := intervals w;
     nextInterval := nextInterval w; pending := f (pending w); console := console w |}.

Definition suspend (p : Pending) : World -> World := withPending (fun q => q ++ [p]).

Definition log (entry : ConsoleEntry) (w : World) : World :=
  {| state := state w; storage := storage w; intervals := intervals w;
     nextInterval := nextInterval w; pending := pending w; console := entry :: console w |}.

Definition setActiveTab (v : option TabInfo) (s : BackgroundState) : BackgroundState :=
  {| sites := sites s; defaultTimeLimit := defaultTimeLimit s;
     warningThreshold := warningThreshold s; activeTab := v;
     sessionStartTime := sessionStartTime s; trackingInterval := trackingInterval s;
     maxUpdateInterval := maxUpdateInterval s; lastUpdateTime := lastUpdateTime s |}.

Definition setSessionStartTime (v : option Z) (s : BackgroundState) : BackgroundState :=
  {| sites := sites s; defaultTimeLimit := defaultTimeLimit s;
     warningThreshold := warningThreshold s; activeTab := activeTab s;
     sessionStartTime := v; trackingInterval := trackingInterval s;
     maxUpdateInterval := maxUpdateInterval s; lastUpdateTime := lastUpdateTime s |}.

Definition setTrackingInterval (v : option positive) (s : BackgroundState) : BackgroundState :=
  {| sites := sites s; defaultTimeLimit := defaultTimeLimit s;
     warningThreshold := warningThreshold s; activeTab := activeTab s;
     sessionStartTime := sessionStartTime s; trackingInterval := v;
     maxUpdateInterval := maxUpdateInterval s; lastUpdateTime := lastUpdateTime s |}.

Definition setLastUpdateTime (v : Z) (s : BackgroundState) : BackgroundState :=
  {| sites := sites s; defaultTimeLimit := defaultTimeLimit s;
     warningThreshold := warningThreshold s; activeTab := activeTab s;
     sessionStartTime := sessionStartTime s; trackingInterval := trackingInterval s;
     maxUpdateInterval := maxUpdateInterval s; lastUpdateTime := v |}.

(** [setInterval(...)]: a fresh, non-zero id. *)
Definition setInterval (w : World) : positive * World :=
  (nextInterval w,
   {| state := state w; storage := storage w;
      intervals := nextInterval w :: intervals w;
      nextInterval := Pos.succ (nextInterval w);
      pending := pending w; console := console w |}).

(** [clearInterval(id)] *)
Definition clearInterval (id : positive) (w : World) : World :=
  {| state := state w; storage := storage w;
     intervals := List.filter (fun i => negb (Pos.eqb i id)) (intervals w);
     nextInterval := nextInterval w; pending := pending w; console := console w |}.

(** The state built by the constructor (lines 37-46). *)
Definition initialState : BackgroundState :=
  {| sites := []; defaultTimeLimit := DEFAULT_TIME_LIMIT;
     warningThreshold := WARNING_THRESHOLD; activeTab := None;
     sessionStartTime := None; trackingInterval := None;
     maxUpdateInterval := MAX_UPDATE_INTERVAL; lastUpdateTime := 0 |}.

(** Truthiness of [sessionStartTime]: neither [null] nor [0]. *)
Definition truthy (t : option Z) : bool :=
  match t with
  | Some n => negb (n =? 0)
  | None => false
  end.

(** [this.state.activeTab && this.state.sessionStartTime] *)
Definition sessionActive (s : BackgroundState) : bool :=
  match activeTab s with
  | Some _ => truthy (sessionStartTime s)
  | None => false
  end.

Definition isSystemUrl (u : string) : bool :=
  JsString.startsWith u "chrome://"
  || JsString.startsWith u "chrome-extension://"
  || JsString.startsWith u "edge://"
  || JsString.startsWith u "about:".

Definition getSiteTimeLimit (s : BackgroundState) (site : string) : Z :=
  let limitMinutes :=
    match JsMap.get (sites s) site with
    | Some siteConfig =>
        if timeLimit siteConfig =? 0 then defaultTimeLimit s else timeLimit siteConfig
    | None => defaultTimeLimit s
    end in
  limitMinutes * 60 * 1000.

(** *** Methods, one synchronous segment at a time *)

(** [updateTimeSpent] past the guard of line 250, with [tab] and [start]
    the values of [activeTab] and [sessionStartTime] it found, up to the
    [await] inside [getTimeData]. *)
Definition updateTimeSpent_session (e : Env) (tab : TabInfo) (start : Z) (w : World) : World :=
  let now := Browser.now e in
  let sessionTime := now - start in
  let site := Types.site tab in
  let w :=
    if sessionTime >? maxUpdateInterval (state w) then
      let limitedSessionTime := Z.min sessionTime (maxUpdateInterval (state w)) in
      withState (setSessionStartTime (Some (now - limitedSessionTime)))
        (log (ConsoleWarn "Large time gap detected, limiting session time") w)
    else w in
  let today := getTodayString e in
  suspend (UpdateTimeSpent_getTimeData site now sessionTime today) w.

(** Lines 233-235 of [stopTracking].  The call of [updateTimeSpent] is
    not awaited, so that method runs up to its first [await] and
    continues later; under the guard of line 233 it passes its own
    guard of line 250. *)
Definition flushSession (e : Env) (w : World) : World :=
  match activeTab (state w), sessionStartTime (state w) with
  | Some tab, Some start =>
      if negb (start =? 0) then updateTimeSpent_session e tab start w else w
  | _, _ => w
  end.

(** Lines 237-243 of [stopTracking]. *)
Definition clearSession (w : World) : World :=
  let w := withState (setActiveTab None) w in
  let w := withState (setSessionStartTime None) w in
  match trackingInterval (state w) with
  | Some id => withState (setTrackingInterval None) (clearInterval id w)
  | None => w
  end.

(** [stopTracking] (lines 232-244). *)
Definition stopTracking (e : Env) (w : World) : World :=
  clearSession (flushSession e w).

(** [updateTimeSpent] from its entry (line 249) to its first [await]. *)
Definition updateTimeSpent (e : Env) (w : World) : World :=
  match activeTab (state w), sessionStartTime (state w) with
  | Some tab, Some start =>
      if negb (start =? 0) then updateTimeSpent_session e tab start w
      else stopTracking e w
  | _, _ => stopTracking e w
  end.

(** [blockSite] up to [await chrome.tabs.update] (line 315). *)
Definition blockSite (tabId : Z) (site : string) (w : World) : World :=
  suspend (BlockSite_update tabId site) w.

(** [showWarning] up to [await chrome.tabs.sendMessage] (line 334). *)
Definition showWarning (site : string) (remainingTime : Z) (w : World) : World :=
  let formattedTime := formatTime remainingTime in
  let message :=
    "Warning: You have " +:+ formattedTime +:+ " left on " +:+ site +:+ " today." in
  match activeTab (state w) with
  | Some tab =>
      suspend (ShowWarning_sendMessage (tabId tab)
                 {| action := "showWarning"; message := message;
                    remainingTime := remainingTime |}) w
  | None => w
  end.

(** [checkTimeThresholds] (lines 293-307). *)
Definition checkTimeThresholds (site : string) (timeSpent : Z) (w : World) : World :=
  let siteLimitMs := getSiteTimeLimit (state w) site in
  let percentage := divZ timeSpent siteLimitMs in
  if ge percentage (ofZ 1) then
    match activeTab (state w) with
    | Some tab => blockSite (tabId tab) site w
    | None => w
    end
  else if ge percentage (Num (warningThreshold (state w))) then
    let remainingTime := siteLimitMs - timeSpent in
    showWarning site remainingTime w
  else w.

(** The same two comparisons as [checkTimeThresholds] makes them here. *)
Definition thresholdTests (timeSpent siteLimitMs : Z) : bool * bool :=
  let percentage := divZ timeSpent siteLimitMs in
  (ge percentage (ofZ 1), ge percentage (Num WARNING_THRESHOLD)).

(** Times around the two thresholds of a limit given in minutes. *)
Definition boundaryTimes (limitMinutes : Z) : list Z :=
  let limit := limitMinutes * 60 * 1000 in
  let warn := limitMinutes * 48000 in
  [0; 1; warn - 1; warn; warn + 1; limit - 1; limit; limit + 1; 2 * limit].

(** [startTracking] (lines 215-227). *)
Definition startTracking (e : Env) (site : string) (tabId : Z) (w : World) : World :=
  let w := stopTracking e w in
  let w := withState (setActiveTab (Some {| site := site; tabId := tabId |})) w in
  let w := withState (setSessionStartTime (Some (now e))) w in
  let w := withState (setLastUpdateTime (now e)) w in
  let '(id, w) := setInterval w in
  withState (setTrackingInterval (Some id)) w.

(** [getTimeData] after its [await] (lines 354-366); [today] was read
    before the call was made. *)
Definition getTimeData_resume (e : Env) (site today : string) (r : Response) (w : World)
  : TimeData * World :=
  match r with
  | Rejected error =>
      ({| timeSpent := 0; date := getTodayString e; lastUpdate := now e |},
       log (ConsoleError "Error getting time data:" error) w)
  | _ =>
      (match storage w !! storageKey site today with
       | Some stored => stored
       | None => {| timeSpent := 0; date := today; lastUpdate := now e |}
       end, w)
  end.

(** [handleTabChange] up to [await this.getTabWithTimeout(tabId)]. *)
Definition handleTabChange (e : Env) (tabId : Z) (w : World) : World :=
  let w := stopTracking e w in
  suspend (HandleTabChange_getTab tabId) w.

(** [resetDailyData] up to [await chrome.storage.local.get(null)]. *)
Definition resetDailyData (w : World) : World :=
  suspend ResetDailyData_get w.

(** [Object.keys(storage)] *)
Definition storageKeys (w : World) : list string :=
  map fst (map_to_list (storage w)).

(** The code that follows the [await] at which [p] is suspended, run
    when the browser call completes with [r]; a storage call takes
    effect at that moment. *)
Definition resume (p : Pending) (r : Response) (e : Env) (w : World) : World :=
  match p with
  | UpdateTimeSpent_getTimeData site now sessionTime today =>
      let '(timeData, w) := getTimeData_resume e site today r w in
      let actualSessionTime := Z.min sessionTime (maxUpdateInterval (state w)) in
      let newTimeSpent := timeSpent timeData + actualSessionTime in
      let data := {| timeSpent := newTimeSpent; date := getTodayString e;
                     lastUpdate := now |} in
      suspend (UpdateTimeSpent_setTimeData site now newTimeSpent data) w
  | UpdateTimeSpent_setTimeData site now newTimeSpent data =>
      let w :=
        match r with
        | Rejected error => log (ConsoleError "Error setting time data:" error) w
        | _ => withStorage (insert (storageKey site (date data)) data) w
        end in
      let w := withState (setSessionStartTime (Some now)) w in
      checkTimeThresholds site newTimeSpent w
  | BlockSite_update tabId site =>
      match r with
      | Rejected error => log (ConsoleError "Error blocking site:" error) w
      | _ => stopTracking e w
      end
  | ShowWarning_sendMessage tabId msg =>
      match r with
      | Rejected error => log (ConsoleError "Error showing warning:" error) w
      | _ => w
      end
  | HandleTabChange_getTab tabId =>
      match r with
      | TabResult (Some tab) =>
          match url tab with
          | Some u =>
              if String.eqb u "" || isSystemUrl u then w
              else
                match hostnameOf e u with
                | None => log (ConsoleError "Error handling tab change:" "Invalid URL") w
                | Some hostname =>
                    let site := extractSite hostname in
                    match findMatchingSite site (sites (state w)) with
                    | None => w
                    | Some matchedSite =>
                        if String.eqb matchedSite "" then w
                        else
                          match JsMap.get (sites (state w)) matchedSite with
                          | Some siteConfig =>
                              if enabled siteConfig then
                                let today := getTodayString e in
                                suspend (HandleTabChange_getTimeData tabId matchedSite today) w
                              else w
                          | None => w
                          end
                    end
                end
          | None => w
          end
      | _ => w
      end
  | HandleTabChange_getTimeData tabId matchedSite today =>
      let '(timeData, w) := getTimeData_resume e matchedSite today r w in
      let siteLimitMs := getSiteTimeLimit (state w) matchedSite in
      if timeSpent timeData >=? siteLimitMs then blockSite tabId matchedSite w
      else startTracking e matchedSite tabId w
  | ResetDailyData_get =>
      match r with
      | Rejected error => log (ConsoleError "Error resetting daily data:" error) w
      | _ =>
          let keysToRemove :=
            List.filter (fun key => JsString.startsWith key "timeData_") (storageKeys w) in
          match keysToRemove with
          | [] => w
          | _ :: _ => suspend (ResetDailyData_remove keysToRemove) w
          end
      end
  | ResetDailyData_remove keysToRemove =>
      match r with
      | Rejected error => log (ConsoleError "Error resetting daily data:" error) w
      | _ =>
          log (ConsoleLog "Daily data reset completed")
            (withStorage (fun m => foldr delete m keysToRemove) w)
      end
  end.

(** *** The event loop *)

Inductive Event : Type :=
| TabActivated (tabId : Z)           (* also a completed load of the active tab *)
| WindowFocusLost                    (* [windowId === WINDOW_ID_NONE] *)
| IntervalFired (id : positive)
| AlarmFired (name : string)
| Completed (i : nat) (r : Response) (* the browser call of the i-th pending method *).

Definition handle (e : Env) (ev : Event) (w : World) : World :=
  match ev with
  | TabActivated tabId => handleTabChange e tabId w
  | WindowFocusLost => stopTracking e w
  | IntervalFired id =>
      if existsb (Pos.eqb id) (intervals w) then updateTimeSpent e w else w
  | AlarmFired name =>
      if String.eqb name "dailyReset" then resetDailyData w else w
  | Completed i r =>
      match pending w !! i with
      | Some p => resume p r e (withPending (delete i) w)
      | None => w
      end
  end.

(** The most recently suspended method is resumed with [r]. *)
Definition completeLast (r : Response) (e : Env) (w : World) : World :=
  handle e (Completed (Nat.pred (length (pending w))) r) w.

(** A run of events, each with the environment it observes. *)
Definition run (evs : list (Env * Event)) (w : World) : World :=
  fold_left (fun w ev => handle (fst ev) (snd ev) w) evs w.

(** *** What every event preserves *)

(** The registry and the three settings of the state are the same in
    [w'] as in [w]. *)
Definition sameSettings (w w' : World) : Prop :=
  sites (state w') = sites (state w)
  /\ defaultTimeLimit (state w') = defaultTimeLimit (state w)
  /\ warningThreshold (state w') = warningThreshold (state w)
  /\ maxUpdateInterval (state w') = maxUpdateInterval (state w).

(** The only timer set is the one [trackingInterval] names, and the
    next id has not been used. *)
Definition timersConsistent (w : World) : Prop :=
  intervals w
  = match trackingInterval (state w) with
    | Some id => [id]
    | None => []
    end
  /\ forall id, trackingInterval (state w) = Some id -> (id < nextInterval w)%positive.

(** Going from [w] to [w'] keeps the settings and the consistency of
    the timers. *)
Definition preserves (w w' : World) : Prop :=
  sameSettings w w' /\ (timersConsistent w -> timersConsistent w').

(** The service worker after its constructor and [initializeStorage],
    with the registry and default limit found in the store. *)
Definition initialWorld (registry : list (string * SiteConfig)) (limit : Z)
    (store : gmap string TimeData) : World :=
  {| state :=
       {| sites := registry; defaultTimeLimit := limit;
          warningThreshold := WARNING_THRESHOLD; activeTab := None;
          sessionStartTime := None; trackingInterval := None;
          maxUpdateInterval := MAX_UPDATE_INTERVAL; lastUpdateTime := 0 |};
     storage := store; intervals := []; nextInterval := 1%positive;
     pending := []; console := [] |}.

(** *** Runs of one method with nothing else in between *)

(** The milliseconds the ledger holds for [site] on [date]. *)
Definition spent (w : World) (site date : string) : Z :=
  match storage w !! storageKey site date with
  | Some entry => timeSpent entry
  | None => 0
  end.

(** One firing of the interval timer: [updateTimeSpent] runs at [e1],
    its read of the store completes with [r1] at [e2] and its write
    with [r2] at [e3]. *)
Definition tick (e1 e2 e3 : Env) (r1 r2 : Response) (w : World) : World :=
  completeLast r2 e3 (completeLast r1 e2 (updateTimeSpent e1 w)).

(** One focus event on tab [tabId]: [handleTabChange] runs at [e1], the
    tab query yields [tab] at [e2] and the read of the store completes
    with [r] at [e3]. *)
Definition focus (e1 e2 e3 : Env) (tabId : Z) (tab : Tab) (r : Response) (w : World)
  : World :=
  completeLast r e3 (completeLast (TabResult (Some tab)) e2 (handleTabChange e1 tabId w)).

(** One firing of the [dailyReset] alarm: the listing of the store
    completes with [r1] at [e2] and the removal with [r2] at [e3]. *)
Definition rollover (e1 e2 e3 : Env) (r1 r2 : Response) (w : World) : World :=
  completeLast r2 e3 (completeLast r1 e2 (handle e1 (AlarmFired "dailyReset") w)).

(** The URL of [tab] is that of a page of the tracked and enabled site
    [matchedSite] (lines 139-154). *)
Definition resolvesTo (e : Env) (tab : Tab) (s : BackgroundState) (matchedSite : string)
  : Prop :=
  exists u hostname siteConfig,
    url tab = Some u /\ u <> "" /\ isSystemUrl u = false
    /\ hostnameOf e u = Some hostname
    /\ findMatchingSite (extractSite hostname) (sites s) = Some matchedSite
    /\ matchedSite <> ""
    /\ JsMap.get (sites s) matchedSite = Some siteConfig
    /\ enabled siteConfig = true.

(** The stored entry of [site] for [date] has reached the site's limit. *)
Definition exhausted (w : World) (site date : string) : Prop :=
  exists entry,
    storage w !! storageKey site date = Some entry
    /\ getSiteTimeLimit (state w) site <= timeSpent entry.

(** A focus event with the environments of its segments. *)
Record FocusEvent : Type := {
  atHandler : Env;
  atTab : Env;
  atRead : Env;
  atNavigation : Env;
  onTab : Z;
  tabFound : Tab
}.

(** Focus events one after the other, each with the browser call it is
    left waiting for completed before the next event arrives. *)
Definition focusAll (evs : list FocusEvent) (w : World) : World :=
  fold_left
    (fun w ev =>
       completeLast Fulfilled (atNavigation ev)
         (focus (atHandler ev) (atTab ev) (atRead ev) (onTab ev) (tabFound ev)
            Fulfilled w))
    evs w.

(** *** The session fields taken together *)

(** A tab is being tracked exactly when the interval timer is set, and
    then the session has a start time. *)
Definition sessionConsistent (w : World) : Prop :=
  (activeTab (state w) = None <-> trackingInterval (state w) = None)
  /\ (activeTab (state w) <> None -> sessionStartTime (state w) <> None).

(** *** The ledger as the message handlers see it *)

(** [setTimeData] after its [await] (lines 375-378). *)
Definition setTimeData_resume (site : string) (data : TimeData) (r : Response) (w : World)
  : World :=
  match r with
  | Rejected error => log (ConsoleError "Error setting time data:" error) w
  | _ => withStorage (insert (storageKey site (date data)) data) w
  end.

(** The site [getAllTimeData] reads out of a key of the store
    (line 522). *)
Definition siteOfKey (today key : string) : string :=
  JsString.removeFirst ("_" +:+ today) (JsString.removeFirst "timeData_" key).

(** The loop of [getAllTimeData] (lines 520-525) over the entries of
    the store, in the order [Object.entries] yields them. *)
Definition collectTimeData (today : string) (entries : list (string * TimeData))
  : gmap string TimeData :=
  fold_left
    (fun timeData entry =>
       let '(key, value) := entry in
       if JsString.startsWith key "timeData_" && JsString.endsWith key ("_" +:+ today)
       then <[siteOfKey today key := value]> timeData
       else timeData)
    entries ∅.

(** [getAllTimeData] after its [await] (lines 517-530); [today] was
    read before the call was made. *)
Definition getAllTimeData_resume (today : string) (r : Response) (w : World)
  : gmap string TimeData * World :=
  match r with
  | Rejected error => (∅, log (ConsoleError "Error getting all time data:" error) w)
  | _ => (collectTimeData today (map_to_list (storage w)), w)
  end.

End Background.

(** ** Settings sent by the popup ([src/background/index.ts], lines 536-566) *)

Module Settings.
Import Types Background.

(** The argument of [updateSettings]; [sites] is the object in the
    order [Object.entries] lists it, each domain once. *)
Record Settings : Type := {
  defaultTimeLimit : Z;
  sites : list (string * SiteConfig)
}.

(** The registry after [this.state.sites.clear()] and one
    [this.state.sites.set(domain, config)] for each entry
    (lines 541-544). *)
Definition registryOf (entries : list (string * SiteConfig)) : list (string * SiteConfig) :=
  fold_left (fun m entry => JsMap.set m (fst entry) (snd entry)) entries [].

(** [updateSettings] up to [await this.saveSettings()]
    (lines 538-547). *)
Definition updateSettings (settings : Settings) (w : World) : World :=
  withState
    (fun s =>
       {| Types.sites := registryOf (sites settings);
          Types.defaultTimeLimit := defaultTimeLimit settings;
          warningThreshold := warningThreshold s; activeTab := activeTab s;
          sessionStartTime := sessionStartTime s;
          trackingInterval := trackingInterval s;
          maxUpdateInterval := maxUpdateInterval s;
          lastUpdateTime := lastUpdateTime s |})
    w.

End Settings.

(** ** The legacy script ([background.js], the JavaScript predecessor)

    Only its daily reset is embedded, for comparison with the one of
    [src/background/index.ts]. *)

Module Legacy.
Import Browser.

(** The test of lines 291-300 on one key of the store: the key is of
    the legacy scheme [time_<site>_<date>] and its date lies before
    [sevenDaysAgo]. *)
Definition isStale (e : Env) (key : string) : bool :=
  let sevenDaysAgo := now e - 7 * 24 * 60 * 60 * 1000 in
  JsString.startsWith key "time_"
  && match parseDate (JsString.lastSegment "_" key) with
     | Some date => date <? sevenDaysAgo
     | None => false
     end.

(** [resetDailyData] with both of its storage calls succeeding: the
    keys are listed, the stale ones collected and removed. *)
Definition resetDailyData {V : Type} (e : Env) (store : gmap string V) : gmap string V :=
  let keysToRemove := List.filter (isStale e) (map fst (map_to_list store)) in
  foldr delete store keysToRemove.

End Legacy.

(** ** The [Site] class of the utilities, built on [validateDomain] and
    [validateTimeLimit] *)

Module SiteClass.
Import Types JsNumber Utils.

(** [Partial<SiteConfig>]: a field is [None] when it is absent. *)
Record PartialConfig : Type := {
  enabledOpt : option bool;
  timeLimitOpt : option JsNum;
  isDefaultOpt : option bool
}.

(** [SiteConfig] as the class handles it, the limit being any
    number. *)
Record Config : Type := {
  cfgEnabled : bool;
  cfgTimeLimit : JsNum;
  cfgIsDefault : bool
}.

(** A [SiteConfig] passed where a [Partial<SiteConfig>] is expected. *)
Definition asPartial (c : Config) : PartialConfig :=
  {| enabledOpt := Some (cfgEnabled c); timeLimitOpt := Some (cfgTimeLimit c);
     isDefaultOpt := Some (cfgIsDefault c) |}.

Record Site : Type := {
  domain : string;
  enabled : bool;
  timeLimit : JsNum;      (* in minutes *)
  isDefault : bool
}.

(** [new Site(domain, config)] (lines 19-24). *)
Definition new (domain : string) (config : PartialConfig) : ValidationError + Site :=
  match validateDomain domain with
  | inl error => inl error
  | inr validDomain =>
      let enabled := match enabledOpt config with Some b => b | None => true end in
      let limit :=
        match timeLimitOpt config with
        | Some t => if toBoolean t then validateTimeLimit t else inr (ofZ 30)
        | None => inr (ofZ 30)
        end in
      match limit with
      | inl error => inl error
      | inr validLimit =>
          inr {| domain := validDomain; enabled := enabled; timeLimit := validLimit;
                 isDefault := match isDefaultOpt config with Some b => b | None => false end |}
      end
  end.

Definition toggle (s : Site) : Site :=
  {| domain := domain s; enabled := negb (enabled s); timeLimit := timeLimit s;
     isDefault := isDefault s |}.

Definition setTimeLimit (minutes : JsNum) (s : Site) : ValidationError + Site :=
  match validateTimeLimit minutes with
  | inl error => inl error
  | inr validLimit =>
      inr {| domain := domain s; enabled := enabled s; timeLimit := validLimit;
             isDefault := isDefault s |}
  end.

Definition toJSON (s : Site) : Config :=
  {| cfgEnabled := enabled s; cfgTimeLimit := timeLimit s; cfgIsDefault := isDefault s |}.

Definition fromJSON (domain : string) (data : Config) : ValidationError + Site :=
  new domain (asPartial data).

Definition matches (s : Site) (hostname : string) : bool :=
  if String.eqb hostname "" then false
  else if String.eqb hostname (domain s) then true
  else JsString.endsWith hostname ("." +:+ domain s).

Definition equals (s other : Site) : bool := String.eqb (domain s) (domain other).

(** The two methods that change a site. *)
Inductive Op : Type :=
| Toggle
| SetTimeLimit (minutes : JsNum).

(** A sequence of method calls on a site; the first call that throws
    ends it. *)
Fixpoint applyAll (ops : list Op) (s : Site) : ValidationError + Site :=
  match ops with
  | [] => inr s
  | Toggle :: rest => applyAll rest (toggle s)
  | SetTimeLimit minutes :: rest =>
      match setTimeLimit minutes s with
      | inl error => inl error
      | inr s' => applyAll rest s'
      end
  end.

End SiteClass.

(** ** The blocked page ([src/blocked.ts]) *)

Module Blocked.
Import Browser Utils.

(** The three numbers [updateCountdown] shows (lines 27-36): the time
    from now to the next local midnight in hours, minutes and seconds.
    Lines 28-30 are the computation of [getNextMidnight]. *)
Definition countdownParts (e : Env) : Z * Z * Z :=
  let tomorrow := getNextMidnight e in
  let timeDiff := tomorrow - now e in
  let hours := timeDiff / (1000 * 60 * 60) in
  let minutes := Z.rem timeDiff (1000 * 60 * 60) / (1000 * 60) in
  let seconds := Z.rem timeDiff (1000 * 60) / 1000 in
  (hours, minutes, seconds).

(** The text of the countdown (line 41). *)
Definition updateCountdown (e : Env) : string :=
  let '(hours, minutes, seconds) := countdownParts e in
  JsString.padStart 2 (JsString.ofZ hours) +:+ ":"
  +:+ JsString.padStart 2 (JsString.ofZ minutes) +:+ ":"
  +:+ JsString.padStart 2 (JsString.ofZ seconds).

End Blocked.

(** ** Concrete situations *)

Module Scenario.
Import Types Browser Background.

(** 2024-01-02T04:00:00Z. *)
Definition t0 : Z := 1704168000000.

(** An environment in the UTC zone whose URL parser knows one page. *)
Definition envAt (t : Z) : Env :=
  {| now := t; timezoneOffset := 0;
     hostnameOf := fun u =>
       if String.eqb u "https://www.youtube.com/watch" then Some "www.youtube.com"
       else None |}.

Definition youtubeTab : Tab := {| url := Some "https://www.youtube.com/watch" |}.

(** One site, limited to one minute a day. *)
Definition registry : list (string * SiteConfig) :=
  [("youtube.com", {| enabled := true; timeLimit := 1; isDefault := true |})].

Definition entryOf (ms : Z) (day : string) : TimeData :=
  {| timeSpent := ms; date := day; lastUpdate := t0 - 1000 |}.

Definition idleState : BackgroundState :=
  {| sites := registry; defaultTimeLimit := DEFAULT_TIME_LIMIT;
     warningThreshold := WARNING_THRESHOLD; activeTab := None;
     sessionStartTime := None; trackingInterval := None;
     maxUpdateInterval := MAX_UPDATE_INTERVAL; lastUpdateTime := 0 |}.

(** A session on tab 7 that started one second before [t0]. *)
Definition trackingState : BackgroundState :=
  {| sites := registry; defaultTimeLimit := DEFAULT_TIME_LIMIT;
     warningThreshold := WARNING_THRESHOLD;
     activeTab := Some {| site := "youtube.com"; tabId := 7 |};
     sessionStartTime := Some (t0 - 1000); trackingInterval := Some 1%positive;
     maxUpdateInterval := MAX_UPDATE_INTERVAL; lastUpdateTime := t0 - 1000 |}.

(** Tracking, with [ms] milliseconds on today's ledger entry. *)
Definition trackingWorld (ms : Z) : World :=
  {| state := trackingState;
     storage := {[ storageKey "youtube.com" "2024-01-02" := entryOf ms "2024-01-02" ]};
     intervals := [1%positive]; nextInterval := 2%positive;
     pending := []; console := [] |}.

(** Idle, with [ms] milliseconds on today's ledger entry. *)
Definition idleWorld (ms : Z) : World :=
  {| state := idleState;
     storage := {[ storageKey "youtube.com" "2024-01-02" := entryOf ms "2024-01-02" ]};
     intervals := []; nextInterval := 2%positive;
     pending := []; console := [] |}.

(** The day numbers today-10 .. today, today being 2024-01-02. *)
Definition lastElevenDays : list Z := map (fun i => 19724 - Z.of_nat i) (seq 0 11).

(** Idle, with a ledger entry for each of these days and the legacy
    entry of one of them. *)
Definition ledgerWorld : World :=
  {| state := idleState;
     storage :=
       <[ "time_youtube.com_2024-01-01" := entryOf 100 "2024-01-01" ]>
         (list_to_map
            (map (fun d => (storageKey "youtube.com" (isoDate d), entryOf 60000 (isoDate d)))
               lastElevenDays));
     intervals := []; nextInterval := 1%positive;
     pending := []; console := [] |}.

(** 2024-01-03T00:00:00Z, the end of the UTC day of [t0]. *)
Definition midnight : Z := t0 + 20 * 60 * 60 * 1000.

(** A session on tab 7 that started 1001 ms before that midnight, with
    [ms] milliseconds on the ledger entry of 2024-01-02. *)
Definition lateWorld (ms : Z) : World :=
  {| state :=
       {| sites := registry; defaultTimeLimit := DEFAULT_TIME_LIMIT;
          warningThreshold := WARNING_THRESHOLD;
          activeTab := Some {| site := "youtube.com"; tabId := 7 |};
          sessionStartTime := Some (midnight - 1001);
          trackingInterval := Some 1%positive;
          maxUpdateInterval := MAX_UPDATE_INTERVAL; lastUpdateTime := midnight - 1001 |};
     storage := {[ storageKey "youtube.com" "2024-01-02" := entryOf ms "2024-01-02" ]};
     intervals := [1%positive]; nextInterval := 2%positive;
     pending := []; console := [] |}.

(** The same eleven days under the keys of the legacy scheme. *)
Definition legacyLedger : gmap string TimeData :=
  list_to_map
    (map (fun d => ("time_youtube.com_" +:+ isoDate d, entryOf 60000 (isoDate d)))
       lastElevenDays).

End Scenario.

(** Calendar and text computations stay folded during simplification. *)
#[global] Arguments Browser.isoDate : simpl never.
#[global] Arguments Browser.parseDate : simpl never.
#[global] Arguments Utils.getTodayString : simpl never.
#[global] Arguments Utils.getNextMidnight : simpl never.
#[global] Arguments Utils.formatTime : simpl never.
#[global] Arguments Utils.extractSite : simpl never.
#[global] Arguments Utils.findMatchingSite : simpl never.
#[global] Arguments Background.storageKey : simpl never.
#[global] Arguments Background.isSystemUrl : simpl never.
#[global] Arguments Background.getSiteTimeLimit : simpl never.

(** * Properties *)

Import Types JsNumber Browser Utils Background.

(** ** Strings *)

Section StringFacts.

Lemma append_cons (c : ascii) (a b : string) :
  String c a +:+ b = String c (a +:+ b).
Proof. reflexivity. Qed.

Lemma string_length_append (a b : string) :
  String.length (a +:+ b) = (String.length a + String.length b)%nat.
Proof. induction a as [|c a IH]; simpl; [reflexivity | now rewrite IH]. Qed.

Lemma string_of_list_ascii_length (l : list ascii) :
  String.length (string_of_list_ascii l) = List.length l.
Proof. induction l as [|c l IH]; simpl; [reflexivity | now rewrite IH]. Qed.

(** [padStart] never cuts the text, and brings a shorter one to the
    width asked for, with zeros only in front of it. *)
Lemma padStart_spec (w : nat) (s : string) :
  String.length (JsString.padStart w s) = Nat.max w (String.length s)
  /\ exists zeros,
       JsString.padStart w s = string_of_list_ascii zeros +:+ s
       /\ List.Forall (fun c => c = "0"%char) zeros.
Proof.
  unfold JsString.padStart. split.
  - rewrite string_length_append, string_of_list_ascii_length, List.repeat_length. lia.
  - exists (List.repeat "0"%char (w - String.length s)). split; [reflexivity|].
    apply List.Forall_forall. intros c Hc. now apply List.repeat_spec in Hc.
Qed.

Lemma drop_append (a b : string) : JsString.drop (String.length a) (a +:+ b) = b.
Proof. induction a as [|c a IH]; simpl; auto. Qed.

Lemma drop_split (n : nat) (s : string) : exists pre, s = pre +:+ JsString.drop n s.
Proof.
  revert s. induction n as [|n IH]; intros s.
  - exists EmptyString. reflexivity.
  - destruct s as [|c s]; simpl.
    + exists EmptyString. reflexivity.
    + destruct (IH s) as [pre Hpre]. exists (String c pre).
      change (String c s = String c (pre +:+ JsString.drop n s)). now f_equal.
Qed.

Lemma endsWith_spec (s suffix : string) :
  JsString.endsWith s suffix = true <-> exists pre, s = pre +:+ suffix.
Proof.
  unfold JsString.endsWith. rewrite andb_true_iff, Nat.leb_le, String.eqb_eq. split.
  - intros [_ Hd]. destruct (drop_split (String.length s - String.length suffix) s) as [pre Hpre].
    exists pre. now rewrite Hd in Hpre.
  - intros [pre ->]. rewrite string_length_append. split; [lia|].
    replace (String.length pre + String.length suffix - String.length suffix)%nat
      with (String.length pre) by lia.
    apply drop_append.
Qed.

Lemma prefix_spec (p s : string) :
  String.prefix p s = true <-> exists rest, s = p +:+ rest.
Proof.
  revert s. induction p as [|c p IH]; intros s; simpl.
  - destruct s; simpl; split; eauto.
  - destruct s as [|c' s]; simpl.
    + split; [discriminate | intros [rest H]; rewrite append_cons in H; discriminate].
    + destruct (Ascii.ascii_dec c c') as [->|Hne].
      * rewrite IH. split; intros [rest H]; exists rest;
          rewrite append_cons in *; congruence.
      * split; [discriminate | intros [rest H]; rewrite append_cons in H; congruence].
Qed.

End StringFacts.

(** ** The site matcher *)

Section SiteMatcher.

Lemma has_keys (sites : list (string * SiteConfig)) (k : string) :
  JsMap.has sites k = true <-> In k (JsMap.keys sites).
Proof.
  unfold JsMap.has, JsMap.keys. induction sites as [|[k' v] rest IH]; simpl.
  - split; [discriminate | tauto].
  - destruct (String.eqb_spec k' k) as [->|Hne].
    + split; auto.
    + rewrite IH. split; [auto | intros [H|H]; [congruence | auto]].
Qed.

Lemma matcher_find (hostname : string) (keys : list string) (s : string) :
  List.find
    (fun site => JsString.endsWith hostname ("." +:+ site) || String.eqb hostname site)
    keys = Some s ->
  In s keys /\ (s = hostname \/ subdomainOf hostname s).
Proof.
  intros H. apply find_some in H as [Hin Hb]. split; [exact Hin|].
  apply orb_true_iff in Hb as [Hb|Hb].
  - right. now apply endsWith_spec in Hb.
  - left. symmetry. now apply String.eqb_eq.
Qed.

(** C8. [findMatchingSite] returns a site exactly when the hostname is
    not empty and either is a registered domain or ends with a dot
    followed by one; a registered hostname is returned itself (the
    exact match wins); any site returned is registered and is the
    hostname or a domain the hostname is a strict subdomain of; and
    "m.youtube.com" maps to "youtube.com", "notyoutube.com" and the
    empty hostname map to nothing. *)
Theorem findMatchingSite_spec (hostname : string) (sites : list (string * SiteConfig)) :
  (is_Some (findMatchingSite hostname sites) <->
     hostname <> "" /\
     (In hostname (JsMap.keys sites) \/
      exists domain, In domain (JsMap.keys sites) /\ subdomainOf hostname domain))
  /\ (hostname <> "" -> In hostname (JsMap.keys sites) ->
      findMatchingSite hostname sites = Some hostname)
  /\ (forall s, findMatchingSite hostname sites = Some s ->
      In s (JsMap.keys sites) /\ (s = hostname \/ subdomainOf hostname s))
  /\ (forall config,
      findMatchingSite "m.youtube.com" [("youtube.com", config)] = Some "youtube.com"
      /\ findMatchingSite "notyoutube.com" [("youtube.com", config)] = None)
  /\ findMatchingSite "" sites = None.
Proof.
  assert (Hexact : hostname <> "" -> In hostname (JsMap.keys sites) ->
                   findMatchingSite hostname sites = Some hostname).
  { intros Hne Hin. unfold findMatchingSite.
    destruct (String.eqb_spec hostname "") as [->|_]; [congruence|].
    apply has_keys in Hin. now rewrite Hin. }
  assert (Hsound : forall s, findMatchingSite hostname sites = Some s ->
                   In s (JsMap.keys sites) /\ (s = hostname \/ subdomainOf hostname s)).
  { intros s. unfold findMatchingSite.
    destruct (String.eqb_spec hostname "") as [->|_]; [discriminate|].
    destruct (JsMap.has sites hostname) eqn:Hhas.
    - intros [= <-]. split; [now apply has_keys | now left].
    - apply matcher_find. }
  split; [split | split; [exact Hexact | split; [exact Hsound | split]]].
  - intros [s Hs]. split.
    + unfold findMatchingSite in Hs.
      destruct (String.eqb_spec hostname ""); [discriminate | assumption].
    + destruct (Hsound s Hs) as [Hin [->|Hsub]]; eauto.
  - intros [Hne [Hin | [domain [Hin Hsub]]]].
    + rewrite Hexact by assumption. eauto.
    + unfold findMatchingSite.
      destruct (String.eqb_spec hostname "") as [->|_]; [congruence|].
      destruct (JsMap.has sites hostname); [eauto|].
      destruct (List.find _ (JsMap.keys sites)) eqn:Hfind; [eauto|].
      exfalso. eapply find_none in Hfind; [|exact Hin]. simpl in Hfind.
      apply orb_false_iff in Hfind as [Hends _].
      assert (JsString.endsWith hostname ("." +:+ domain) = true) as Ht
        by (apply endsWith_spec; exact Hsub).
      congruence.
  - intros config. split; reflexivity.
  - reflexivity.
Qed.

End SiteMatcher.

(** ** Patterns *)

Section RegexFacts.
Import Regex.

Lemma nullable_lang (r : re) : nullable r = true -> lang r EmptyString.
Proof.
  induction r; simpl; intros H; try discriminate.
  - constructor.
  - apply andb_true_iff in H as [H1 H2].
    change EmptyString with (EmptyString +:+ EmptyString). constructor; auto.
  - apply orb_true_iff in H as [H|H]; [apply L_AltL | apply L_AltR]; auto.
  - constructor.
  - constructor.
Qed.

Lemma deriv_lang (c : ascii) (r : re) :
  forall s, lang (deriv c r) s -> lang r (String c s).
Proof.
  induction r as [| |rs|r1 IH1 r2 IH2|r1 IH1 r2 IH2|n r1 IH1|r1 IH1];
    simpl; intros s H.
  - inversion H.
  - inversion H.
  - destruct (inClass rs c) eqn:Hc; inversion H; subst. now constructor.
  - assert (Hseq : forall t, lang (Seq (deriv c r1) r2) t -> lang (Seq r1 r2) (String c t)).
    { intros t Ht. inversion Ht; subst. rewrite <- append_cons. constructor; auto. }
    destruct (nullable r1) eqn:Hn; [|auto].
    inversion H; subst; [auto|].
    change (String c s) with (EmptyString +:+ String c s).
    constructor; [now apply nullable_lang | auto].
  - inversion H; subst; [apply L_AltL | apply L_AltR]; auto.
  - destruct n as [|n]; inversion H; subst.
    rewrite <- append_cons. constructor; auto.
  - inversion H; subst. rewrite <- append_cons. constructor; auto.
Qed.

Lemma test_lang (s : string) : forall r, test r s = true -> lang r s.
Proof.
  induction s as [|c s IH]; simpl; intros r H.
  - now apply nullable_lang.
  - apply deriv_lang. now apply IH.
Qed.

Lemma chars_append (a b : string) :
  list_ascii_of_string (a +:+ b) = list_ascii_of_string a ++ list_ascii_of_string b.
Proof. induction a as [|c a IH]; [reflexivity|]. rewrite append_cons. simpl. now rewrite IH. Qed.

Lemma lang_alphabet (r : re) (s : string) :
  lang r s -> forall c, In c (list_ascii_of_string s) -> alphabet r c = true.
Proof.
  induction 1 as [|rs c' Hc|r1 r2 s1 s2 _ IH1 _ IH2|r1 r2 s _ IH|r1 r2 s _ IH| |
                  n r s1 s2 _ IH1 _ IH2| |r s1 s2 _ IH1 _ IH2];
    intros c Hin; simpl in *;
    try rewrite chars_append in Hin; try apply in_app_or in Hin.
  - contradiction.
  - destruct Hin as [<-|[]]. exact Hc.
  - apply orb_true_iff. destruct Hin; auto.
  - apply orb_true_iff. auto.
  - apply orb_true_iff. auto.
  - contradiction.
  - destruct Hin; auto.
  - contradiction.
  - destruct Hin; auto.
Qed.

(** A string accepted by a pattern has only characters of the
    pattern's classes. *)
Lemma test_alphabet (r : re) (s : string) (c : ascii) :
  test r s = true -> In c (list_ascii_of_string s) -> alphabet r c = true.
Proof. intros Ht. apply lang_alphabet. now apply test_lang. Qed.

End RegexFacts.

(** ** Validation *)

Section Validation.

Lemma hostname_alphabet (c : ascii) :
  Regex.alphabet hostnameRegex c = true -> allowedChar c = true.
Proof.
  unfold hostnameRegex, labelRegex, allowedChar, Regex.Opt, Regex.inClass, alnum.
  simpl.
  repeat match goal with
         | |- context [Regex.inRange c ?rg] => destruct (Regex.inRange c rg)
         end; simpl; auto.
Qed.

(** What [validateDomain] returns, when it returns. *)
Lemma validateDomain_returns (domain result : string) :
  validateDomain domain = inr result ->
  result = JsString.toLowerCase (cleanDomainOf domain)
  /\ JsString.includes (cleanDomainOf domain) "." = true
  /\ Regex.test hostnameRegex (stripProtocol (cleanDomainOf domain)) = true.
Proof.
  unfold validateDomain. fold (cleanDomainOf domain).
  destruct (String.eqb domain ""); [discriminate|].
  destruct (String.eqb (cleanDomainOf domain) "") eqn:He; simpl; [discriminate|].
  destruct (JsString.includes (cleanDomainOf domain) ".") eqn:Hi; simpl; [|discriminate].
  unfold isValidUrl. rewrite He.
  destruct (Regex.test hostnameRegex _) eqn:Ht; simpl; [|discriminate].
  intros [= <-]. auto.
Qed.

(** A domain whose cleaned form has no dot is rejected. *)
Lemma validateDomain_without_dot (domain : string) :
  JsString.includes (cleanDomainOf domain) "." = false ->
  exists message, validateDomain domain = inl (MkValidationError message).
Proof.
  intros H. destruct (validateDomain domain) as [[message]|result] eqn:Hv; [eauto|].
  apply validateDomain_returns in Hv as (_ & Hi & _). congruence.
Qed.

(** A domain whose cleaned form has a character outside letters,
    digits, hyphen and dot is rejected, provided the cleaned form does
    not itself start with a protocol. *)
Lemma validateDomain_disallowed (domain : string) (c : ascii) :
  stripProtocol (cleanDomainOf domain) = cleanDomainOf domain ->
  In c (list_ascii_of_string (cleanDomainOf domain)) ->
  allowedChar c = false ->
  exists message, validateDomain domain = inl (MkValidationError message).
Proof.
  intros Hp Hin Hc. destruct (validateDomain domain) as [[message]|result] eqn:Hv; [eauto|].
  apply validateDomain_returns in Hv as (_ & _ & Ht). rewrite Hp in Ht.
  pose proof (hostname_alphabet c (test_alphabet _ _ _ Ht Hin)). congruence.
Qed.

(** C9 (the domain half, as the code has it).  The text
    "http://http://a.com" is accepted: one protocol prefix is removed by
    [validateDomain], the second one by [isValidUrl] before it tests
    the pattern, and the value returned, "http://a.com", contains the
    characters ":" and "/", which no host name may contain. *)
Theorem validateDomain_accepts_second_protocol :
  validateDomain "http://http://a.com" = inr "http://a.com"
  /\ cleanDomainOf "http://http://a.com" = "http://a.com"
  /\ In ":"%char (list_ascii_of_string "http://a.com")
  /\ allowedChar ":" = false
  /\ isValidUrl "http://a.com" = true.
Proof.
  split; [vm_compute; reflexivity|].
  split; [vm_compute; reflexivity|].
  split; [simpl; auto 10|].
  split; vm_compute; reflexivity.
Qed.

Lemma lt_num (a b : Q) : lt (Num a) (Num b) = true <-> (a < b)%Q.
Proof.
  unfold lt. rewrite Qlt_alt. destruct (Qcompare a b); split; congruence.
Qed.

Lemma ge_num (a b : Q) : ge (Num a) (Num b) = true <-> (b <= a)%Q.
Proof.
  unfold ge. rewrite Qle_alt.
  rewrite <- (Qcompare_antisym a b). destruct (Qcompare a b); simpl; split; congruence.
Qed.

Lemma Qfloor_range (q : Q) (a b : Z) :
  (inject_Z a <= q)%Q -> (q <= inject_Z b)%Q -> a <= Qfloor q <= b.
Proof.
  intros Ha Hb. split.
  - apply Qfloor_resp_le in Ha. now rewrite Qfloor_Z in Ha.
  - apply Qfloor_resp_le in Hb. now rewrite Qfloor_Z in Hb.
Qed.

(** X1. [validateTimeLimit] throws exactly when its argument is [NaN]
    or lies outside [1, 480]; otherwise it returns the floor of the
    argument, which again lies in [1, 480]: a value out of range is
    never moved into the range. *)
Lemma validateTimeLimit_spec (x : JsNum) :
  match x with
  | Num q =>
      ((1 <= q)%Q /\ (q <= 480)%Q ->
       validateTimeLimit x = inr (Num (inject_Z (Qfloor q)))
       /\ 1 <= Qfloor q <= 480)
      /\ (~ ((1 <= q)%Q /\ (q <= 480)%Q) ->
          validateTimeLimit x
          = inl (MkValidationError "Time limit must be between 1 and 480 minutes"))
  | NaN => validateTimeLimit x = inl (MkValidationError "Time limit must be a valid number")
  | _ => validateTimeLimit x
         = inl (MkValidationError "Time limit must be between 1 and 480 minutes")
  end.
Proof.
  destruct x as [| | |q]; try reflexivity.
  unfold validateTimeLimit, gt, ofZ. simpl isNaN. cbv iota. simpl floor.
  destruct (lt (Num q) (Num (inject_Z 1))) eqn:Hlo;
    [|destruct (lt (Num (inject_Z 480)) (Num q)) eqn:Hhi]; simpl.
  - apply lt_num in Hlo. split; [intros [H _] | reflexivity].
    exfalso. now apply (Qlt_not_le _ _ Hlo).
  - apply lt_num in Hhi. split; [intros [_ H] | reflexivity].
    exfalso. now apply (Qlt_not_le _ _ Hhi).
  - assert (H1 : (inject_Z 1 <= q)%Q).
    { apply Qnot_lt_le. intros H. apply lt_num in H. rewrite H in Hlo. discriminate. }
    assert (H2 : (q <= inject_Z 480)%Q).
    { apply Qnot_lt_le. intros H. apply lt_num in H. rewrite H in Hhi. discriminate. }
    split; [intros _ | intros Hn; exfalso; auto].
    split; [reflexivity | now apply Qfloor_range].
Qed.

End Validation.

(** ** Dates *)

Section Dates.

(** X2. [getNextMidnight] returns an instant after now, the first
    instant of the next local day: every instant from now up to it
    lies in the present local day.  The offset of local time from UTC
    is taken as fixed. *)
Lemma getNextMidnight_spec (e : Env) :
  now e < getNextMidnight e
  /\ localDay (atTime (getNextMidnight e) e) = localDay e + 1
  /\ forall t, now e <= t < getNextMidnight e -> localDay (atTime t e) = localDay e.
Proof.
  unfold getNextMidnight, localDay, atTime. cbn [now timezoneOffset].
  set (off := timezoneOffset e * 60000). set (x := now e - off).
  assert (HD : 0 < msPerDay) by reflexivity.
  pose proof (Z.mul_div_le x msPerDay HD) as Hlo.
  pose proof (Z.mul_succ_div_gt x msPerDay HD) as Hhi.
  split; [|split].
  - subst x. lia.
  - replace ((x / msPerDay + 1) * msPerDay + off - off) with ((x / msPerDay + 1) * msPerDay) by lia.
    now apply Z.div_mul.
  - intros t Ht. symmetry.
    apply Z.div_unique with (r := t - off - msPerDay * (x / msPerDay)); [|lia].
    left. subst x. lia.
Qed.

(** Where local time is UTC, the key date is the local day. *)
Lemma getTodayString_utc_zone (e : Env) :
  timezoneOffset e = 0 -> getTodayString e = localDateString e.
Proof.
  intros H. unfold getTodayString, localDateString, utcDay, localDay.
  rewrite H. do 2 f_equal. lia.
Qed.

(** West of Greenwich, during the last [timezoneOffset] minutes of every
    local day the UTC day, and with it the key date, is already the
    next one. *)
Lemma utc_day_ahead_of_local_day (e : Env) :
  0 < timezoneOffset e * 60000 <= msPerDay ->
  now e mod msPerDay < timezoneOffset e * 60000 ->
  localDay e = utcDay e - 1.
Proof.
  unfold localDay, utcDay. set (off := timezoneOffset e * 60000).
  intros Hoff Hr.
  assert (HD : 0 < msPerDay) by reflexivity.
  pose proof (Z.div_mod (now e) msPerDay ltac:(lia)) as Hdm.
  pose proof (Z.mod_pos_bound (now e) msPerDay HD) as Hb.
  symmetry.
  apply Z.div_unique with (r := now e mod msPerDay - off + msPerDay); lia.
Qed.

(** C6 (as the code has it).  At 2024-01-02T04:00:00Z in a zone eight
    hours behind UTC the local day is 2024-01-01 and the next local
    midnight, 2024-01-02T08:00:00Z, is four hours away, yet
    [getTodayString] already yields "2024-01-02": the key date is the
    UTC day, not the local one. *)
Theorem getTodayString_is_utc_day :
  let e := {| now := 1704168000000; timezoneOffset := 480;
              hostnameOf := fun _ => None |} in
  getTodayString e = "2024-01-02"
  /\ localDateString e = "2024-01-01"
  /\ getNextMidnight e = 1704182400000
  /\ now e < getNextMidnight e.
Proof. vm_compute. repeat split; reflexivity. Qed.

(** The date texts of [toISOString] in early and late years: four
    digits from year 0 to 9999, a sign and six digits outside. *)
Example isoDate_year_widths :
  JsString.padStart 4 "24" = "0024"
  /\ isoDate (-710762) = "0024-01-01"
  /\ isoDate (-719528) = "0000-01-01"
  /\ isoDate (-719529) = "-000001-12-31"
  /\ isoDate 2932896 = "9999-12-31"
  /\ isoDate 2932897 = "+010000-01-01"
  /\ getTodayString {| now := -61401369600000; timezoneOffset := 0;
                       hostnameOf := fun _ => None |} = "0024-04-08".
Proof. vm_compute. repeat split; reflexivity. Qed.

End Dates.

(** ** The session tracker *)

Section Tracker.

(** The first segment of [updateTimeSpent] touches only
    [sessionStartTime], the console and the pending calls. *)
Lemma updateTimeSpent_session_frame (e : Env) (tab : TabInfo) (start : Z) (w : World) :
  let w1 := updateTimeSpent_session e tab start w in
  storage w1 = storage w
  /\ intervals w1 = intervals w
  /\ nextInterval w1 = nextInterval w
  /\ sites (state w1) = sites (state w)
  /\ defaultTimeLimit (state w1) = defaultTimeLimit (state w)
  /\ warningThreshold (state w1) = warningThreshold (state w)
  /\ maxUpdateInterval (state w1) = maxUpdateInterval (state w)
  /\ activeTab (state w1) = activeTab (state w)
  /\ trackingInterval (state w1) = trackingInterval (state w)
  /\ pending w1
     = pending w ++ [UpdateTimeSpent_getTimeData (site tab) (now e) (now e - start)
                       (getTodayString e)]
  /\ (forall entry, In entry (console w) -> In entry (console w1)).
Proof.
  unfold updateTimeSpent_session.
  destruct (now e - start >? maxUpdateInterval (state w)); cbn; repeat split; auto.
Qed.

Lemma flushSession_frame (e : Env) (w : World) :
  let w1 := flushSession e w in
  storage w1 = storage w
  /\ intervals w1 = intervals w
  /\ nextInterval w1 = nextInterval w
  /\ sites (state w1) = sites (state w)
  /\ defaultTimeLimit (state w1) = defaultTimeLimit (state w)
  /\ warningThreshold (state w1) = warningThreshold (state w)
  /\ maxUpdateInterval (state w1) = maxUpdateInterval (state w)
  /\ activeTab (state w1) = activeTab (state w)
  /\ trackingInterval (state w1) = trackingInterval (state w).
Proof.
  unfold flushSession.
  destruct (activeTab (state w)) as [tab|] eqn:Ha; [|repeat split; auto].
  destruct (sessionStartTime (state w)) as [start|]; [|repeat split; auto].
  destruct (negb (start =? 0)); [|repeat split; auto].
  pose proof (updateTimeSpent_session_frame e tab start w) as H. cbv zeta in H.
  destruct H as (? & ? & ? & ? & ? & ? & ? & ? & ? & _).
  repeat split; congruence.
Qed.

Lemma clearSession_frame (w : World) :
  let w1 := clearSession w in
  storage w1 = storage w
  /\ nextInterval w1 = nextInterval w
  /\ pending w1 = pending w
  /\ console w1 = console w
  /\ sites (state w1) = sites (state w)
  /\ defaultTimeLimit (state w1) = defaultTimeLimit (state w)
  /\ warningThreshold (state w1) = warningThreshold (state w)
  /\ maxUpdateInterval (state w1) = maxUpdateInterval (state w)
  /\ activeTab (state w1) = None
  /\ sessionStartTime (state w1) = None
  /\ trackingInterval (state w1) = None
  /\ intervals w1
     = match trackingInterval (state w) with
       | Some id => List.filter (fun i => negb (Pos.eqb i id)) (intervals w)
       | None => intervals w
       end.
Proof.
  unfold clearSession. cbn [state withState setActiveTab setSessionStartTime trackingInterval].
  destruct (trackingInterval (state w)) eqn:Ht; cbn; repeat split; auto.
Qed.

(** After [stopTracking] the session fields are cleared. *)
Lemma stopTracking_clears (e : Env) (w : World) :
  activeTab (state (stopTracking e w)) = None
  /\ sessionStartTime (state (stopTracking e w)) = None
  /\ trackingInterval (state (stopTracking e w)) = None.
Proof.
  unfold stopTracking.
  destruct (clearSession_frame (flushSession e w)) as (_ & _ & _ & _ & _ & _ & _ & _ & H).
  destruct H as (? & ? & ? & _). auto.
Qed.

(** [stopTracking] touches neither the store nor the registry, and
    cancels the timer named by [trackingInterval]. *)
Lemma stopTracking_frame (e : Env) (w : World) :
  storage (stopTracking e w) = storage w
  /\ sites (state (stopTracking e w)) = sites (state w)
  /\ defaultTimeLimit (state (stopTracking e w)) = defaultTimeLimit (state w)
  /\ nextInterval (stopTracking e w) = nextInterval w
  /\ intervals (stopTracking e w)
     = match trackingInterval (state w) with
       | Some id => List.filter (fun i => negb (Pos.eqb i id)) (intervals w)
       | None => intervals w
       end.
Proof.
  unfold stopTracking.
  destruct (clearSession_frame (flushSession e w))
    as (Hs & Hn & _ & _ & Hsi & Hd & _ & _ & _ & _ & _ & Hi).
  destruct (flushSession_frame e w) as (Fs & Fi & Fn & Fsi & Fd & _ & _ & _ & Ft).
  rewrite Hs, Hn, Hsi, Hd, Hi, Fs, Fi, Fn, Fsi, Fd, Ft. auto.
Qed.

(** Without an active session [stopTracking] starts no flush. *)
Lemma stopTracking_no_session (e : Env) (w : World) :
  sessionActive (state w) = false ->
  pending (stopTracking e w) = pending w /\ console (stopTracking e w) = console w.
Proof.
  intros H. unfold stopTracking.
  destruct (clearSession_frame (flushSession e w)) as (_ & _ & Hp & Hc & _).
  rewrite Hp, Hc. unfold flushSession. unfold sessionActive, truthy in H.
  destruct (activeTab (state w)); [|auto].
  destruct (sessionStartTime (state w)) as [start|]; [|auto].
  rewrite H. auto.
Qed.

(** With an active session [stopTracking] starts exactly one flush, the
    read of the ledger entry of the session's site. *)
Lemma stopTracking_session (e : Env) (w : World) (tab : TabInfo) (start : Z) :
  activeTab (state w) = Some tab ->
  sessionStartTime (state w) = Some start ->
  start <> 0 ->
  pending (stopTracking e w)
  = pending w ++ [UpdateTimeSpent_getTimeData (site tab) (now e) (now e - start)
                    (getTodayString e)].
Proof.
  intros Ha Hs Hne. unfold stopTracking.
  destruct (clearSession_frame (flushSession e w)) as (_ & _ & Hp & _).
  rewrite Hp. unfold flushSession. rewrite Ha, Hs.
  apply Z.eqb_neq in Hne. rewrite Hne. cbn [negb].
  now destruct (updateTimeSpent_session_frame e tab start w)
    as (_ & _ & _ & _ & _ & _ & _ & _ & _ & H & _).
Qed.

Lemma clearSession_idle (w : World) :
  activeTab (state w) = None ->
  sessionStartTime (state w) = None ->
  trackingInterval (state w) = None ->
  clearSession w = w.
Proof.
  destruct w as [s st iv nx pd cs]. destruct s as [si dl wt at' ss ti mu lu].
  cbn. intros -> -> ->. reflexivity.
Qed.

(** With the session fields empty [stopTracking] does nothing. *)
Lemma stopTracking_idle (e : Env) (w : World) :
  activeTab (state w) = None ->
  sessionStartTime (state w) = None ->
  trackingInterval (state w) = None ->
  stopTracking e w = w.
Proof.
  intros Ha Hs Ht. unfold stopTracking, flushSession. rewrite Ha.
  now apply clearSession_idle.
Qed.

Lemma stopTracking_twice (e1 e2 : Env) (w : World) :
  stopTracking e2 (stopTracking e1 w) = stopTracking e1 w.
Proof.
  destruct (stopTracking_clears e1 w) as (Ha & Hs & Ht). now apply stopTracking_idle.
Qed.


(** The call of [updateTimeSpent] inside [stopTracking] is the method
    itself: under the guard of line 233 the two agree. *)
Lemma flushSession_unfold (e : Env) (w : World) :
  flushSession e w = if sessionActive (state w) then updateTimeSpent e w else w.
Proof.
  unfold sessionActive, truthy, flushSession, updateTimeSpent.
  destruct (activeTab (state w)); [|reflexivity].
  destruct (sessionStartTime (state w)) as [start|]; [|reflexivity].
  destruct (negb (start =? 0)); reflexivity.
Qed.

(** C10. When [updateTimeSpent] is entered with [activeTab] or
    [sessionStartTime] empty, nothing is written and nothing is
    requested from the browser: store, pending calls and console are
    unchanged; the three session fields are empty afterwards, and the
    timer that [trackingInterval] named is no longer set. *)
Theorem updateTimeSpent_without_session (e : Env) (w : World) :
  activeTab (state w) = None \/ sessionStartTime (state w) = None ->
  let w' := updateTimeSpent e w in
  storage w' = storage w
  /\ pending w' = pending w
  /\ console w' = console w
  /\ activeTab (state w') = None
  /\ sessionStartTime (state w') = None
  /\ trackingInterval (state w') = None
  /\ (forall id, trackingInterval (state w) = Some id -> ~ In id (intervals w'))
  /\ (trackingInterval (state w) = None -> intervals w' = intervals w).
Proof.
  intros Hnull w'.
  assert (Hinactive : sessionActive (state w) = false).
  { unfold sessionActive. destruct Hnull as [-> | ->]; [reflexivity|].
    now destruct (activeTab (state w)). }
  assert (Hstop : w' = stopTracking e w).
  { subst w'. unfold updateTimeSpent.
    destruct Hnull as [-> | H]; [reflexivity|]. rewrite H.
    now destruct (activeTab (state w)). }
  rewrite Hstop.
  destruct (stopTracking_clears e w) as (Ha & Hs & Ht).
  destruct (stopTracking_frame e w) as (Hst & _ & _ & _ & Hi).
  destruct (stopTracking_no_session e w Hinactive) as (Hp & Hc).
  repeat (split; [assumption|]). split.
  - intros id Hid. rewrite Hi, Hid. intros Hin.
    apply filter_In in Hin as [_ Hin]. rewrite Pos.eqb_refl in Hin. discriminate.
  - intros Hnone. now rewrite Hi, Hnone.
Qed.

End Tracker.

(** ** Thresholds *)

Section Thresholds.

Lemma divZ_ge_one (a b : Z) : 0 < b -> (ge (divZ a b) (ofZ 1) = true <-> b <= a).
Proof.
  intros Hb. unfold divZ, ofZ. destruct (Z.eqb_spec b 0) as [->|_]; [lia|].
  rewrite ge_num. destruct b as [|p|p]; try lia.
  unfold Qle, Qdiv, Qmult, Qinv, inject_Z. simpl. lia.
Qed.

Lemma divZ_ge_warning (a b : Z) :
  0 < b ->
  (ge (divZ a b) (Num WARNING_THRESHOLD) = true
   <-> (WARNING_THRESHOLD * inject_Z b <= inject_Z a)%Q).
Proof.
  intros Hb. unfold divZ, WARNING_THRESHOLD. destruct (Z.eqb_spec b 0) as [->|_]; [lia|].
  rewrite ge_num. destruct b as [|p|p]; try lia.
  unfold Qle, Qdiv, Qmult, Qinv, inject_Z. simpl. lia.
Qed.

Lemma pending_suspend_ne (p : Pending) (w : World) : suspend p w <> w.
Proof.
  intros H. apply (f_equal pending) in H. simpl in H.
  apply (f_equal (@length _)) in H. rewrite length_app in H. simpl in H. lia.
Qed.

Lemma suspend_inj (p q : Pending) (w : World) : suspend p w = suspend q w -> p = q.
Proof.
  intros H. apply (f_equal pending) in H. simpl in H.
  apply app_inv_head in H. congruence.
Qed.

(** For every limit from 1 to 480 minutes, at and next to both
    thresholds, the comparisons on doubles come out as those on the
    exact quotient. *)
Lemma doubles_agree_at_boundaries :
  forallb
    (fun m =>
       forallb
         (fun t =>
            let '(b1, w1) := JsFloat.thresholdTests t (m * 60 * 1000) in
            let '(b2, w2) := thresholdTests t (m * 60 * 1000) in
            Bool.eqb b1 b2 && Bool.eqb w1 w2)
         (boundaryTimes m))
    (map (fun i => Z.of_nat (S i)) (seq 0 480))
  = true.
Proof. vm_compute. reflexivity. Qed.

(** C3. With a session on tab [tab], a limit above zero and the
    warning threshold of 0.8: the check requests the block navigation
    of the tab exactly when the time spent has reached the limit; it
    sends the warning message, carrying the remaining time
    [limit - timeSpent], exactly when the time spent is at least 0.8 of
    the limit and below the limit; and it does nothing exactly in the
    remaining case. *)
Theorem checkTimeThresholds_classifies
    (w : World) (site : string) (tab : TabInfo) (timeSpent : Z) :
  activeTab (state w) = Some tab ->
  warningThreshold (state w) = WARNING_THRESHOLD ->
  0 < getSiteTimeLimit (state w) site ->
  0 <= timeSpent ->
  let limit := getSiteTimeLimit (state w) site in
  let w' := checkTimeThresholds site timeSpent w in
  let warning :=
    {| action := "showWarning";
       message := "Warning: You have " +:+ formatTime (limit - timeSpent)
                  +:+ " left on " +:+ site +:+ " today.";
       remainingTime := limit - timeSpent |} in
  (limit <= timeSpent <-> w' = blockSite (tabId tab) site w)
  /\ ((WARNING_THRESHOLD * inject_Z limit <= inject_Z timeSpent)%Q /\ timeSpent < limit
      <-> w' = suspend (ShowWarning_sendMessage (tabId tab) warning) w)
  /\ (~ limit <= timeSpent
      /\ ~ ((WARNING_THRESHOLD * inject_Z limit <= inject_Z timeSpent)%Q
            /\ timeSpent < limit)
      <-> w' = w).
Proof.
  intros Htab Hthr Hpos _ limit w' warning. subst w'.
  unfold checkTimeThresholds. fold limit. rewrite Htab, Hthr.
  pose proof (divZ_ge_one timeSpent limit Hpos) as H1.
  pose proof (divZ_ge_warning timeSpent limit Hpos) as H2.
  unfold showWarning. rewrite Htab. fold warning. unfold blockSite.
  destruct (ge (divZ timeSpent limit) (ofZ 1)) eqn:Hb.
  - assert (Hle : limit <= timeSpent) by (now apply H1).
    split; [tauto|]. split; split.
    + intros [_ Hlt]. lia.
    + intros H. apply suspend_inj in H. discriminate.
    + intros [Hn _]. contradiction.
    + intros H. now apply pending_suspend_ne in H.
  - assert (Hlt : ~ limit <= timeSpent) by (intros H; apply H1 in H; discriminate).
    destruct (ge (divZ timeSpent limit) (Num WARNING_THRESHOLD)) eqn:Hw.
    + assert (Hq : (WARNING_THRESHOLD * inject_Z limit <= inject_Z timeSpent)%Q)
        by (now apply H2).
      split; [|split]; split; try tauto.
      * intros H. apply suspend_inj in H. discriminate.
      * intros _. split; [assumption | lia].
      * intros [_ Hn]. exfalso. apply Hn. split; [assumption | lia].
      * intros H. now apply pending_suspend_ne in H.
    + assert (Hq : ~ (WARNING_THRESHOLD * inject_Z limit <= inject_Z timeSpent)%Q)
        by (intros H; apply H2 in H; discriminate).
      split; [|split]; split; try tauto.
      * intros H. symmetry in H. now apply pending_suspend_ne in H.
      * intros H. symmetry in H. now apply pending_suspend_ne in H.
Qed.

End Thresholds.

(** ** Ticks *)

Section Ticks.

(** Completing the call a method has just been suspended at runs the
    rest of that method. *)
Lemma completeLast_suspend (r : Response) (e : Env) (p : Pending) (w : World) :
  completeLast r e (suspend p w) = resume p r e w.
Proof.
  unfold completeLast, handle, suspend, withPending. cbn [pending].
  rewrite length_app, Nat.add_1_r. cbn [Nat.pred length].
  rewrite list_lookup_middle by reflexivity.
  replace (delete (length (pending w)) (pending w ++ [p])) with (pending w).
  - now destruct w.
  - rewrite (delete_middle (pending w) [] p). now rewrite app_nil_r.
Qed.

(** The first segment of a tick with a session: the start time is
    pulled forward if the gap exceeds [maxUpdateInterval], and the read
    of the ledger entry is requested. *)
Lemma updateTimeSpent_tracking (e : Env) (w : World) (tab : TabInfo) (start : Z) :
  activeTab (state w) = Some tab ->
  sessionStartTime (state w) = Some start ->
  start <> 0 ->
  exists w1,
    updateTimeSpent e w
    = suspend (UpdateTimeSpent_getTimeData (site tab) (now e) (now e - start)
                 (getTodayString e)) w1
    /\ storage w1 = storage w
    /\ pending w1 = pending w
    /\ intervals w1 = intervals w
    /\ activeTab (state w1) = Some tab
    /\ trackingInterval (state w1) = trackingInterval (state w)
    /\ maxUpdateInterval (state w1) = maxUpdateInterval (state w)
    /\ warningThreshold (state w1) = warningThreshold (state w)
    /\ sites (state w1) = sites (state w)
    /\ defaultTimeLimit (state w1) = defaultTimeLimit (state w)
    /\ (forall entry, In entry (console w) -> In entry (console w1)).
Proof.
  intros Ha Hs Hne. unfold updateTimeSpent, updateTimeSpent_session.
  rewrite Ha, Hs. apply Z.eqb_neq in Hne. rewrite Hne. cbn [negb].
  destruct (now e - start >? maxUpdateInterval (state w)).
  - eexists. split; [reflexivity|]. cbn. repeat split; auto.
  - exists w. repeat split; auto.
Qed.

(** The threshold check only adds requests. *)
Lemma checkTimeThresholds_frame (site : string) (t : Z) (w : World) :
  state (checkTimeThresholds site t w) = state w
  /\ storage (checkTimeThresholds site t w) = storage w
  /\ intervals (checkTimeThresholds site t w) = intervals w
  /\ console (checkTimeThresholds site t w) = console w.
Proof.
  unfold checkTimeThresholds, blockSite, showWarning.
  repeat match goal with
         | |- context [match ?x with _ => _ end] => destruct x
         end; cbn; auto.
Qed.

Lemma checkTimeThresholds_next (site : string) (t : Z) (w : World) :
  nextInterval (checkTimeThresholds site t w) = nextInterval w.
Proof.
  unfold checkTimeThresholds, blockSite, showWarning.
  repeat match goal with
         | |- context [match ?x with _ => _ end] => destruct x
         end; reflexivity.
Qed.

(** The second segment of a tick: the total is read (as zero after a
    failed read) and the write of the new total is requested. *)
Lemma resume_update_read (site : string) (now sessionTime : Z) (today : string)
    (r : Response) (e : Env) (w : World) :
  let base :=
    if isRejected r then 0
    else match storage w !! storageKey site today with
         | Some stored => timeSpent stored
         | None => 0
         end in
  let total := base + Z.min sessionTime (maxUpdateInterval (state w)) in
  exists w2,
    resume (UpdateTimeSpent_getTimeData site now sessionTime today) r e w
    = suspend (UpdateTimeSpent_setTimeData site now total
                 {| timeSpent := total; date := getTodayString e; lastUpdate := now |}) w2
    /\ state w2 = state w
    /\ storage w2 = storage w
    /\ intervals w2 = intervals w
    /\ (forall entry, In entry (console w) -> In entry (console w2))
    /\ (forall error, r = Rejected error ->
          In (ConsoleError "Error getting time data:" error) (console w2))
    /\ nextInterval w2 = nextInterval w.
Proof.
  cbn [resume]. unfold getTimeData_resume.
  destruct r as [|error|t]; cbn [isRejected].
  - exists w. destruct (storage w !! storageKey site today);
      cbn [timeSpent]; repeat split; auto; discriminate.
  - exists (log (ConsoleError "Error getting time data:" error) w).
    cbn [timeSpent state log storage intervals console nextInterval].
    repeat split; auto.
    + intros entry H. now right.
    + intros error' [= <-]. now left.
  - exists w. destruct (storage w !! storageKey site today);
      cbn [timeSpent]; repeat split; auto; discriminate.
Qed.

(** The third segment of a tick: the write takes effect unless it
    failed, the start time becomes the [now] of the tick, and the
    thresholds are checked. *)
Lemma resume_update_write (site : string) (now total : Z) (data : TimeData)
    (r : Response) (e : Env) (w : World) :
  let w' := resume (UpdateTimeSpent_setTimeData site now total data) r e w in
  storage w'
  = (if isRejected r then storage w
     else <[storageKey site (date data) := data]> (storage w))
  /\ sessionStartTime (state w') = Some now
  /\ activeTab (state w') = activeTab (state w)
  /\ trackingInterval (state w') = trackingInterval (state w)
  /\ maxUpdateInterval (state w') = maxUpdateInterval (state w)
  /\ intervals w' = intervals w
  /\ (forall entry, In entry (console w) -> In entry (console w'))
  /\ (forall error, r = Rejected error ->
        In (ConsoleError "Error setting time data:" error) (console w')).
Proof.
  cbn [resume].
  match goal with
  | |- context [checkTimeThresholds ?s ?t ?v] =>
      destruct (checkTimeThresholds_frame s t v) as (Es & Em & Ei & Ec);
      rewrite Es, Em, Ei, Ec
  end.
  destruct r as [|error|t]; cbn; repeat split; auto; try discriminate.
  intros error' [= <-]. now left.
Qed.

(** What one tick does to the ledger and the tracker, whatever the
    outcome of its two storage calls. *)
Lemma tick_effect (e1 e2 e3 : Env) (r1 r2 : Response) (w : World)
    (tab : TabInfo) (start : Z) :
  activeTab (state w) = Some tab ->
  sessionStartTime (state w) = Some start ->
  start <> 0 ->
  let w' := tick e1 e2 e3 r1 r2 w in
  let key := storageKey (site tab) (getTodayString e2) in
  let base :=
    if isRejected r1 then 0 else spent w (site tab) (getTodayString e1) in
  let credit := Z.min (now e1 - start) (maxUpdateInterval (state w)) in
  storage w'
  = (if isRejected r2 then storage w
     else <[key := {| timeSpent := base + credit; date := getTodayString e2;
                      lastUpdate := now e1 |}]> (storage w))
  /\ activeTab (state w') = Some tab
  /\ sessionStartTime (state w') = Some (now e1)
  /\ trackingInterval (state w') = trackingInterval (state w)
  /\ intervals w' = intervals w
  /\ maxUpdateInterval (state w') = maxUpdateInterval (state w)
  /\ (forall error, r1 = Rejected error ->
        In (ConsoleError "Error getting time data:" error) (console w'))
  /\ (forall error, r2 = Rejected error ->
        In (ConsoleError "Error setting time data:" error) (console w')).
Proof.
  intros Ha Hs Hne w' key base credit. subst w'. unfold tick.
  destruct (updateTimeSpent_tracking e1 w tab start Ha Hs Hne)
    as (w1 & -> & Hst & _ & Hi & Ha1 & Ht1 & Hm1 & _ & _ & _ & _).
  rewrite completeLast_suspend.
  destruct (resume_update_read (site tab) (now e1) (now e1 - start) (getTodayString e1)
              r1 e2 w1) as (w2 & -> & Hs2 & Hst2 & Hi2 & Hc2 & He2 & _).
  rewrite completeLast_suspend.
  match goal with
  | |- context [resume ?p r2 e3 w2] =>
      pose proof (resume_update_write (site tab) (now e1)
                    ((if isRejected r1 then 0
                      else match storage w1 !! storageKey (site tab) (getTodayString e1) with
                           | Some stored => timeSpent stored
                           | None => 0
                           end)
                     + Z.min (now e1 - start) (maxUpdateInterval (state w1)))
                    {| timeSpent :=
                         (if isRejected r1 then 0
                          else match storage w1 !! storageKey (site tab) (getTodayString e1) with
                               | Some stored => timeSpent stored
                               | None => 0
                               end)
                         + Z.min (now e1 - start) (maxUpdateInterval (state w1));
                       date := getTodayString e2; lastUpdate := now e1 |}
                    r2 e3 w2) as H
  end.
  cbv zeta in H. cbn [date] in H.
  match type of H with
  | context [resume ?p r2 e3 w2] => set (w3 := resume p r2 e3 w2) in *
  end.
  clearbody w3.
  destruct H as (Ws & Wt & Wa & Wi & Wm & Wv & Wc & We).
  rewrite Ws, Wt, Wa, Wi, Wm, Wv, Hs2, Hst2, Hi2, Hst, Hi, Ha1, Ht1, Hm1.
  subst key base credit. unfold spent.
  do 6 (split; [reflexivity|]).
  split; [intros error Hr; apply Wc, He2, Hr | exact We].
Qed.

End Ticks.

Section TickClaims.

(** A tick that runs on its own, from the firing of the timer to the
    completion of its write, with no other event in between, whose read
    and write of the store succeed and whose read is answered on the
    UTC day on which the tick started: the ledger entry of the site for
    that day grows by [min (now - start) 5000] and nothing else in the
    store changes; so a gap of ten days adds 5000 ms, and no tick adds
    more; afterwards [sessionStartTime] is the [now] of the tick, so
    that the next such tick credits only the time since this one.
    Without these conditions the credit can be counted twice or carried
    to another day, as the runs among the situations below show. *)
Theorem tick_credits_clamped_elapsed
    (e1 e2 e3 : Env) (w : World) (tab : TabInfo) (start : Z) :
  activeTab (state w) = Some tab ->
  sessionStartTime (state w) = Some start ->
  start <> 0 ->
  maxUpdateInterval (state w) = MAX_UPDATE_INTERVAL ->
  getTodayString e2 = getTodayString e1 ->
  let today := getTodayString e1 in
  let w' := tick e1 e2 e3 Fulfilled Fulfilled w in
  spent w' (site tab) today
    = spent w (site tab) today + Z.min (now e1 - start) 5000
  /\ (now e1 - start = 10 * msPerDay ->
      spent w' (site tab) today = spent w (site tab) today + 5000)
  /\ spent w' (site tab) today - spent w (site tab) today <= 5000
  /\ (forall key, key <> storageKey (site tab) today ->
        storage w' !! key = storage w !! key)
  /\ sessionStartTime (state w') = Some (now e1)
  /\ (forall e4 e5 e6,
        now e1 <> 0 ->
        getTodayString e4 = today -> getTodayString e5 = today ->
        spent (tick e4 e5 e6 Fulfilled Fulfilled w') (site tab) today
        = spent w' (site tab) today + Z.min (now e4 - now e1) 5000).
Proof.
  intros Ha Hs Hne Hmax Hday today w'.
  destruct (tick_effect e1 e2 e3 Fulfilled Fulfilled w tab start Ha Hs Hne)
    as (Hst & Ha' & Hs' & _ & _ & Hm' & _). fold w' in Hst, Ha', Hs', Hm'.
  cbn [isRejected] in Hst. rewrite Hmax, Hday in Hst. fold today in Hst.
  change MAX_UPDATE_INTERVAL with 5000 in Hst.
  assert (Hcredit : spent w' (site tab) today
                    = spent w (site tab) today + Z.min (now e1 - start) 5000).
  { unfold spent at 1. rewrite Hst. now rewrite lookup_insert_eq. }
  split; [exact Hcredit|]. split; [|split; [|split; [|split]]].
  - intros Hgap. rewrite Hcredit, Hgap. reflexivity.
  - rewrite Hcredit. lia.
  - intros key Hkey. rewrite Hst. now rewrite lookup_insert_ne.
  - exact Hs'.
  - intros e4 e5 e6 Hnow H4 H5.
    destruct (tick_effect e4 e5 e6 Fulfilled Fulfilled w' tab (now e1) Ha' Hs' Hnow)
      as (Hst2 & _).
    cbn [isRejected] in Hst2. rewrite Hm', Hmax, H4, H5 in Hst2.
    unfold spent at 1. rewrite Hst2. now rewrite lookup_insert_eq.
Qed.

(** C5 (as the code has it).  A tick one of whose storage calls fails
    logs the error and the method still runs to its end; the tracker
    is not stopped: the session's tab and timer are as before and
    [sessionStartTime] is the [now] of the tick.  After a failed write
    the store is unchanged (the tick's time is dropped); after a failed
    read and a successful write the entry is overwritten with the
    tick's own credit, the total read as zero. *)
Theorem tick_failure_keeps_tracking
    (e1 e2 e3 : Env) (r1 r2 : Response) (w : World) (tab : TabInfo) (start : Z) :
  activeTab (state w) = Some tab ->
  sessionStartTime (state w) = Some start ->
  start <> 0 ->
  isRejected r1 || isRejected r2 = true ->
  let w' := tick e1 e2 e3 r1 r2 w in
  (exists label error, In (ConsoleError label error) (console w'))
  /\ activeTab (state w') = Some tab
  /\ sessionStartTime (state w') = Some (now e1)
  /\ trackingInterval (state w') = trackingInterval (state w)
  /\ intervals w' = intervals w
  /\ (isRejected r2 = true -> storage w' = storage w)
  /\ (isRejected r1 = true -> isRejected r2 = false ->
      spent w' (site tab) (getTodayString e2)
      = Z.min (now e1 - start) (maxUpdateInterval (state w))).
Proof.
  intros Ha Hs Hne Hrej w'.
  destruct (tick_effect e1 e2 e3 r1 r2 w tab start Ha Hs Hne)
    as (Hst & Ha' & Hs' & Ht' & Hi' & _ & Hc1 & Hc2). fold w' in Hst, Ha', Hs', Ht', Hi', Hc1, Hc2.
  split; [|repeat (split; [assumption|]); split].
  - destruct r1 as [|error1|t1]; [|eauto|]; destruct r2 as [|error2|t2];
      try discriminate; eauto.
  - intros H2. now rewrite H2 in Hst.
  - intros H1 H2. rewrite H1, H2 in Hst. unfold spent. rewrite Hst.
    rewrite lookup_insert_eq. cbn. lia.
Qed.

End TickClaims.

(** ** Focus events *)

Section Focus.

(** Whatever else has happened since the handler started: when the read
    of the store succeeds and finds the site exhausted, the handler
    requests the block navigation and changes nothing else. *)
Lemma read_exhausted_blocks (e : Env) (tabId : Z) (matchedSite : string) (w : World) :
  exhausted w matchedSite (getTodayString e) ->
  resume (HandleTabChange_getTimeData tabId matchedSite (getTodayString e)) Fulfilled e w
  = blockSite tabId matchedSite w.
Proof.
  intros (entry & Hentry & Hlimit). cbn [resume getTimeData_resume]. rewrite Hentry.
  destruct (Z.geb_spec (timeSpent entry) (getSiteTimeLimit (state w) matchedSite));
    [reflexivity | lia].
Qed.

(** A focus event on a page of an exhausted site stops the previous
    session and requests the block navigation; it starts nothing. *)
Lemma focus_exhausted (e1 e2 e3 : Env) (tabId : Z) (tab : Tab) (w : World)
    (matchedSite : string) :
  resolvesTo e2 tab (state w) matchedSite ->
  exhausted w matchedSite (getTodayString e2) ->
  focus e1 e2 e3 tabId tab Fulfilled w = blockSite tabId matchedSite (stopTracking e1 w).
Proof.
  intros (u & hostname & siteConfig & Hu & Hne & Hsys & Hh & Hm & Hms & Hg & Hen)
         (entry & Hentry & Hlimit).
  destruct (stopTracking_frame e1 w) as (Hst & Hsites & Hdef & _ & _).
  unfold focus, handleTabChange.
  rewrite completeLast_suspend. cbn [resume]. rewrite Hu.
  apply String.eqb_neq in Hne. rewrite Hne, Hsys. cbn [orb]. rewrite Hh.
  apply String.eqb_neq in Hms. rewrite Hsites, Hm, Hms, Hg, Hen.
  rewrite completeLast_suspend. cbn [resume getTimeData_resume].
  rewrite Hst, Hentry.
  replace (getSiteTimeLimit (state (stopTracking e1 w)) matchedSite)
    with (getSiteTimeLimit (state w) matchedSite)
    by (unfold getSiteTimeLimit; now rewrite Hsites, Hdef).
  destruct (Z.geb_spec (timeSpent entry) (getSiteTimeLimit (state w) matchedSite));
    [reflexivity | lia].
Qed.

(** The registry, the limits and the store are the same after such an
    event, so the site stays exhausted and still resolves. *)
Lemma focus_exhausted_keeps (e1 : Env) (tabId : Z) (w : World) (matchedSite : string)
    (e : Env) (tab : Tab) (date : string) :
  let w' := blockSite tabId matchedSite (stopTracking e1 w) in
  (resolvesTo e tab (state w) matchedSite -> resolvesTo e tab (state w') matchedSite)
  /\ (exhausted w matchedSite date -> exhausted w' matchedSite date).
Proof.
  intros w'. destruct (stopTracking_frame e1 w) as (Hst & Hsites & Hdef & _ & _).
  assert (Hs : sites (state w') = sites (state w)) by exact Hsites.
  assert (Hd : defaultTimeLimit (state w') = defaultTimeLimit (state w)) by exact Hdef.
  assert (Hm : storage w' = storage w) by exact Hst.
  split.
  - intros (u & hostname & siteConfig & H). exists u, hostname, siteConfig.
    now rewrite Hs.
  - intros (entry & Hentry & Hlimit). exists entry. rewrite Hm. split; [assumption|].
    unfold getSiteTimeLimit. now rewrite Hs, Hd.
Qed.

Lemma focusAll_exhausted (evs : list FocusEvent) (matchedSite : string) (w : World) :
  Forall (fun ev => resolvesTo (atTab ev) (tabFound ev) (state w) matchedSite
                    /\ exhausted w matchedSite (getTodayString (atTab ev))) evs ->
  activeTab (state w) = None ->
  sessionStartTime (state w) = None ->
  trackingInterval (state w) = None ->
  focusAll evs w = w.
Proof.
  intros Hall Ha Hs Ht. induction Hall as [|ev evs [Hres Hex] _ IH]; [reflexivity|].
  unfold focusAll. cbn [fold_left].
  rewrite (focus_exhausted _ _ _ _ _ _ matchedSite Hres Hex).
  unfold blockSite. rewrite completeLast_suspend. cbn [resume].
  rewrite stopTracking_twice, (stopTracking_idle _ _ Ha Hs Ht). exact IH.
Qed.

Lemma geb_lt (a b : Z) : a < b -> (a >=? b) = false.
Proof. intros H. rewrite Z.geb_leb. now apply Z.leb_gt. Qed.

Lemma startTracking_effect (e : Env) (site : string) (tabId : Z) (w : World) :
  let w0 := stopTracking e w in
  let w' := startTracking e site tabId w in
  activeTab (state w') = Some {| site := site; tabId := tabId |}
  /\ sessionStartTime (state w') = Some (now e)
  /\ lastUpdateTime (state w') = now e
  /\ trackingInterval (state w') = Some (nextInterval w0)
  /\ intervals w' = nextInterval w0 :: intervals w0
  /\ nextInterval w' = Pos.succ (nextInterval w0)
  /\ storage w' = storage w0
  /\ pending w' = pending w0
  /\ console w' = console w0.
Proof.
  intros w0 w'. subst w'. unfold startTracking. fold w0. clearbody w0.
  unfold setInterval.
  cbn [state withState setActiveTab setSessionStartTime setLastUpdateTime
       setTrackingInterval intervals nextInterval trackingInterval activeTab
       sessionStartTime lastUpdateTime storage pending console].
  repeat split.
Qed.

(** The first two segments of a focus event on a page of a tracked and
    enabled site: the previous session is stopped and the ledger entry
    of the site is requested. *)
Lemma focus_resolved (e1 e2 : Env) (tabId : Z) (tab : Tab) (w : World)
    (matchedSite : string) :
  resolvesTo e2 tab (state w) matchedSite ->
  completeLast (TabResult (Some tab)) e2 (handleTabChange e1 tabId w)
  = suspend (HandleTabChange_getTimeData tabId matchedSite (getTodayString e2))
      (stopTracking e1 w).
Proof.
  intros (u & hostname & siteConfig & Hu & Hne & Hsys & Hh & Hm & Hms & Hg & Hen).
  destruct (stopTracking_frame e1 w) as (_ & Hsites & _).
  unfold handleTabChange. rewrite completeLast_suspend. cbn [resume]. rewrite Hu.
  apply String.eqb_neq in Hne. rewrite Hne, Hsys. cbn [orb]. rewrite Hh.
  apply String.eqb_neq in Hms. now rewrite Hsites, Hm, Hms, Hg, Hen.
Qed.

Lemma stopTracking_log_idle (e : Env) (entry : ConsoleEntry) (w : World) :
  activeTab (state w) = None ->
  sessionStartTime (state w) = None ->
  trackingInterval (state w) = None ->
  stopTracking e (log entry w) = log entry w.
Proof. intros Ha Hs Ht. now apply stopTracking_idle. Qed.

(** The read of the ledger fails: [getTimeData] logs the error and
    answers with a fresh entry of zero milliseconds, so the comparison
    with the limit is made against 0, whatever the store holds.  With a
    limit above zero the handler goes on to [startTracking]. *)
Lemma focus_failed_read (e1 e2 e3 : Env) (tabId : Z) (tab : Tab) (error : string)
    (w : World) (matchedSite : string) :
  resolvesTo e2 tab (state w) matchedSite ->
  0 < getSiteTimeLimit (state w) matchedSite ->
  let w' := focus e1 e2 e3 tabId tab (Rejected error) w in
  activeTab (state w') = Some {| site := matchedSite; tabId := tabId |}
  /\ sessionStartTime (state w') = Some (now e3)
  /\ trackingInterval (state w') = Some (nextInterval w)
  /\ intervals w' = nextInterval w :: intervals (stopTracking e1 w)
  /\ pending w' = pending (stopTracking e1 w)
  /\ storage w' = storage w
  /\ console w'
     = ConsoleError "Error getting time data:" error :: console (stopTracking e1 w).
Proof.
  intros Hres Hlt w'. subst w'. unfold focus.
  rewrite (focus_resolved e1 e2 tabId tab w matchedSite Hres).
  rewrite completeLast_suspend.
  destruct (stopTracking_clears e1 w) as (Ha & Hs & Ht).
  destruct (stopTracking_frame e1 w) as (Hst & Hsites & Hdef & Hn & Hi).
  assert (Hlimit : getSiteTimeLimit (state (stopTracking e1 w)) matchedSite
                   = getSiteTimeLimit (state w) matchedSite)
    by (unfold getSiteTimeLimit; now rewrite Hsites, Hdef).
  set (w0 := stopTracking e1 w) in *. clearbody w0.
  cbn [resume]. unfold getTimeData_resume. cbn [timeSpent state log].
  replace (0 >=? getSiteTimeLimit (state w0) matchedSite) with false
    by (symmetry; apply geb_lt; rewrite Hlimit; exact Hlt).
  pose proof (startTracking_effect e3 matchedSite tabId
                (log (ConsoleError "Error getting time data:" error) w0)) as H.
  cbv zeta in H. rewrite (stopTracking_log_idle e3 _ w0 Ha Hs Ht) in H.
  destruct H as (H1 & H2 & _ & H4 & H5 & _ & H7 & H8 & H9).
  rewrite H1, H2, H4, H5, H7, H8, H9.
  cbn [nextInterval intervals storage pending console log].
  rewrite Hn, Hst. repeat split.
Qed.

(** C4 (as the code has it).  A focus event on a page of a tracked,
    enabled site whose stored entry for the day has reached the limit,
    the handler running from the event to the answer of its read of the
    ledger.  When the read succeeds, the handler stops whatever session
    there was and requests the navigation of the tab to the blocked
    page; the session fields are empty afterwards, no timer has been
    created and the store is untouched; further such events, in any
    number, leave the tracker in this very state.  When the read fails,
    the error is logged, the entry counts as zero and, the limit being
    above zero, a session is started on this tab: the tab and site are
    recorded, [sessionStartTime] is the [now] of the last segment, a new
    timer is set, and no block navigation is requested. *)
Theorem focus_on_exhausted_site
    (e1 e2 e3 : Env) (tabId : Z) (tab : Tab) (w : World) (matchedSite : string) :
  resolvesTo e2 tab (state w) matchedSite ->
  exhausted w matchedSite (getTodayString e2) ->
  (let w' := focus e1 e2 e3 tabId tab Fulfilled w in
   pending w' = pending (stopTracking e1 w) ++ [BlockSite_update tabId matchedSite]
   /\ requestOf (BlockSite_update tabId matchedSite)
      = TabsUpdate tabId (BlockedPage matchedSite)
   /\ activeTab (state w') = None
   /\ sessionStartTime (state w') = None
   /\ trackingInterval (state w') = None
   /\ nextInterval w' = nextInterval w
   /\ (forall id, In id (intervals w') -> In id (intervals w))
   /\ (forall id, trackingInterval (state w) = Some id -> ~ In id (intervals w'))
   /\ storage w' = storage w
   /\ (forall evs,
         Forall (fun ev => resolvesTo (atTab ev) (tabFound ev) (state w) matchedSite
                           /\ exhausted w matchedSite (getTodayString (atTab ev))) evs ->
         focusAll evs w' = w'))
  /\ (forall error,
        0 < getSiteTimeLimit (state w) matchedSite ->
        let w' := focus e1 e2 e3 tabId tab (Rejected error) w in
        activeTab (state w') = Some {| site := matchedSite; tabId := tabId |}
        /\ sessionStartTime (state w') = Some (now e3)
        /\ trackingInterval (state w') = Some (nextInterval w)
        /\ intervals w' = nextInterval w :: intervals (stopTracking e1 w)
        /\ pending w' = pending (stopTracking e1 w)
        /\ storage w' = storage w
        /\ In (ConsoleError "Error getting time data:" error) (console w')).
Proof.
  intros Hres Hex. split.
  - intros w'.
    assert (Hw : w' = blockSite tabId matchedSite (stopTracking e1 w))
      by (now apply focus_exhausted).
    destruct (stopTracking_clears e1 w) as (Ha & Hs & Ht).
    destruct (stopTracking_frame e1 w) as (Hst & _ & _ & Hn & Hi).
    rewrite Hw. cbn -[stopTracking].
    repeat (split; [first [assumption | reflexivity]|]).
    split; [|split; [|split]].
    + intros id. rewrite Hi. destruct (trackingInterval (state w)); [|auto].
      intros Hin. now apply filter_In in Hin as [Hin _].
    + intros id Hid. rewrite Hi, Hid. intros Hin.
      apply filter_In in Hin as [_ Hin]. rewrite Pos.eqb_refl in Hin. discriminate.
    + assumption.
    + intros evs Hall. apply (focusAll_exhausted evs matchedSite); try assumption.
      eapply Forall_impl; [exact Hall|]. cbn beta. intros ev [Hr He].
      destruct (focus_exhausted_keeps e1 tabId w matchedSite (atTab ev) (tabFound ev)
                  (getTodayString (atTab ev))) as [Hk1 Hk2]. auto.
  - intros error Hlimit w'.
    destruct (focus_failed_read e1 e2 e3 tabId tab error w matchedSite Hres Hlimit)
      as (H1 & H2 & H3 & H4 & H5 & H6 & H7). fold w' in H1, H2, H3, H4, H5, H6, H7.
    repeat (split; [assumption|]). rewrite H7. now left.
Qed.

End Focus.

(** ** The daily reset *)

Section Rollover.

Lemma storageKeys_spec (w : World) (key : string) :
  In key (storageKeys w) <-> is_Some (storage w !! key).
Proof.
  unfold storageKeys. rewrite <- list_elem_of_In, list_elem_of_fmap. split.
  - intros [[k v] [-> H]]. apply elem_of_map_to_list in H. cbn. eauto.
  - intros [v H]. exists (key, v). split; [reflexivity|].
    now apply elem_of_map_to_list.
Qed.

Lemma completeLast_quiet (r : Response) (e : Env) (w : World) :
  pending w = [] -> completeLast r e w = w.
Proof. unfold completeLast, handle. now intros ->. Qed.

Lemma storageKey_is_ledger_key (site date : string) :
  JsString.startsWith (storageKey site date) "timeData_" = true.
Proof. unfold JsString.startsWith. apply prefix_spec. eexists. reflexivity. Qed.

(** C1 (as the code has it).  With no other call in flight, a reset
    whose two storage calls succeed removes every entry whose key
    starts with "timeData_", whatever its date, so also the entry of
    today for every site, and leaves every other key as it was. *)
Theorem resetDailyData_removes_all (e1 e2 e3 : Env) (w : World) :
  pending w = [] ->
  let w' := rollover e1 e2 e3 Fulfilled Fulfilled w in
  (forall key,
     storage w' !! key
     = if JsString.startsWith key "timeData_" then None else storage w !! key)
  /\ (forall site date, storage w' !! storageKey site date = None)
  /\ state w' = state w.
Proof.
  intros Hq w'.
  assert (Hall : (forall key, storage w' !! key
                   = if JsString.startsWith key "timeData_" then None
                     else storage w !! key) /\ state w' = state w).
  { subst w'. unfold rollover.
    change (handle e1 (AlarmFired "dailyReset") w) with (suspend ResetDailyData_get w).
    rewrite completeLast_suspend. cbn [resume].
    destruct (List.filter _ (storageKeys w)) as [|k ks] eqn:Hks.
    - rewrite completeLast_quiet by assumption. split; [|reflexivity].
      intros key. destruct (JsString.startsWith key "timeData_") eqn:Hp; [|reflexivity].
      destruct (storage w !! key) eqn:Hl; [|reflexivity]. exfalso.
      assert (Hin : In key (List.filter
                (fun key => JsString.startsWith key "timeData_") (storageKeys w))).
      { apply filter_In. split; [apply storageKeys_spec; eauto | assumption]. }
      rewrite Hks in Hin. contradiction.
    - rewrite completeLast_suspend. cbn [resume storage state log withStorage].
      split; [|reflexivity]. intros key. rewrite <- Hks.
      destruct (JsString.startsWith key "timeData_") eqn:Hp.
      + destruct (storage w !! key) eqn:Hl.
        * apply lookup_foldr_delete. apply list_elem_of_In, filter_In.
          split; [apply storageKeys_spec; eauto | assumption].
        * rewrite lookup_foldr_delete_not_elem_of; [assumption|].
          intros Hin. apply list_elem_of_In, filter_In in Hin as [Hin _].
          apply storageKeys_spec in Hin as [v Hv]. congruence.
      + apply lookup_foldr_delete_not_elem_of.
        intros Hin. apply list_elem_of_In, filter_In in Hin as [_ Hin]. congruence. }
  destruct Hall as [Hkeys Hstate]. split; [exact Hkeys | split; [|exact Hstate]].
  intros site date. rewrite Hkeys. now rewrite storageKey_is_ledger_key.
Qed.

End Rollover.

(** ** Invariants of the event loop *)

Section Invariants.

Lemma sameSettings_refl (w : World) : sameSettings w w.
Proof. repeat split. Qed.

Lemma sameSettings_trans (w1 w2 w3 : World) :
  sameSettings w1 w2 -> sameSettings w2 w3 -> sameSettings w1 w3.
Proof.
  intros (A1 & A2 & A3 & A4) (B1 & B2 & B3 & B4).
  repeat split; congruence.
Qed.

(** A world that differs from [w] at most in store, pending calls and
    console has the settings and timers of [w]. *)
Lemma same_state_keeps (w w' : World) :
  state w' = state w -> intervals w' = intervals w -> nextInterval w' = nextInterval w ->
  sameSettings w w' /\ (timersConsistent w -> timersConsistent w').
Proof.
  intros Hs Hi Hn. unfold sameSettings, timersConsistent. rewrite Hs, Hi, Hn.
  repeat split; tauto.
Qed.

Lemma filter_neq_self (id : positive) :
  List.filter (fun i => negb (Pos.eqb i id)) [id] = [].
Proof. cbn. now rewrite Pos.eqb_refl. Qed.

Lemma stopTracking_keeps (e : Env) (w : World) :
  sameSettings w (stopTracking e w)
  /\ (timersConsistent w -> timersConsistent (stopTracking e w)).
Proof.
  unfold stopTracking.
  destruct (clearSession_frame (flushSession e w))
    as (_ & Hn & _ & _ & C1 & C2 & C3 & C4 & _ & _ & Ht & Hi).
  destruct (flushSession_frame e w) as (_ & Fi & Fn & F1 & F2 & F3 & F4 & _ & Ft).
  split.
  - repeat split; congruence.
  - intros [Hc Hlt]. unfold timersConsistent. rewrite Hi, Ht, Ft, Fi, Hc. split.
    + destruct (trackingInterval (state w)); [apply filter_neq_self | reflexivity].
    + discriminate.
Qed.

Lemma startTracking_keeps (e : Env) (site : string) (tabId : Z) (w : World) :
  sameSettings w (startTracking e site tabId w)
  /\ (timersConsistent w -> timersConsistent (startTracking e site tabId w)).
Proof.
  destruct (stopTracking_keeps e w) as [Hs Ht].
  destruct (stopTracking_clears e w) as (_ & _ & Hti).
  unfold startTracking, setInterval.
  cbn [state withState setActiveTab setSessionStartTime setLastUpdateTime
       setTrackingInterval intervals nextInterval trackingInterval
       sites defaultTimeLimit warningThreshold maxUpdateInterval].
  split.
  - exact Hs.
  - intros Hc. destruct (Ht Hc) as [Hi _]. unfold timersConsistent.
    cbn [state withState setActiveTab setSessionStartTime setLastUpdateTime
         setTrackingInterval intervals nextInterval trackingInterval].
    rewrite Hi, Hti. split; [reflexivity|]. intros id [= <-]. lia.
Qed.

Lemma resume_keeps (p : Pending) (r : Response) (e : Env) (w : World) :
  sameSettings w (resume p r e w)
  /\ (timersConsistent w -> timersConsistent (resume p r e w)).
Proof.
  destruct p as [site now sessionTime today|site now total data|tabId site|tabId msg
                |tabId|tabId matchedSite today| |keys].
  - destruct (resume_update_read site now sessionTime today r e w)
      as (w2 & -> & Hs & _ & Hi & _ & _ & Hn). now apply same_state_keeps.
  - cbn [resume].
    match goal with
    | |- context [checkTimeThresholds ?s ?t ?v] =>
        destruct (checkTimeThresholds_frame s t v) as (Es & _ & Ei & _);
        pose proof (checkTimeThresholds_next s t v) as En
    end.
    unfold sameSettings, timersConsistent. rewrite Es, Ei, En.
    destruct r; cbn; repeat split; tauto.
  - cbn [resume]. destruct r; try apply stopTracking_keeps.
    apply same_state_keeps; reflexivity.
  - cbn [resume]. destruct r; apply same_state_keeps; reflexivity.
  - cbn [resume].
    repeat match goal with
           | |- context [match ?x with _ => _ end] => destruct x
           end; apply same_state_keeps; reflexivity.
  - cbn [resume]. unfold getTimeData_resume.
    destruct r; cbn [fst snd];
      match goal with
      | |- context [if ?b then _ else _] => destruct b
      end;
      first [ apply same_state_keeps; reflexivity
            | match goal with
              | |- context [startTracking e matchedSite tabId ?v] =>
                  destruct (startTracking_keeps e matchedSite tabId v) as [Hs Ht];
                  split; [exact Hs | exact Ht]
              end ].
  - cbn [resume].
    repeat match goal with
           | |- context [match ?x with _ => _ end] => destruct x
           end; apply same_state_keeps; reflexivity.
  - cbn [resume]. destruct r; apply same_state_keeps; reflexivity.
Qed.

Lemma preserves_trans (w1 w2 w3 : World) :
  preserves w1 w2 -> preserves w2 w3 -> preserves w1 w3.
Proof.
  intros [S1 T1] [S2 T2]. split; [eapply sameSettings_trans; eauto | auto].
Qed.

Lemma updateTimeSpent_keeps (e : Env) (w : World) : preserves w (updateTimeSpent e w).
Proof.
  unfold updateTimeSpent.
  destruct (activeTab (state w)) as [tab|]; [|apply stopTracking_keeps].
  destruct (sessionStartTime (state w)) as [start|]; [|apply stopTracking_keeps].
  destruct (negb (start =? 0)); [|apply stopTracking_keeps].
  pose proof (updateTimeSpent_session_frame e tab start w) as H. cbv zeta in H.
  destruct H as (_ & Hi & Hn & H1 & H2 & H3 & H4 & _ & Ht & _).
  split; [repeat split; assumption|].
  unfold timersConsistent. now rewrite Hi, Hn, Ht.
Qed.

(** Every event keeps the settings, and keeps the timers consistent. *)
Lemma handle_keeps (e : Env) (ev : Event) (w : World) : preserves w (handle e ev w).
Proof.
  destruct ev as [tabId| |id|name|i r]; cbn [handle].
  - unfold handleTabChange.
    eapply preserves_trans; [apply stopTracking_keeps|].
    apply same_state_keeps; reflexivity.
  - apply stopTracking_keeps.
  - destruct (existsb _ _); [apply updateTimeSpent_keeps|].
    apply same_state_keeps; reflexivity.
  - destruct (String.eqb name "dailyReset"); apply same_state_keeps; reflexivity.
  - destruct (pending w !! i) as [p|]; [|apply same_state_keeps; reflexivity].
    eapply preserves_trans; [|apply resume_keeps].
    apply same_state_keeps; reflexivity.
Qed.

Lemma run_keeps (evs : list (Env * Event)) :
  forall w, preserves w (run evs w).
Proof.
  induction evs as [|[e ev] evs IH]; intros w.
  - apply same_state_keeps; reflexivity.
  - cbn. eapply preserves_trans; [apply handle_keeps | apply IH].
Qed.

(** X3. In every world the service worker reaches from its start by
    tab, window, timer and alarm events and the completions of its
    browser calls, the warning threshold is 0.8, the clamp is 5000 ms,
    registry and default limit are those it started with, and at most
    one timer is set: the one of the current session. *)
Lemma reachable_invariants (registry : list (string * SiteConfig)) (limit : Z)
    (store : gmap string TimeData) (evs : list (Env * Event)) :
  let w := run evs (initialWorld registry limit store) in
  warningThreshold (state w) = WARNING_THRESHOLD
  /\ maxUpdateInterval (state w) = MAX_UPDATE_INTERVAL
  /\ sites (state w) = registry
  /\ defaultTimeLimit (state w) = limit
  /\ timersConsistent w.
Proof.
  destruct (run_keeps evs (initialWorld registry limit store))
    as [(H1 & H2 & H3 & H4) Ht].
  cbv zeta. rewrite H1, H2, H3, H4.
  do 4 (split; [reflexivity|]).
  apply Ht. split; [reflexivity | discriminate].
Qed.

End Invariants.

(** ** The daily reset of the legacy script *)

Section LegacyReset.
Import Scenario.

(** The legacy reset removes exactly the stale keys. *)
Lemma legacy_reset_lookup {V : Type} (e : Env) (store : gmap string V) (key : string) :
  Legacy.resetDailyData e store !! key
  = if Legacy.isStale e key then None else store !! key.
Proof.
  unfold Legacy.resetDailyData.
  destruct (Legacy.isStale e key) eqn:Hs.
  - destruct (store !! key) as [v|] eqn:Hl.
    + apply lookup_foldr_delete. apply list_elem_of_In, filter_In. split; [|exact Hs].
      apply in_map_iff. exists (key, v). split; [reflexivity|].
      apply list_elem_of_In. now apply elem_of_map_to_list.
    + rewrite lookup_foldr_delete_not_elem_of; [exact Hl|].
      intros Hin. apply list_elem_of_In, filter_In in Hin as [Hin _].
      apply in_map_iff in Hin as [[k v] [Hk Hin]]. cbn in Hk. subst k.
      apply list_elem_of_In, elem_of_map_to_list in Hin. congruence.
  - apply lookup_foldr_delete_not_elem_of.
    intros Hin. apply list_elem_of_In, filter_In in Hin as [_ Hin]. congruence.
Qed.

(** A key of another scheme, or one whose date is within seven days
    of [now], is kept with its value. *)
Lemma legacy_reset_keeps {V : Type} (e : Env) (store : gmap string V) (key : string) :
  Legacy.isStale e key = false -> Legacy.resetDailyData e store !! key = store !! key.
Proof. intros H. now rewrite legacy_reset_lookup, H. Qed.

(** With entries for the eleven days up to today, the legacy reset at
    2024-01-02T04:00:00Z keeps the entries of the last seven days,
    today's among them, and removes the four older ones. *)
Lemma legacy_reset_keeps_seven_days :
  forall d, In d lastElevenDays ->
    Legacy.resetDailyData (envAt t0) legacyLedger !! ("time_youtube.com_" +:+ isoDate d)
    = if 19724 - 7 <? d then Some (entryOf 60000 (isoDate d)) else None.
Proof.
  intros d Hin. cbn in Hin.
  repeat (destruct Hin as [<-|Hin]; [vm_compute; reflexivity|]).
  contradiction.
Qed.

End LegacyReset.

(** ** The properties at concrete situations *)

Section Situations.
Import Scenario.

(** C1, as stated, fails: with ledger entries for the eleven days up to
    today, the reset removes today's entry, and every other ledger
    entry with it; only the key of another scheme is left. *)
Lemma rollover_removes_today :
  let e := envAt t0 in
  let w' := rollover e e e Fulfilled Fulfilled ledgerWorld in
  getTodayString e = "2024-01-02"
  /\ storage ledgerWorld !! storageKey "youtube.com" "2024-01-02"
     = Some (entryOf 60000 "2024-01-02")
  /\ storage w' !! storageKey "youtube.com" "2024-01-02" = None
  /\ map fst (map_to_list (storage w')) = ["time_youtube.com_2024-01-01"].
Proof. vm_compute. repeat split; reflexivity. Qed.

Lemma resetDailyData_removes_all_witness :
  pending ledgerWorld = []
  /\ storage (rollover (envAt t0) (envAt t0) (envAt t0) Fulfilled Fulfilled ledgerWorld)
       !! storageKey "youtube.com" "2024-01-02" = None.
Proof.
  split; [reflexivity|].
  pose proof (resetDailyData_removes_all (envAt t0) (envAt t0) (envAt t0) ledgerWorld
                eq_refl) as H.
  cbv zeta in H. exact (proj1 (proj2 H) "youtube.com" "2024-01-02").
Defined.

Lemma tick_credits_clamped_elapsed_witness :
  let e := envAt t0 in
  let tab := {| site := "youtube.com"; tabId := 7 |} in
  activeTab (state (trackingWorld 1000)) = Some tab
  /\ sessionStartTime (state (trackingWorld 1000)) = Some (t0 - 1000)
  /\ t0 - 1000 <> 0
  /\ maxUpdateInterval (state (trackingWorld 1000)) = MAX_UPDATE_INTERVAL
  /\ spent (tick e e e Fulfilled Fulfilled (trackingWorld 1000)) "youtube.com"
       (getTodayString e)
     = spent (trackingWorld 1000) "youtube.com" (getTodayString e)
       + Z.min (now e - (t0 - 1000)) 5000.
Proof.
  intros e tab.
  split; [reflexivity|]. split; [reflexivity|]. split; [discriminate|].
  split; [reflexivity|].
  pose proof (tick_credits_clamped_elapsed e e e (trackingWorld 1000) tab (t0 - 1000)
                eq_refl eq_refl ltac:(discriminate) eq_refl eq_refl) as H.
  cbv zeta in H. exact (proj1 H).
Defined.

Lemma checkTimeThresholds_classifies_witness :
  let w := trackingWorld 48000 in
  let tab := {| site := "youtube.com"; tabId := 7 |} in
  activeTab (state w) = Some tab
  /\ warningThreshold (state w) = WARNING_THRESHOLD
  /\ 0 < getSiteTimeLimit (state w) "youtube.com"
  /\ 0 <= 49000
  /\ (getSiteTimeLimit (state w) "youtube.com" <= 49000
      <-> checkTimeThresholds "youtube.com" 49000 w = blockSite (tabId tab) "youtube.com" w).
Proof.
  intros w tab.
  split; [reflexivity|]. split; [reflexivity|]. split; [reflexivity|].
  split; [discriminate|].
  pose proof (checkTimeThresholds_classifies w "youtube.com" tab 49000
                eq_refl eq_refl eq_refl ltac:(discriminate)) as H.
  cbv zeta in H. exact (proj1 H).
Defined.

(** C4, as stated, fails: youtube.com has used its 60000 ms of the
    day; a focus event on one of its pages whose read of the ledger is
    rejected starts a session on tab 9, with a timer, and requests no
    block navigation. *)
Lemma focus_failed_read_tracks_exhausted_site :
  let e := envAt t0 in
  let w' := focus e e e 9 youtubeTab (Rejected "quota exceeded") (idleWorld 60000) in
  spent (idleWorld 60000) "youtube.com" "2024-01-02" = 60000
  /\ getSiteTimeLimit (state (idleWorld 60000)) "youtube.com" = 60000
  /\ activeTab (state w') = Some {| site := "youtube.com"; tabId := 9 |}
  /\ sessionStartTime (state w') = Some t0
  /\ trackingInterval (state w') = Some 2%positive
  /\ intervals w' = [2%positive]
  /\ pending w' = []
  /\ console w' = [ConsoleError "Error getting time data:" "quota exceeded"].
Proof. vm_compute. repeat split; reflexivity. Qed.

Lemma focus_on_exhausted_site_witness :
  let e := envAt t0 in
  let w := idleWorld 60000 in
  resolvesTo e youtubeTab (state w) "youtube.com"
  /\ exhausted w "youtube.com" (getTodayString e)
  /\ activeTab (state (focus e e e 9 youtubeTab Fulfilled w)) = None
  /\ activeTab (state (focus e e e 9 youtubeTab (Rejected "quota exceeded") w))
     = Some {| site := "youtube.com"; tabId := 9 |}.
Proof.
  intros e w.
  assert (Hres : resolvesTo e youtubeTab (state w) "youtube.com").
  { exists "https://www.youtube.com/watch", "www.youtube.com",
      {| enabled := true; timeLimit := 1; isDefault := true |}.
    repeat split; try reflexivity; discriminate. }
  assert (Hex : exhausted w "youtube.com" (getTodayString e)).
  { exists (entryOf 60000 "2024-01-02"). split; [reflexivity | discriminate]. }
  assert (Hlimit : 0 < getSiteTimeLimit (state w) "youtube.com") by reflexivity.
  split; [exact Hres|]. split; [exact Hex|].
  pose proof (focus_on_exhausted_site e e e 9 youtubeTab w "youtube.com" Hres Hex) as H.
  cbv zeta in H. split.
  - exact (proj1 (proj2 (proj2 (proj1 H)))).
  - exact (proj1 (proj2 H "quota exceeded" Hlimit)).
Defined.

(** C5, as stated, fails: a tick whose read of the store is rejected
    leaves the session on tab 7 and its timer in place, and the ledger
    entry, 30000 ms before, is overwritten with the tick's 1000 ms. *)
Lemma tick_failure_is_not_idle :
  let e := envAt t0 in
  let w' := tick e e e (Rejected "quota exceeded") Fulfilled (trackingWorld 30000) in
  activeTab (state w') = Some {| site := "youtube.com"; tabId := 7 |}
  /\ sessionStartTime (state w') = Some t0
  /\ trackingInterval (state w') = Some 1%positive
  /\ intervals w' = [1%positive]
  /\ spent (trackingWorld 30000) "youtube.com" "2024-01-02" = 30000
  /\ spent w' "youtube.com" "2024-01-02" = 1000
  /\ console w' = [ConsoleError "Error getting time data:" "quota exceeded"].
Proof. vm_compute. repeat split; reflexivity. Qed.

Lemma tick_failure_keeps_tracking_witness :
  let e := envAt t0 in
  let tab := {| site := "youtube.com"; tabId := 7 |} in
  let w := trackingWorld 30000 in
  activeTab (state w) = Some tab
  /\ sessionStartTime (state w) = Some (t0 - 1000)
  /\ t0 - 1000 <> 0
  /\ isRejected (Rejected "quota exceeded") || isRejected Fulfilled = true
  /\ activeTab (state (tick e e e (Rejected "quota exceeded") Fulfilled w)) = Some tab.
Proof.
  intros e tab w.
  split; [reflexivity|]. split; [reflexivity|]. split; [discriminate|].
  split; [reflexivity|].
  pose proof (tick_failure_keeps_tracking e e e (Rejected "quota exceeded") Fulfilled w
                tab (t0 - 1000) eq_refl eq_refl ltac:(discriminate) eq_refl) as H.
  cbv zeta in H. exact (proj1 (proj2 H)).
Defined.


Lemma updateTimeSpent_without_session_witness :
  (activeTab (state (idleWorld 1000)) = None
   \/ sessionStartTime (state (idleWorld 1000)) = None)
  /\ storage (updateTimeSpent (envAt t0) (idleWorld 1000)) = storage (idleWorld 1000).
Proof.
  split; [left; reflexivity|].
  pose proof (updateTimeSpent_without_session (envAt t0) (idleWorld 1000)
                (or_introl eq_refl)) as H.
  cbv zeta in H. exact (proj1 H).
Defined.

Lemma findMatchingSite_spec_witness :
  findMatchingSite "m.youtube.com" registry = Some "youtube.com".
Proof.
  exact (proj1 (proj1 (proj2 (proj2 (proj2
           (findMatchingSite_spec "m.youtube.com" registry))))
           {| enabled := true; timeLimit := 1; isDefault := true |})).
Defined.

(** C2 (as the code has it).  The time since [sessionStartTime] can be
    credited twice, and a credit can be carried to another day.
    First run: youtube.com is tracked on tab 7 since [t0 - 1000], with
    1000 ms on the day's entry.  The timer fires at [t0] and the tick's
    read is answered; while its write is pending the window loses
    focus, and [stopTracking] starts a flush that still finds the old
    [sessionStartTime], which is reset only after the write.  Every
    browser call is then answered in the order issued.  The tick has
    credited the 1000 ms up to [t0]; the flush credits the 1005 ms up
    to [t0 + 5]: 2005 ms are added for a session of 1005 ms, and
    [sessionStartTime], which [stopTracking] had cleared, is set again.
    Second run: a tick for 1000 ms starts in the last millisecond of
    2024-01-02 (UTC) and its read, for the key of that day, is answered
    after midnight; the write takes its date anew, so the total of
    2024-01-02 plus the credit is stored as the entry of 2024-01-03,
    which had nothing. *)
Theorem tick_interval_credited_twice :
  let events :=
    [(envAt t0, IntervalFired 1);
     (envAt (t0 + 1), Completed 0 Fulfilled);
     (envAt (t0 + 5), WindowFocusLost);
     (envAt (t0 + 6), Completed 0 Fulfilled);
     (envAt (t0 + 7), Completed 0 Fulfilled);
     (envAt (t0 + 8), Completed 0 Fulfilled)] in
  let w3 := run (firstn 3 events) (trackingWorld 1000) in
  let w4 := run (firstn 4 events) (trackingWorld 1000) in
  let w := run events (trackingWorld 1000) in
  let late :=
    tick (envAt (midnight - 1)) (envAt (midnight + 1)) (envAt (midnight + 2))
      Fulfilled Fulfilled (lateWorld 30000) in
  (sessionStartTime (state (trackingWorld 1000)) = Some (t0 - 1000)
   /\ spent (trackingWorld 1000) "youtube.com" "2024-01-02" = 1000
   /\ pending w3
      = [UpdateTimeSpent_setTimeData "youtube.com" t0 2000
           {| timeSpent := 2000; date := "2024-01-02"; lastUpdate := t0 |};
         UpdateTimeSpent_getTimeData "youtube.com" (t0 + 5) 1005 "2024-01-02"]
   /\ spent w4 "youtube.com" "2024-01-02" = 2000
   /\ spent w "youtube.com" "2024-01-02" = 1000 + 1000 + 1005
   /\ activeTab (state w) = None
   /\ sessionStartTime (state w) = Some (t0 + 5)
   /\ pending w = []
   /\ console w = [])
  /\ (getTodayString (envAt (midnight - 1)) = "2024-01-02"
      /\ getTodayString (envAt (midnight + 1)) = "2024-01-03"
      /\ sessionStartTime (state (lateWorld 30000)) = Some (midnight - 1 - 1000)
      /\ spent (lateWorld 30000) "youtube.com" "2024-01-02" = 30000
      /\ spent (lateWorld 30000) "youtube.com" "2024-01-03" = 0
      /\ spent late "youtube.com" "2024-01-02" = 30000
      /\ spent late "youtube.com" "2024-01-03" = 30000 + 1000
      /\ console late = []).
Proof. vm_compute. repeat split; reflexivity. Qed.

(** The flush started by [stopTracking] is completed after the session
    fields have been cleared: it credits the elapsed second and writes
    its [now] into [sessionStartTime] although no tab is active; a
    second stop clears the field again and writes nothing. *)
Example flush_after_stop :
  let e := envAt t0 in
  let stopped := stopTracking e (trackingWorld 1000) in
  let flushed := completeLast Fulfilled e (completeLast Fulfilled e stopped) in
  let again := stopTracking e flushed in
  pending stopped
  = [UpdateTimeSpent_getTimeData "youtube.com" t0 1000 "2024-01-02"]
  /\ spent flushed "youtube.com" "2024-01-02" = 2000
  /\ activeTab (state flushed) = None
  /\ sessionStartTime (state flushed) = Some t0
  /\ intervals flushed = []
  /\ pending flushed = []
  /\ sessionStartTime (state again) = None
  /\ spent again "youtube.com" "2024-01-02" = 2000
  /\ pending again = [].
Proof. vm_compute. repeat split; reflexivity. Qed.

(** The scenario of the specification, with a limit of one minute:
    a focus event starts a session, and three ticks one second apart
    bring the ledger to 3000 ms with nothing requested. *)
Example three_ticks :
  let env := fun k => envAt (t0 + k * 1000) in
  let w :=
    run [(env 0, TabActivated 7);
         (env 0, Completed 0 (TabResult (Some youtubeTab)));
         (env 0, Completed 0 Fulfilled);
         (env 1, IntervalFired 1); (env 1, Completed 0 Fulfilled);
         (env 1, Completed 0 Fulfilled);
         (env 2, IntervalFired 1); (env 2, Completed 0 Fulfilled);
         (env 2, Completed 0 Fulfilled);
         (env 3, IntervalFired 1); (env 3, Completed 0 Fulfilled);
         (env 3, Completed 0 Fulfilled)]
      (initialWorld registry 30 ∅) in
  spent w "youtube.com" "2024-01-02" = 3000
  /\ activeTab (state w) = Some {| site := "youtube.com"; tabId := 7 |}
  /\ sessionStartTime (state w) = Some (t0 + 3000)
  /\ intervals w = [1%positive]
  /\ pending w = []
  /\ console w = [].
Proof. vm_compute. repeat split; reflexivity. Qed.

(** A tick that brings the ledger to 49000 ms of 60000 sends the
    warning with the remaining 11 seconds; one that brings it to 60000
    requests the block navigation, after which the session is stopped,
    and a focus event on the site is answered with the navigation
    again, not with a session. *)
Example warning_then_block :
  let e := envAt t0 in
  let warned := tick e e e Fulfilled Fulfilled (trackingWorld 48000) in
  let blocked := tick e e e Fulfilled Fulfilled (trackingWorld 59000) in
  let settled :=
    completeLast Fulfilled e (completeLast Fulfilled e (completeLast Fulfilled e blocked)) in
  let refocused := focus e e e 7 youtubeTab Fulfilled settled in
  pending warned
  = [ShowWarning_sendMessage 7
       {| action := "showWarning";
          message := "Warning: You have 11s left on youtube.com today.";
          remainingTime := 11000 |}]
  /\ spent blocked "youtube.com" "2024-01-02" = 60000
  /\ pending blocked = [BlockSite_update 7 "youtube.com"]
  /\ activeTab (state settled) = None
  /\ intervals settled = []
  /\ pending settled = []
  /\ spent settled "youtube.com" "2024-01-02" = 60000
  /\ pending refocused = [BlockSite_update 7 "youtube.com"]
  /\ activeTab (state refocused) = None
  /\ intervals refocused = [].
Proof. vm_compute. repeat split; reflexivity. Qed.

(** Two methods that overlap.  A tick starts at [t0]; five milliseconds
    later, before the tick's read of the store has completed, the
    window loses focus and [stopTracking] starts a flush.  Both have
    read the same [sessionStartTime], so the second that the tick
    credits is credited by the flush again: 2005 ms are added for
    1005 ms of session. *)
Example overlapping_flush :
  let w :=
    run [(envAt t0, IntervalFired 1);
         (envAt (t0 + 5), WindowFocusLost);
         (envAt (t0 + 6), Completed 0 Fulfilled);
         (envAt (t0 + 7), Completed 1 Fulfilled);
         (envAt (t0 + 8), Completed 0 Fulfilled);
         (envAt (t0 + 9), Completed 0 Fulfilled)]
      (trackingWorld 1000) in
  spent w "youtube.com" "2024-01-02" = 1000 + 1000 + 1005
  /\ activeTab (state w) = None
  /\ sessionStartTime (state w) = Some (t0 + 5)
  /\ intervals w = []
  /\ pending w = [].
Proof. vm_compute. repeat split; reflexivity. Qed.

End Situations.

(** ** Patterns: the matcher decides the language *)

Section RegexComplete.
Import Regex.

Lemma append_nil_inv (a b : string) :
  a +:+ b = EmptyString -> a = EmptyString /\ b = EmptyString.
Proof. destruct a; [auto | rewrite append_cons; discriminate]. Qed.

Lemma lang_nullable (r : re) (s : string) :
  lang r s -> s = EmptyString -> nullable r = true.
Proof.
  induction 1 as [|rs c' Hc|r1 r2 s1 s2 _ IH1 _ IH2|r1 r2 s _ IH|r1 r2 s _ IH| |
                  n r s1 s2 _ IH1 _ IH2| |r s1 s2 _ IH1 _ IH2];
    intros Hs; simpl; auto; try discriminate.
  - apply append_nil_inv in Hs as [-> ->]. now rewrite IH1, IH2.
  - now rewrite IH.
  - rewrite IH by assumption. apply orb_true_r.
Qed.

Lemma lang_UpTo_S (n : nat) (r : re) (s : string) :
  lang (UpTo n r) s -> lang (UpTo (S n) r) s.
Proof.
  intros H. remember (UpTo n r) as u eqn:Hu. revert n Hu.
  induction H as [| | | | |n' r'|n' r' s1 s2 H1 _ H2 IH2| |];
    intros n Hu; inversion Hu; subst.
  - constructor.
  - constructor; [assumption | now apply IH2].
Qed.

Lemma lang_deriv (c : ascii) (r : re) (t : string) :
  lang r t -> forall s, t = String c s -> lang (deriv c r) s.
Proof.
  induction 1 as [|rs c' Hc|r1 r2 s1 s2 H1 IH1 H2 IH2|r1 r2 s' _ IH|r1 r2 s' _ IH| |
                  n r s1 s2 H1 IH1 H2 IH2| |r s1 s2 H1 IH1 H2 IH2];
    intros s Hs; simpl; try discriminate.
  - injection Hs as -> <-. rewrite Hc. constructor.
  - destruct s1 as [|c1 s1].
    + change (s2 = String c s) in Hs. subst s2. rewrite (lang_nullable r1 EmptyString H1 eq_refl).
      apply L_AltR. now apply IH2.
    + rewrite append_cons in Hs. injection Hs as -> <-.
      assert (Hseq : lang (Seq (deriv c r1) r2) (s1 +:+ s2))
        by (constructor; [now apply IH1 | assumption]).
      destruct (nullable r1); [now apply L_AltL | assumption].
  - apply L_AltL. now apply IH.
  - apply L_AltR. now apply IH.
  - destruct s1 as [|c1 s1].
    + change (s2 = String c s) in Hs. subst s2. specialize (IH2 s eq_refl).
      destruct n as [|n]; simpl in IH2; [inversion IH2|].
      inversion IH2; subst. constructor; [assumption | now apply lang_UpTo_S].
    + rewrite append_cons in Hs. injection Hs as -> <-.
      constructor; [now apply IH1 | assumption].
  - destruct s1 as [|c1 s1].
    + change (s2 = String c s) in Hs. subst s2. now apply IH2.
    + rewrite append_cons in Hs. injection Hs as -> <-.
      constructor; [now apply IH1 | assumption].
Qed.

Lemma lang_test (s : string) : forall r, lang r s -> test r s = true.
Proof.
  induction s as [|c s IH]; simpl; intros r H.
  - now apply (lang_nullable r EmptyString).
  - apply IH. now apply (lang_deriv c r (String c s)).
Qed.

Lemma toLowerCase_append (a b : string) :
  JsString.toLowerCase (a +:+ b) = JsString.toLowerCase a +:+ JsString.toLowerCase b.
Proof.
  induction a as [|c a IH]; [reflexivity|].
  rewrite append_cons. simpl. now rewrite IH.
Qed.

Lemma lang_lower (r : re) (s : string) :
  lang r s -> lowerClosed r -> lang r (JsString.toLowerCase s).
Proof.
  induction 1 as [|rs c' Hc|r1 r2 s1 s2 _ IH1 _ IH2|r1 r2 s _ IH|r1 r2 s _ IH| |
                  n r s1 s2 _ IH1 _ IH2| |r s1 s2 _ IH1 _ IH2];
    simpl; intros Hcl; try rewrite toLowerCase_append.
  - constructor.
  - constructor. now apply Hcl.
  - destruct Hcl. constructor; auto.
  - destruct Hcl. apply L_AltL; auto.
  - destruct Hcl. apply L_AltR; auto.
  - constructor.
  - constructor; auto.
  - constructor.
  - constructor; auto.
Qed.

(** A pattern whose classes are closed under lower-casing accepts the
    lower-case form of every text it accepts. *)
Lemma test_lower (r : re) (s : string) :
  lowerClosed r -> test r s = true -> test r (JsString.toLowerCase s) = true.
Proof. intros Hcl Ht. apply lang_test, lang_lower; [now apply test_lang | assumption]. Qed.

End RegexComplete.

(** ** Host names *)

Section Hostnames.
Import Regex.

Lemma chars_lower (s : string) :
  list_ascii_of_string (JsString.toLowerCase s)
  = map JsString.lowerChar (list_ascii_of_string s).
Proof. induction s as [|c s IH]; simpl; [reflexivity | now rewrite IH]. Qed.

Lemma lowerChar_idem (c : ascii) :
  JsString.lowerChar (JsString.lowerChar c) = JsString.lowerChar c.
Proof. destruct c as [[] [] [] [] [] [] [] []]; vm_compute; reflexivity. Qed.

Lemma lowerChar_allowed (c : ascii) :
  allowedChar c = true -> allowedChar (JsString.lowerChar c) = true.
Proof. destruct c as [[] [] [] [] [] [] [] []]; vm_compute; auto. Qed.

Lemma lowerChar_alnum (c : ascii) :
  inClass alnum c = true -> inClass alnum (JsString.lowerChar c) = true.
Proof. destruct c as [[] [] [] [] [] [] [] []]; vm_compute; auto. Qed.

Lemma lowerChar_label (c : ascii) :
  inClass (alnum ++ [("-", "-")]%char) c = true ->
  inClass (alnum ++ [("-", "-")]%char) (JsString.lowerChar c) = true.
Proof. destruct c as [[] [] [] [] [] [] [] []]; vm_compute; auto. Qed.

Lemma lowerChar_dot (c : ascii) :
  inClass [(".", ".")]%char c = true ->
  inClass [(".", ".")]%char (JsString.lowerChar c) = true.
Proof. destruct c as [[] [] [] [] [] [] [] []]; vm_compute; auto. Qed.

Lemma hostname_lowerClosed : lowerClosed hostnameRegex.
Proof.
  unfold hostnameRegex, labelRegex, Opt. simpl.
  pose proof lowerChar_alnum. pose proof lowerChar_label. pose proof lowerChar_dot.
  repeat split; auto.
Qed.

Lemma toLowerCase_idem (s : string) :
  JsString.toLowerCase (JsString.toLowerCase s) = JsString.toLowerCase s.
Proof. induction s as [|c s IH]; simpl; [reflexivity|]. now rewrite lowerChar_idem, IH. Qed.

Lemma includes_spec (s sub : string) :
  JsString.includes s sub = true <-> exists a b, s = a +:+ sub +:+ b.
Proof.
  induction s as [|c s IH]; cbn [JsString.includes].
  - rewrite orb_false_r, prefix_spec. split.
    + intros [rest H]. exists EmptyString, rest. exact H.
    + intros (a & b & H). destruct a as [|c a]; [eauto|].
      rewrite append_cons in H. discriminate.
  - rewrite orb_true_iff, prefix_spec, IH. split.
    + intros [[rest H] | (a & b & H)].
      * exists EmptyString, rest. exact H.
      * exists (String c a), b. rewrite append_cons. now f_equal.
    + intros (a & b & H). destruct a as [|c' a].
      * left. exists b. exact H.
      * right. rewrite append_cons in H. injection H as _ H. eauto.
Qed.

Lemma includes_lower (s : string) :
  JsString.includes s "." = true ->
  JsString.includes (JsString.toLowerCase s) "." = true.
Proof.
  rewrite !includes_spec. intros (a & b & ->).
  exists (JsString.toLowerCase a), (JsString.toLowerCase b).
  now rewrite !toLowerCase_append.
Qed.

Lemma prefix_lower (p s : string) :
  String.prefix p s = true ->
  String.prefix (JsString.toLowerCase p) (JsString.toLowerCase s) = true.
Proof.
  rewrite !prefix_spec. intros [rest ->]. exists (JsString.toLowerCase rest).
  apply toLowerCase_append.
Qed.

Lemma drop_prefix_ne (p s : string) :
  p <> EmptyString -> String.prefix p s = true ->
  JsString.drop (String.length p) s <> s.
Proof.
  intros Hp H. apply prefix_spec in H as [rest ->]. rewrite drop_append.
  intros Heq. apply (f_equal String.length) in Heq.
  rewrite string_length_append in Heq.
  destruct p; [congruence | simpl in Heq; lia].
Qed.

(** A text whose lower-case form starts with no protocol starts with
    none itself. *)
Lemma stripProtocol_lower (s : string) :
  stripProtocol (JsString.toLowerCase s) = JsString.toLowerCase s ->
  stripProtocol s = s.
Proof.
  unfold stripProtocol. intros H.
  destruct (String.prefix "http://" s) eqn:H1.
  - apply prefix_lower in H1. change (JsString.toLowerCase "http://") with "http://" in H1.
    rewrite H1 in H. exfalso. revert H.
    apply (drop_prefix_ne "http://"); [discriminate | exact H1].
  - destruct (String.prefix "https://" s) eqn:H2; [|reflexivity].
    apply prefix_lower in H2. change (JsString.toLowerCase "https://") with "https://" in H2.
    rewrite H2 in H.
    destruct (String.prefix "http://" (JsString.toLowerCase s)) eqn:H3; exfalso; revert H.
    + apply (drop_prefix_ne "http://"); [discriminate | exact H3].
    + apply (drop_prefix_ne "https://"); [discriminate | exact H2].
Qed.

Lemma stripLast_absent (c : ascii) (s : string) :
  ~ In c (list_ascii_of_string s) -> JsString.stripLast c s = s.
Proof.
  induction s as [|a s IH]; [reflexivity|]. simpl. intros Hn.
  destruct s as [|b s].
  - destruct (Ascii.eqb_spec a c) as [->|_]; [|reflexivity]. exfalso. auto.
  - f_equal. apply IH. intros Hin. apply Hn. now right.
Qed.

Lemma toLowerCase_nonempty (s : string) :
  s <> EmptyString -> JsString.toLowerCase s <> EmptyString.
Proof. destruct s; [congruence | discriminate]. Qed.

(** What [validateDomain] returns, unless it still starts with a
    protocol. *)
Lemma validateDomain_result_shape (domain result : string) :
  validateDomain domain = inr result ->
  stripProtocol result = result ->
  result <> ""
  /\ JsString.includes result "." = true
  /\ (forall c, In c (list_ascii_of_string result) ->
        allowedChar c = true /\ JsString.lowerChar c = c)
  /\ isValidUrl result = true.
Proof.
  intros Hv Hp. apply validateDomain_returns in Hv as (-> & Hdot & Ht).
  set (clean := cleanDomainOf domain) in *.
  assert (Hpc : stripProtocol clean = clean) by now apply stripProtocol_lower.
  rewrite Hpc in Ht.
  assert (Hne : clean <> "").
  { intros E. rewrite E in Hdot. discriminate. }
  assert (Hne' : JsString.toLowerCase clean <> "") by now apply toLowerCase_nonempty.
  split; [exact Hne'|]. split; [now apply includes_lower|]. split.
  - intros c. rewrite chars_lower, in_map_iff. intros (a & <- & Hin). split.
    + apply lowerChar_allowed, hostname_alphabet. now apply (test_alphabet _ clean).
    + apply lowerChar_idem.
  - unfold isValidUrl. apply String.eqb_neq in Hne'. rewrite Hne', Hp.
    apply test_lower; [apply hostname_lowerClosed | exact Ht].
Qed.

(** Validating again what [validateDomain] returned returns it
    unchanged, unless it starts with "www." or a protocol. *)
Lemma validateDomain_again (domain result : string) :
  validateDomain domain = inr result ->
  stripProtocol result = result ->
  JsString.startsWith result "www." = false ->
  validateDomain result = inr result.
Proof.
  intros Hv Hp Hwww.
  destruct (validateDomain_result_shape domain result Hv Hp)
    as (Hne & Hdot & Hchars & Hvalid).
  apply validateDomain_returns in Hv as (Hres & _).
  unfold JsString.startsWith in Hwww. unfold validateDomain.
  apply String.eqb_neq in Hne as Hne'. rewrite Hne', Hp. unfold extractSite.
  rewrite Hne'. unfold JsString.stripPrefix. rewrite Hwww.
  rewrite stripLast_absent.
  - rewrite Hne', Hdot, Hvalid. cbn [negb orb]. f_equal.
    rewrite Hres. apply toLowerCase_idem.
  - intros Hin. apply Hchars in Hin as [Hin _]. discriminate.
Qed.

(** X4. What [validateDomain] returns, unless it still starts with a
    protocol: a text that is not empty, contains a dot, consists of
    lower-case letters, digits, hyphens and dots, and passes
    [isValidUrl]; and unless it starts with "www.", validating it again
    returns it unchanged. *)
Theorem validateDomain_normal_form (domain result : string) :
  validateDomain domain = inr result ->
  stripProtocol result = result ->
  result <> ""
  /\ JsString.includes result "." = true
  /\ (forall c, In c (list_ascii_of_string result) ->
        allowedChar c = true /\ JsString.lowerChar c = c)
  /\ isValidUrl result = true
  /\ (JsString.startsWith result "www." = false -> validateDomain result = inr result).
Proof.
  intros Hv Hp.
  destruct (validateDomain_result_shape domain result Hv Hp)
    as (Hne & Hdot & Hchars & Hvalid).
  repeat (split; [assumption|]).
  intros Hwww. now apply (validateDomain_again domain).
Qed.

End Hostnames.

(** ** Host names by their labels *)

Section Labels.
Import Regex.

Lemma append_nil_r (s : string) : s +:+ EmptyString = s.
Proof. induction s as [|c s IH]; [reflexivity|]. rewrite append_cons. now f_equal. Qed.

Lemma append_assoc (a b c : string) : (a +:+ b) +:+ c = a +:+ (b +:+ c).
Proof.
  induction a as [|x a IH]; [reflexivity|]. rewrite !append_cons. now f_equal.
Qed.

Lemma inClass_app (rs1 rs2 : list (ascii * ascii)) (c : ascii) :
  inClass (rs1 ++ rs2) c = inClass rs1 c || inClass rs2 c.
Proof. unfold inClass. apply existsb_app. Qed.

Lemma lang_class_inv (rs : list (ascii * ascii)) (s : string) :
  lang (Class rs) s -> exists c, s = String c EmptyString /\ inClass rs c = true.
Proof. intros H. inversion H; subst. eauto. Qed.

Lemma upto_class_lang (rs : list (ascii * ascii)) (n : nat) (m : string) :
  lang (UpTo n (Class rs)) m ->
  (String.length m <= n)%nat /\ forallb (inClass rs) (list_ascii_of_string m) = true.
Proof.
  intros H. remember (UpTo n (Class rs)) as u eqn:Hu. revert n Hu.
  induction H as [| | | | |n' r'|n' r' s1 s2 H1 _ H2 IH2| |];
    intros n Hu; inversion Hu; subst.
  - split; [simpl; lia | reflexivity].
  - apply lang_class_inv in H1 as (c & -> & Hc).
    destruct (IH2 n' eq_refl) as [Hlen Hall].
    rewrite append_cons. change (EmptyString +:+ s2) with s2.
    simpl. rewrite Hc, Hall. split; [lia | reflexivity].
Qed.

Lemma class_upto_lang (rs : list (ascii * ascii)) (m : string) :
  forall n, (String.length m <= n)%nat ->
    forallb (inClass rs) (list_ascii_of_string m) = true ->
    lang (UpTo n (Class rs)) m.
Proof.
  induction m as [|c m IH]; intros n Hlen Hall.
  - constructor.
  - simpl in Hlen, Hall. apply andb_true_iff in Hall as [Hc Hall].
    destruct n as [|n]; [lia|].
    change (String c m) with (String c EmptyString +:+ m).
    constructor; [now constructor | apply IH; [lia | assumption]].
Qed.

Lemma lastChar_snoc (m : string) (d : ascii) :
  JsString.lastChar (m +:+ String d EmptyString) = Some d.
Proof.
  induction m as [|c m IH]; [reflexivity|]. rewrite append_cons.
  cbn [JsString.lastChar]. rewrite IH.
  destruct (m +:+ String d EmptyString) eqn:E; [|reflexivity].
  apply append_nil_inv in E as [_ E]. discriminate.
Qed.

Lemma snoc_of_lastChar (s : string) (d : ascii) :
  JsString.lastChar s = Some d -> exists m, s = m +:+ String d EmptyString.
Proof.
  induction s as [|c s IH]; [discriminate|]. cbn [JsString.lastChar].
  destruct s as [|c' s].
  - intros [= ->]. exists EmptyString. reflexivity.
  - intros H. destruct (IH H) as [m Hm]. exists (String c m).
    rewrite append_cons. now f_equal.
Qed.

Lemma lastChar_none (s : string) : JsString.lastChar s = None -> s = EmptyString.
Proof.
  induction s as [|c s IH]; [reflexivity|]. cbn [JsString.lastChar].
  destruct s; [discriminate|]. intros H. apply IH in H. discriminate.
Qed.

Lemma label_lang (l : string) : lang labelRegex l <-> validLabel l = true.
Proof.
  unfold labelRegex, Opt. split.
  - intros H. inversion H as [| |r1 r2 s1 s2 H1 H2| | | | | |]; subst.
    apply lang_class_inv in H1 as (c & -> & Hc). rewrite append_cons.
    change (EmptyString +:+ s2) with s2. unfold validLabel. rewrite Hc.
    inversion H2 as [| | |r1 r2 s HL|r1 r2 s HR| | | |]; subst.
    + inversion HL; subst. reflexivity.
    + inversion HR as [| |r1 r2 m s3 Hm Hd| | | | | |]; subst.
      apply lang_class_inv in Hd as (d & -> & Hd).
      apply upto_class_lang in Hm as [Hlen Hall].
      unfold alnum in *. cbn [app] in *.
      rewrite lastChar_snoc, Hd, chars_append, forallb_app, Hall, string_length_append.
      cbn [list_ascii_of_string forallb String.length].
      change (inClass [("a", "z"); ("A", "Z"); ("0", "9"); ("-", "-")]%char d)
        with (inClass ([("a", "z"); ("A", "Z"); ("0", "9")] ++ [("-", "-")])%char d).
      rewrite inClass_app, Hd. cbn [orb andb].
      rewrite !andb_true_r. apply Nat.leb_le. lia.
  - destruct l as [|c rest]; [discriminate|]. unfold validLabel.
    rewrite !andb_true_iff. intros [[[Hc Hlen] Hall] Hlast].
    apply Nat.leb_le in Hlen.
    change (String c rest) with (String c EmptyString +:+ rest).
    constructor; [now constructor|].
    destruct (JsString.lastChar rest) as [d|] eqn:Hl.
    + apply snoc_of_lastChar in Hl as [m ->]. apply L_AltR.
      rewrite chars_append, forallb_app in Hall. apply andb_true_iff in Hall as [Hall _].
      rewrite string_length_append in Hlen. simpl in Hlen.
      constructor; [|now constructor].
      apply class_upto_lang; [lia | assumption].
    + apply lastChar_none in Hl as ->. apply L_AltL. constructor.
Qed.

Lemma validLabel_no_dot (l : string) :
  validLabel l = true -> ~ In "."%char (list_ascii_of_string l).
Proof.
  destruct l as [|c rest]; [discriminate|]. unfold validLabel.
  rewrite !andb_true_iff. intros [[[Hc _] Hall] _] [->|Hin].
  - discriminate.
  - rewrite forallb_forall in Hall. apply Hall in Hin. discriminate.
Qed.

Lemma dot_class (c : ascii) : inClass [(".", ".")]%char c = true -> c = "."%char.
Proof.
  destruct c as [[] [] [] [] [] [] [] []]; vm_compute; intros H;
    first [discriminate | reflexivity].
Qed.

Lemma dotted_lang (t : string) :
  lang (Star (Seq (Class [(".", ".")]%char) labelRegex)) t ->
  exists ls, t = dotted ls /\ forallb validLabel ls = true.
Proof.
  intros H. remember (Star (Seq (Class [(".", ".")]%char) labelRegex)) as u eqn:Hu.
  induction H as [| | | | | | |r'|r' s1 s2 H1 _ H2 IH2]; inversion Hu; subst.
  - exists []. split; reflexivity.
  - destruct (IH2 eq_refl) as (ls & -> & Hall).
    inversion H1 as [| |r1 r2 a l Ha Hl| | | | | |]; subst.
    apply lang_class_inv in Ha as (c & -> & Hc).
    apply dot_class in Hc as ->.
    exists (l :: ls). split.
    + rewrite append_cons. change (EmptyString +:+ l) with l.
      rewrite append_cons. reflexivity.
    + simpl. apply label_lang in Hl. now rewrite Hl, Hall.
Qed.

Lemma lang_dotted (ls : list string) :
  forallb validLabel ls = true ->
  lang (Star (Seq (Class [(".", ".")]%char) labelRegex)) (dotted ls).
Proof.
  induction ls as [|l ls IH]; simpl; intros Hall.
  - constructor.
  - apply andb_true_iff in Hall as [Hl Hall].
    change (String "."%char (l +:+ dotted ls))
      with (String "."%char EmptyString +:+ (l +:+ dotted ls)).
    rewrite <- append_assoc. constructor; [|now apply IH].
    constructor; [now constructor | now apply label_lang].
Qed.

Lemma splitOn_nonempty (sep : ascii) (s : string) : JsString.splitOn sep s <> [].
Proof.
  destruct s as [|c s]; simpl; [discriminate|].
  destruct (Ascii.eqb c sep); [discriminate|].
  destruct (JsString.splitOn sep s); discriminate.
Qed.

Lemma splitOn_prefix (l rest : string) :
  ~ In "."%char (list_ascii_of_string l) ->
  JsString.splitOn "." (l +:+ rest)
  = match JsString.splitOn "." rest with
    | piece :: pieces => (l +:+ piece) :: pieces
    | [] => [l]
    end.
Proof.
  induction l as [|c l IH]; intros Hn.
  - change (EmptyString +:+ rest) with rest.
    destruct (JsString.splitOn "." rest) eqn:E; [|reflexivity].
    now apply splitOn_nonempty in E.
  - rewrite append_cons. cbn [JsString.splitOn].
    destruct (Ascii.eqb_spec c ".") as [->|_]; [exfalso; apply Hn; now left|].
    rewrite IH by (intros Hin; apply Hn; now right).
    destruct (JsString.splitOn "." rest) eqn:E; [now apply splitOn_nonempty in E|].
    reflexivity.
Qed.

Lemma splitOn_dotted (ls : list string) :
  forallb validLabel ls = true ->
  forall l, ~ In "."%char (list_ascii_of_string l) ->
    JsString.splitOn "." (l +:+ dotted ls) = l :: ls.
Proof.
  induction ls as [|l1 ls IH]; intros Hall l Hl; rewrite splitOn_prefix by assumption.
  - simpl. now rewrite append_nil_r.
  - simpl in Hall. apply andb_true_iff in Hall as [H1 Hall].
    cbn [dotted fold_right JsString.splitOn]. rewrite Ascii.eqb_refl.
    fold (dotted ls).
    rewrite (IH Hall l1) by now apply validLabel_no_dot.
    now rewrite append_nil_r.
Qed.

Lemma dotted_of_splitOn (s : string) :
  exists l ls, JsString.splitOn "." s = l :: ls /\ s = l +:+ dotted ls.
Proof.
  induction s as [|c s (l & ls & Hs & Heq)].
  - exists EmptyString, []. split; reflexivity.
  - cbn [JsString.splitOn]. rewrite Hs.
    destruct (Ascii.eqb_spec c ".") as [->|_].
    + exists EmptyString, (l :: ls). split; [reflexivity|].
      simpl. now rewrite <- Heq.
    + exists (String c l), ls. split; [reflexivity|].
      rewrite append_cons. now rewrite <- Heq.
Qed.

(** X5. [isValidUrl] accepts a text exactly when what is left of it
    after one leading "http://" or "https://" is a sequence of labels
    separated by single dots, each label 1 to 63 characters long, made
    of letters, digits and hyphens, and starting and ending with a
    letter or digit.  So the empty text, an empty label (a leading,
    trailing or doubled dot) and a label of 64 characters are
    rejected. *)
Theorem isValidUrl_by_labels (url : string) :
  isValidUrl url = validHostname (stripProtocol url).
Proof.
  unfold isValidUrl, validHostname.
  destruct (String.eqb_spec url "") as [->|_]; [reflexivity|].
  set (h := stripProtocol url). apply eq_true_iff_eq. split.
  - intros Ht. apply test_lang in Ht. unfold hostnameRegex in Ht.
    inversion Ht as [| |r1 r2 l t Hl Hstar| | | | | |]; subst.
    apply dotted_lang in Hstar as (ls & -> & Hall).
    apply label_lang in Hl.
    rewrite splitOn_dotted by (auto using validLabel_no_dot).
    simpl. now rewrite Hl, Hall.
  - intros Hall. destruct (dotted_of_splitOn h) as (l & ls & Hs & Heq).
    rewrite Hs in Hall. simpl in Hall. apply andb_true_iff in Hall as [Hl Hall].
    apply lang_test. rewrite Heq. unfold hostnameRegex.
    constructor; [now apply label_lang | now apply lang_dotted].
Qed.

End Labels.

(** ** The site matcher, its order and its callers *)

Section MatcherOrder.

Lemma find_first {A : Type} (f : A -> bool) (l : list A) (x : A) :
  List.find f l = Some x ->
  exists before after,
    l = before ++ x :: after /\ f x = true /\ forall y, In y before -> f y = false.
Proof.
  induction l as [|a l IH]; simpl; [discriminate|].
  destruct (f a) eqn:Ha.
  - intros [= ->]. exists [], l. repeat split; auto. intros y [].
  - intros H. destruct (IH H) as (before & after & -> & Hx & Hb).
    exists (a :: before), after. repeat split; auto.
    intros y [<-|Hy]; auto.
Qed.

(** X6. Which site [findMatchingSite] returns: the hostname itself
    when it is registered; otherwise the first site of the registry,
    in insertion order, that the hostname is a subdomain of, not the
    most specific one. *)
Theorem findMatchingSite_first_match
    (hostname : string) (sites : list (string * SiteConfig)) (s : string) :
  findMatchingSite hostname sites = Some s ->
  (In hostname (JsMap.keys sites) /\ s = hostname)
  \/ (~ In hostname (JsMap.keys sites)
      /\ exists before after,
           JsMap.keys sites = before ++ s :: after
           /\ subdomainOf hostname s
           /\ forall k, In k before -> ~ subdomainOf hostname k).
Proof.
  unfold findMatchingSite.
  destruct (String.eqb_spec hostname "") as [->|_]; [discriminate|].
  destruct (JsMap.has sites hostname) eqn:Hhas.
  - intros [= <-]. left. split; [now apply has_keys | reflexivity].
  - assert (Hnot : ~ In hostname (JsMap.keys sites)).
    { intros Hin. apply has_keys in Hin. congruence. }
    intros H. right. split; [exact Hnot|].
    apply find_first in H as (before & after & Hk & Hs & Hb).
    exists before, after. split; [exact Hk|].
    assert (Hne : forall k, In k (JsMap.keys sites) -> String.eqb hostname k = false).
    { intros k Hin. apply String.eqb_neq. intros ->. auto. }
    split.
    + rewrite Hne in Hs by (rewrite Hk; apply in_elt).
      rewrite orb_false_r in Hs. now apply endsWith_spec in Hs.
    + intros k Hin Hsub. apply Hb in Hin. apply orb_false_iff in Hin as [Hin _].
      apply endsWith_spec in Hsub. unfold subdomainOf in *. congruence.
Qed.

Lemma findMatchingSite_registered (d : string) (sites : list (string * SiteConfig)) :
  d <> "" -> In d (JsMap.keys sites) -> findMatchingSite d sites = Some d.
Proof.
  intros Hne Hin. unfold findMatchingSite.
  destruct (String.eqb_spec d "") as [->|_]; [congruence|].
  apply has_keys in Hin. now rewrite Hin.
Qed.

Lemma findMatchingSite_subdomain (h d : string) (sites : list (string * SiteConfig)) :
  In d (JsMap.keys sites) -> subdomainOf h d -> is_Some (findMatchingSite h sites).
Proof.
  intros Hin Hsub. unfold findMatchingSite.
  destruct (String.eqb_spec h "") as [->|_].
  - destruct Hsub as [pre H]. symmetry in H. apply append_nil_inv in H as [_ H].
    rewrite append_cons in H. discriminate.
  - destruct (JsMap.has sites h); [eauto|].
    destruct (List.find _ (JsMap.keys sites)) eqn:Hfind; [eauto|].
    exfalso. eapply find_none in Hfind; [|exact Hin]. simpl in Hfind.
    apply orb_false_iff in Hfind as [Hends _].
    assert (JsString.endsWith h ("." +:+ d) = true) as Ht
      by (apply endsWith_spec; exact Hsub).
    congruence.
Qed.

Lemma extractSite_www (d : string) : extractSite ("www." +:+ d) = d.
Proof.
  unfold extractSite, JsString.stripPrefix. rewrite !append_cons.
  cbn [String.eqb].
  replace (String.prefix "www." (String "w" (String "w" (String "w" (String "." ("" +:+ d))))))
    with true by (symmetry; apply prefix_spec; now exists d).
  reflexivity.
Qed.

(** What [extractSite] leaves of a subdomain of [d] is [d] or again a
    subdomain of [d]. *)
Lemma extractSite_subdomain (pre d : string) :
  extractSite (pre +:+ "." +:+ d) = d
  \/ subdomainOf (extractSite (pre +:+ "." +:+ d)) d.
Proof.
  unfold extractSite, JsString.stripPrefix.
  destruct (String.eqb_spec (pre +:+ "." +:+ d) "") as [E|_].
  - apply append_nil_inv in E as [_ E]. rewrite append_cons in E. discriminate.
  - destruct (String.prefix "www." (pre +:+ "." +:+ d)) eqn:Hp;
      [|right; now exists pre].
    apply prefix_spec in Hp as [rest Hp]. rewrite Hp.
    change (String.length "www.") with 4%nat.
    change (JsString.drop 4 ("www." +:+ rest)) with rest.
    rewrite !append_cons in Hp. change (EmptyString +:+ rest) with rest in Hp.
    destruct pre as [|c1 [|c2 [|c3 [|c4 pre]]]];
      rewrite ?append_cons in Hp; change (EmptyString +:+ d) with d in Hp;
      try discriminate.
    + injection Hp as _ _ _ <-. left. reflexivity.
    + injection Hp as _ _ _ _ <-. right. exists pre. reflexivity.
Qed.

(** X7. The site a page is accounted to (lines 148-150): a page on a
    registered domain, with or without "www." in front, is accounted to
    that domain, and a page on any subdomain of a registered domain is
    accounted to some registered site. *)
Theorem registered_pages_are_matched
    (d : string) (sites : list (string * SiteConfig)) :
  d <> "" ->
  In d (JsMap.keys sites) ->
  findMatchingSite (extractSite ("www." +:+ d)) sites = Some d
  /\ (JsString.startsWith d "www." = false ->
      findMatchingSite (extractSite d) sites = Some d)
  /\ forall pre, is_Some (findMatchingSite (extractSite (pre +:+ "." +:+ d)) sites).
Proof.
  intros Hne Hin. split; [|split].
  - rewrite extractSite_www. now apply findMatchingSite_registered.
  - intros Hw. unfold extractSite, JsString.stripPrefix.
    unfold JsString.startsWith in Hw. rewrite Hw.
    pose proof Hne as Hne'. apply String.eqb_neq in Hne' as ->.
    now apply findMatchingSite_registered.
  - intros pre. destruct (extractSite_subdomain pre d) as [-> | Hsub].
    + rewrite findMatchingSite_registered by assumption. eauto.
    + now apply (findMatchingSite_subdomain _ d).
Qed.

(** X8. [Site.matches] and [findMatchingSite] agree: a site matches a
    hostname exactly when [findMatchingSite] finds the site's domain
    for it in a registry that holds only this site. *)
Theorem matches_agrees_with_findMatchingSite
    (s : SiteClass.Site) (config : SiteConfig) (hostname : string) :
  SiteClass.matches s hostname = true
  <-> findMatchingSite hostname [(SiteClass.domain s, config)] = Some (SiteClass.domain s).
Proof.
  unfold SiteClass.matches, findMatchingSite, JsMap.has.
  cbn [JsMap.get JsMap.keys map fst List.find].
  destruct (String.eqb_spec hostname "") as [->|Hne]; [split; discriminate|].
  rewrite (String.eqb_sym (SiteClass.domain s) hostname).
  destruct (String.eqb_spec hostname (SiteClass.domain s)) as [->|Hd]; [tauto|].
  rewrite orb_false_r.
  destruct (JsString.endsWith hostname ("." +:+ SiteClass.domain s)); split;
    congruence.
Qed.

End MatcherOrder.

(** ** The [Site] class *)

Section SiteObjects.

Lemma validateTimeLimit_result (x y : JsNum) :
  validateTimeLimit x = inr y -> exists n, 1 <= n <= 480 /\ y = ofZ n.
Proof.
  destruct x as [| | |q]; try discriminate.
  unfold validateTimeLimit, gt, ofZ. simpl isNaN. cbv iota. simpl floor.
  destruct (lt (Num q) (Num (inject_Z 1))) eqn:Hlo; [discriminate|].
  destruct (lt (Num (inject_Z 480)) (Num q)) eqn:Hhi; [discriminate|].
  simpl. intros [= <-]. exists (Qfloor q). split; [|reflexivity].
  apply Qfloor_range.
  - apply Qnot_lt_le. intros H. apply lt_num in H. congruence.
  - apply Qnot_lt_le. intros H. apply lt_num in H. congruence.
Qed.

Lemma validateTimeLimit_integer (n : Z) :
  1 <= n <= 480 -> validateTimeLimit (ofZ n) = inr (ofZ n).
Proof.
  intros Hn. unfold validateTimeLimit, gt, ofZ. cbn [isNaN floor].
  destruct (lt (Num (inject_Z n)) (Num (inject_Z 1))) eqn:Hlo.
  { apply lt_num in Hlo. rewrite <- Zlt_Qlt in Hlo. lia. }
  destruct (lt (Num (inject_Z 480)) (Num (inject_Z n))) eqn:Hhi.
  { apply lt_num in Hhi. rewrite <- Zlt_Qlt in Hhi. lia. }
  cbn [orb]. now rewrite Qfloor_Z.
Qed.

Lemma toBoolean_integer (n : Z) : 1 <= n -> toBoolean (ofZ n) = true.
Proof.
  intros Hn. unfold toBoolean, ofZ.
  destruct (Qeq_bool (inject_Z n) 0) eqn:E; [|reflexivity].
  apply Qeq_bool_eq in E. unfold Qeq in E. simpl in E. lia.
Qed.

Lemma new_valid (d : string) (config : SiteClass.PartialConfig) (s : SiteClass.Site) :
  SiteClass.new d config = inr s ->
  validateDomain d = inr (SiteClass.domain s)
  /\ (exists n, 1 <= n <= 480 /\ SiteClass.timeLimit s = ofZ n)
  /\ (forall t, SiteClass.timeLimitOpt config = Some t -> toBoolean t = false ->
        SiteClass.timeLimit s = ofZ 30).
Proof.
  unfold SiteClass.new.
  destruct (validateDomain d) as [err|v]; [discriminate|].
  destruct (SiteClass.timeLimitOpt config) as [t|].
  - destruct (toBoolean t) eqn:Hb.
    + destruct (validateTimeLimit t) as [err|y] eqn:Hv; [discriminate|].
      intros [= <-]. cbn. split; [reflexivity|].
      split; [|intros t' [= <-] Hf; congruence].
      now apply (validateTimeLimit_result t).
    + intros [= <-]. cbn. split; [reflexivity|]. split; [|reflexivity].
      exists 30. split; [lia | reflexivity].
  - intros [= <-]. cbn. split; [reflexivity|]. split; [|discriminate].
    exists 30. split; [lia | reflexivity].
Qed.

Lemma applyAll_valid (ops : list SiteClass.Op) :
  forall s s' : SiteClass.Site,
    SiteClass.applyAll ops s = inr s' ->
    (exists n, 1 <= n <= 480 /\ SiteClass.timeLimit s = ofZ n) ->
    SiteClass.domain s' = SiteClass.domain s
    /\ SiteClass.isDefault s' = SiteClass.isDefault s
    /\ exists n, 1 <= n <= 480 /\ SiteClass.timeLimit s' = ofZ n.
Proof.
  induction ops as [|[|minutes] ops IH]; intros s s'; cbn [SiteClass.applyAll].
  - intros [= <-]. auto.
  - intros H Hs. destruct (IH _ _ H) as (Hd & Hi & Hn); [exact Hs | auto].
  - unfold SiteClass.setTimeLimit.
    destruct (validateTimeLimit minutes) as [err|y] eqn:Hv; [discriminate|].
    intros H _. apply validateTimeLimit_result in Hv.
    destruct (IH _ _ H) as (Hd & Hi & Hn); [exact Hv | auto].
Qed.

(** A number that is not truthy, that is 0 or [NaN], is not a valid
    time limit on its own. *)
Lemma validateTimeLimit_falsy (t : JsNum) :
  toBoolean t = false ->
  exists message, validateTimeLimit t = inl (MkValidationError message).
Proof.
  destruct t as [| | |q]; cbn [toBoolean]; try discriminate.
  - intros _. eexists. reflexivity.
  - intros Hq. apply negb_false_iff, Qeq_bool_eq in Hq.
    unfold validateTimeLimit, ofZ. cbn [isNaN].
    replace (lt (Num q) (Num (inject_Z 1))) with true
      by (symmetry; apply lt_num; rewrite Hq; reflexivity).
    eexists. reflexivity.
Qed.

(** The constructor given a limit that is not truthy does not call
    [validateTimeLimit]: with a valid domain it returns the site with
    the limit 30. *)
Lemma new_falsy_limit (d validDomain : string) (config : SiteClass.PartialConfig)
    (t : JsNum) :
  validateDomain d = inr validDomain ->
  SiteClass.timeLimitOpt config = Some t ->
  toBoolean t = false ->
  SiteClass.new d config
  = inr {| SiteClass.domain := validDomain;
           SiteClass.enabled :=
             match SiteClass.enabledOpt config with Some b => b | None => true end;
           SiteClass.timeLimit := ofZ 30;
           SiteClass.isDefault :=
             match SiteClass.isDefaultOpt config with Some b => b | None => false end |}.
Proof.
  intros Hd Ht Hb. unfold SiteClass.new. now rewrite Hd, Ht, Hb.
Qed.

(** X9. Every [Site] object, as built by the constructor and changed
    by any calls of [toggle] and [setTimeLimit] that did not throw,
    has a whole number from 1 to 480 as its limit, the domain that
    [validateDomain] returned and the [isDefault] flag it was built
    with.  A limit of 0 or [NaN], which [validateTimeLimit] rejects,
    does not make the constructor throw: whenever the domain is valid
    the constructor returns the site with that domain, the limit 30 and
    the flags of the configuration ([enabled] by default, not
    [isDefault] by default). *)
Theorem site_invariant
    (d : string) (config : SiteClass.PartialConfig) (ops : list SiteClass.Op) :
  (forall s s' : SiteClass.Site,
      SiteClass.new d config = inr s ->
      SiteClass.applyAll ops s = inr s' ->
      (exists n, 1 <= n <= 480 /\ SiteClass.timeLimit s' = ofZ n)
      /\ validateDomain d = inr (SiteClass.domain s')
      /\ SiteClass.isDefault s' = SiteClass.isDefault s)
  /\ (forall (t : JsNum) (validDomain : string),
        validateDomain d = inr validDomain ->
        SiteClass.timeLimitOpt config = Some t ->
        toBoolean t = false ->
        (exists message, validateTimeLimit t = inl (MkValidationError message))
        /\ SiteClass.new d config
           = inr {| SiteClass.domain := validDomain;
                    SiteClass.enabled :=
                      match SiteClass.enabledOpt config with
                      | Some b => b
                      | None => true
                      end;
                    SiteClass.timeLimit := ofZ 30;
                    SiteClass.isDefault :=
                      match SiteClass.isDefaultOpt config with
                      | Some b => b
                      | None => false
                      end |}).
Proof.
  split.
  - intros s s' Hnew Hops. destruct (new_valid _ _ _ Hnew) as (Hd & Hn & _).
    destruct (applyAll_valid _ _ _ Hops Hn) as (Hd' & Hi' & Hn').
    rewrite Hd'. auto.
  - intros t validDomain Hd Ht Hb. split.
    + now apply validateTimeLimit_falsy.
    + exact (new_falsy_limit d validDomain config t Hd Ht Hb).
Qed.

(** X10. A [Site] object written with [toJSON] and read back with
    [fromJSON] under its own domain is the same object, provided the
    domain starts neither with "www." nor with a protocol. *)
Theorem site_json_round_trip
    (d : string) (config : SiteClass.PartialConfig) (ops : list SiteClass.Op)
    (s s' : SiteClass.Site) :
  SiteClass.new d config = inr s ->
  SiteClass.applyAll ops s = inr s' ->
  stripProtocol (SiteClass.domain s') = SiteClass.domain s' ->
  JsString.startsWith (SiteClass.domain s') "www." = false ->
  SiteClass.fromJSON (SiteClass.domain s') (SiteClass.toJSON s') = inr s'.
Proof.
  intros Hnew Hops Hp Hw. destruct (new_valid _ _ _ Hnew) as (Hd & Hn & _).
  destruct (applyAll_valid _ _ _ Hops Hn) as (Hd' & _ & (n & Hrange & Hlimit)).
  rewrite <- Hd' in Hd.
  pose proof (validateDomain_again _ _ Hd Hp Hw) as Hfix.
  unfold SiteClass.fromJSON, SiteClass.new, SiteClass.asPartial, SiteClass.toJSON.
  cbn [SiteClass.enabledOpt SiteClass.timeLimitOpt SiteClass.isDefaultOpt
       SiteClass.cfgEnabled SiteClass.cfgTimeLimit SiteClass.cfgIsDefault].
  rewrite Hfix, Hlimit, toBoolean_integer by lia.
  rewrite validateTimeLimit_integer by assumption.
  rewrite <- Hlimit. now destruct s'.
Qed.

End SiteObjects.

(** ** Numbers and times *)

Section Clamp.

Lemma ge_total (x y : JsNum) :
  isNaN x = false -> isNaN y = false -> ge x y = false -> ge y x = true /\ lt x y = true.
Proof.
  destruct x as [| | |a], y as [| | |b]; cbn; try discriminate; auto.
  intros _ _. rewrite <- (Qcompare_antisym a b).
  destruct (Qcompare a b); cbn; try discriminate; auto.
Qed.

Lemma lt_not_ge (x y : JsNum) : lt x y = true -> ge x y = false /\ ge y x = true.
Proof.
  destruct x as [| | |a], y as [| | |b]; cbn; try discriminate; auto.
  rewrite <- (Qcompare_antisym a b).
  destruct (Qcompare a b); cbn; try discriminate; auto.
Qed.

Lemma ge_trans (x y z : JsNum) : ge x y = true -> ge y z = true -> ge x z = true.
Proof.
  destruct x as [| | |a], y as [| | |b], z as [| | |c]; cbn; try discriminate; auto.
  change (ge (Num a) (Num b) = true -> ge (Num b) (Num c) = true -> ge (Num a) (Num c) = true).
  rewrite !ge_num. intros H1 H2. now apply (Qle_trans _ b).
Qed.

Lemma ge_refl (x : JsNum) : isNaN x = false -> ge x x = true.
Proof.
  destruct x as [| | |a]; cbn; try discriminate; auto.
  intros _. change (ge (Num a) (Num a) = true). apply ge_num. apply Qle_refl.
Qed.

Lemma max_cases (x y : JsNum) :
  isNaN x = false -> isNaN y = false ->
  JsNumber.max x y = if ge x y then x else y.
Proof. destruct x, y; try discriminate; reflexivity. Qed.

Lemma min_cases (x y : JsNum) :
  isNaN x = false -> isNaN y = false ->
  JsNumber.min x y = if le x y then x else y.
Proof. destruct x, y; try discriminate; reflexivity. Qed.

(** X11. [clamp]: with bounds in order the result lies between them,
    is the value itself when the value lies between them, and the
    nearer bound otherwise; with the bounds out of order the result is
    the upper bound, whatever the value; and if any of the three
    numbers is [NaN], so is the result. *)
Theorem clamp_spec (value lo hi : JsNum) :
  (isNaN value || isNaN lo || isNaN hi = true -> clamp value lo hi = NaN)
  /\ (isNaN value = false -> isNaN lo = false -> isNaN hi = false ->
      (le lo hi = true ->
         le lo (clamp value lo hi) = true /\ le (clamp value lo hi) hi = true)
      /\ (le lo value = true -> le value hi = true -> clamp value lo hi = value)
      /\ (le lo hi = true -> lt value lo = true -> clamp value lo hi = lo)
      /\ (le lo hi = true -> lt hi value = true -> clamp value lo hi = hi)
      /\ (lt hi lo = true -> clamp value lo hi = hi)).
Proof.
  split.
  - destruct value, lo, hi; cbn; try discriminate; try reflexivity;
      unfold clamp, JsNumber.max;
      repeat match goal with
             | |- context [if ?b then _ else _] => destruct b
             end; reflexivity.
  - intros Hv Hl Hh. unfold clamp, le.
    rewrite (max_cases value lo Hv Hl).
    assert (Hm : isNaN (if ge value lo then value else lo) = false)
      by (destruct (ge value lo); assumption).
    rewrite (min_cases _ hi Hm Hh). unfold le.
    pose proof (ge_refl lo Hl) as Rl. pose proof (ge_refl hi Hh) as Rh.
    destruct (ge value lo) eqn:Hvl.
    + destruct (ge hi value) eqn:Hhv.
      * split; [auto|]. split; [auto|]. split; [|split].
        -- intros _ H. apply lt_not_ge in H as [H _]. congruence.
        -- intros _ H. apply lt_not_ge in H as [H _]. congruence.
        -- intros H. apply lt_not_ge in H as [H _].
           rewrite (ge_trans hi value lo Hhv Hvl) in H. discriminate.
      * destruct (ge_total hi value Hh Hv Hhv) as [Hge Hlt].
        split; [auto|]. split; [discriminate|]. split; [|split]; auto.
        intros _ H. apply lt_not_ge in H as [H _]. congruence.
    + destruct (ge_total value lo Hv Hl Hvl) as [Hge Hlt].
      destruct (ge hi lo) eqn:Hhl.
      * split; [auto|]. split; [discriminate|]. split; [auto|]. split.
        -- intros _ H. apply lt_not_ge in H as [_ H].
           rewrite (ge_trans value hi lo H Hhl) in Hvl. discriminate.
        -- intros H. apply lt_not_ge in H as [H _]. congruence.
      * split; [discriminate|]. split; [discriminate|].
        split; [discriminate|]. split; [discriminate|]. reflexivity.
Qed.

End Clamp.

Section TimeTexts.

(** X12. The text [formatTime] gives is that of the time rounded down:
    to a whole second always, and from one minute on to a whole
    minute; below one second it is "0s". *)
Theorem formatTime_rounds_down (timeMs : Z) :
  formatTime timeMs = formatTime (timeMs / 1000 * 1000)
  /\ (60000 <= timeMs -> formatTime timeMs = formatTime (timeMs / 60000 * 60000))
  /\ (timeMs < 1000 -> formatTime timeMs = "0s").
Proof.
  assert (Hsmall : timeMs < 1000 -> formatTime timeMs = "0s").
  { intros Hlt. unfold formatTime.
    destruct (Z.eqb_spec timeMs 0) as [->|H0]; [reflexivity|].
    destruct (Z.ltb_spec timeMs 0) as [Hneg|Hpos]; [reflexivity|].
    cbn [orb]. replace (timeMs / 1000) with 0 by (symmetry; apply Z.div_small; lia).
    reflexivity. }
  split; [|split; [|exact Hsmall]].
  - destruct (Z.lt_ge_cases timeMs 1000) as [Hlt|Hge].
    + rewrite (Hsmall Hlt). symmetry.
      assert (timeMs / 1000 <= 0).
      { apply Z.lt_succ_r. apply Z.div_lt_upper_bound; lia. }
      unfold formatTime.
      destruct (Z.eqb_spec (timeMs / 1000 * 1000) 0); [reflexivity|].
      destruct (Z.ltb_spec (timeMs / 1000 * 1000) 0); [reflexivity | lia].
    + assert (1 <= timeMs / 1000) by (apply Z.div_le_lower_bound; lia).
      unfold formatTime. rewrite Z.div_mul by lia.
      destruct (Z.eqb_spec timeMs 0); [lia|].
      destruct (Z.ltb_spec timeMs 0); [lia|].
      destruct (Z.eqb_spec (timeMs / 1000 * 1000) 0); [lia|].
      destruct (Z.ltb_spec (timeMs / 1000 * 1000) 0); [lia|].
      reflexivity.
  - intros Hge.
    assert (H1 : 1 <= timeMs / 60000) by (apply Z.div_le_lower_bound; lia).
    assert (Hs : timeMs / 1000 / 60 = timeMs / 60000)
      by (rewrite Z.div_div by lia; reflexivity).
    assert (Hs' : timeMs / 60000 * 60000 / 1000 / 60 = timeMs / 60000)
      by (rewrite Z.div_div by lia; apply Z.div_mul; lia).
    unfold formatTime. cbv zeta. rewrite Hs, Hs'.
    destruct (Z.eqb_spec timeMs 0); [lia|].
    destruct (Z.ltb_spec timeMs 0); [lia|].
    destruct (Z.eqb_spec (timeMs / 60000 * 60000) 0); [lia|].
    destruct (Z.ltb_spec (timeMs / 60000 * 60000) 0); [lia|].
    cbn [orb].
    destruct (Z.ltb_spec 0 (timeMs / 60000 / 60)); [reflexivity|].
    destruct (Z.ltb_spec 0 (timeMs / 60000)); [reflexivity | lia].
Qed.

(** X13. The countdown of the blocked page: the time to the next local
    midnight is more than nothing and at most a day, and the three
    numbers shown are its whole hours, from 0 to 24, the minutes,
    from 0 to 59, and the seconds, from 0 to 59, with less than a
    second left out; 24 hours are shown only at midnight itself, as
    24:00:00. *)
Theorem countdown_parts (e : Env) :
  let '(hours, minutes, seconds) := Blocked.countdownParts e in
  let timeDiff := getNextMidnight e - now e in
  0 < timeDiff <= msPerDay
  /\ 0 <= hours <= 24 /\ 0 <= minutes < 60 /\ 0 <= seconds < 60
  /\ hours * 3600000 + minutes * 60000 + seconds * 1000 <= timeDiff
     < hours * 3600000 + minutes * 60000 + seconds * 1000 + 1000
  /\ (hours = 24 -> minutes = 0 /\ seconds = 0 /\ timeDiff = msPerDay).
Proof.
  unfold Blocked.countdownParts. cbv zeta.
  set (d := getNextMidnight e - now e).
  assert (Hd : 0 < d <= msPerDay).
  { subst d. unfold getNextMidnight, localDay.
    set (off := timezoneOffset e * 60000). set (x := now e - off).
    assert (HD : 0 < msPerDay) by reflexivity.
    pose proof (Z.mul_div_le x msPerDay HD).
    pose proof (Z.mul_succ_div_gt x msPerDay HD).
    subst x. lia. }
  change msPerDay with 86400000 in *.
  change (1000 * 60 * 60) with 3600000. change (1000 * 60) with 60000.
  rewrite !Z.rem_mod_nonneg by lia.
  pose proof (Z.div_mod d 3600000 ltac:(lia)) as E1.
  pose proof (Z.mod_pos_bound d 3600000 ltac:(lia)) as B1.
  pose proof (Z.div_mod (d mod 3600000) 60000 ltac:(lia)) as E2.
  pose proof (Z.mod_pos_bound (d mod 3600000) 60000 ltac:(lia)) as B2.
  pose proof (Z.div_mod d 60000 ltac:(lia)) as E3.
  pose proof (Z.mod_pos_bound d 60000 ltac:(lia)) as B3.
  pose proof (Z.div_mod (d mod 60000) 1000 ltac:(lia)) as E4.
  pose proof (Z.mod_pos_bound (d mod 60000) 1000 ltac:(lia)) as B4.
  set (h := d / 3600000) in *. set (r1 := d mod 3600000) in *.
  set (m := r1 / 60000) in *. set (r2 := r1 mod 60000) in *.
  set (q := d / 60000) in *. set (r3 := d mod 60000) in *.
  set (s := r3 / 1000) in *. set (r4 := r3 mod 1000) in *.
  clearbody h r1 m r2 q r3 s r4.
  assert (r2 = r3) by lia. subst r2.
  repeat split; lia.
Qed.

End TimeTexts.

(** ** Focus events that start a session, and those that do not *)

Section FocusStart.

(** X14. A focus event on a page of a tracked, enabled site whose
    ledger entry for the day is below the limit starts a session: the
    previous session is stopped, the session is on this tab and site
    from the [now] of the last segment, and one new timer is set, under
    the id recorded in [trackingInterval]; the store is not written.
    A failed read of the ledger counts as no time spent: the session
    starts although the stored entry may have reached the limit. *)
Theorem focus_starts_session
    (e1 e2 e3 : Env) (tabId : Z) (tab : Tab) (r : Response) (w : World)
    (matchedSite : string) :
  resolvesTo e2 tab (state w) matchedSite ->
  (if isRejected r then 0 else spent w matchedSite (getTodayString e2))
    < getSiteTimeLimit (state w) matchedSite ->
  let w' := focus e1 e2 e3 tabId tab r w in
  activeTab (state w') = Some {| site := matchedSite; tabId := tabId |}
  /\ sessionStartTime (state w') = Some (now e3)
  /\ lastUpdateTime (state w') = now e3
  /\ trackingInterval (state w') = Some (nextInterval w)
  /\ intervals w' = nextInterval w :: intervals (stopTracking e1 w)
  /\ (forall id, trackingInterval (state w) = Some id -> ~ In id (intervals (stopTracking e1 w)))
  /\ nextInterval w' = Pos.succ (nextInterval w)
  /\ storage w' = storage w
  /\ pending w' = pending (stopTracking e1 w)
  /\ (forall error, r = Rejected error ->
        In (ConsoleError "Error getting time data:" error) (console w')).
Proof.
  intros Hres Hlt w'. subst w'. unfold focus.
  rewrite (focus_resolved e1 e2 tabId tab w matchedSite Hres).
  rewrite completeLast_suspend.
  destruct (stopTracking_clears e1 w) as (Ha & Hs & Ht).
  destruct (stopTracking_frame e1 w) as (Hst & Hsites & Hdef & Hn & Hi).
  assert (Hlimit : getSiteTimeLimit (state (stopTracking e1 w)) matchedSite
                   = getSiteTimeLimit (state w) matchedSite)
    by (unfold getSiteTimeLimit; now rewrite Hsites, Hdef).
  assert (Hold : forall id, trackingInterval (state w) = Some id ->
                   ~ In id (intervals (stopTracking e1 w))).
  { intros id Hid. rewrite Hi, Hid. intros Hin.
    apply filter_In in Hin as [_ Hin]. rewrite Pos.eqb_refl in Hin. discriminate. }
  set (w0 := stopTracking e1 w) in *. clearbody w0.
  cbn [resume]. unfold getTimeData_resume.
  destruct r as [|error|t]; cbn [isRejected] in Hlt.
  - unfold spent in Hlt. rewrite <- Hst in Hlt.
    replace (timeSpent match storage w0 !! storageKey matchedSite (getTodayString e2) with
                       | Some stored => stored
                       | None => {| timeSpent := 0; date := getTodayString e2;
                                    lastUpdate := now e3 |}
                       end >=? getSiteTimeLimit (state w0) matchedSite) with false
      by (symmetry; apply geb_lt; rewrite Hlimit;
          destruct (storage w0 !! storageKey matchedSite (getTodayString e2)); exact Hlt).
    pose proof (startTracking_effect e3 matchedSite tabId w0) as H. cbv zeta in H.
    rewrite (stopTracking_idle e3 w0 Ha Hs Ht) in H.
    destruct H as (H1 & H2 & H3 & H4 & H5 & H6 & H7 & H8 & H9).
    rewrite H1, H2, H3, H4, H5, H6, H7, H8, Hn, Hst.
    repeat (split; [first [reflexivity | assumption]|]). discriminate.
  - cbn [timeSpent state log].
    replace (0 >=? getSiteTimeLimit (state w0) matchedSite) with false
      by (symmetry; apply geb_lt; rewrite Hlimit; exact Hlt).
    pose proof (startTracking_effect e3 matchedSite tabId
                  (log (ConsoleError "Error getting time data:" error) w0)) as H.
    cbv zeta in H. rewrite (stopTracking_log_idle e3 _ w0 Ha Hs Ht) in H.
    destruct H as (H1 & H2 & H3 & H4 & H5 & H6 & H7 & H8 & H9).
    rewrite H1, H2, H3, H4, H5, H6, H7, H8, H9. cbn [nextInterval intervals storage pending console log].
    rewrite Hn, Hst.
    repeat (split; [first [reflexivity | assumption]|]).
    intros error' [= <-]. now left.
  - unfold spent in Hlt. rewrite <- Hst in Hlt.
    replace (timeSpent match storage w0 !! storageKey matchedSite (getTodayString e2) with
                       | Some stored => stored
                       | None => {| timeSpent := 0; date := getTodayString e2;
                                    lastUpdate := now e3 |}
                       end >=? getSiteTimeLimit (state w0) matchedSite) with false
      by (symmetry; apply geb_lt; rewrite Hlimit;
          destruct (storage w0 !! storageKey matchedSite (getTodayString e2)); exact Hlt).
    pose proof (startTracking_effect e3 matchedSite tabId w0) as H. cbv zeta in H.
    rewrite (stopTracking_idle e3 w0 Ha Hs Ht) in H.
    destruct H as (H1 & H2 & H3 & H4 & H5 & H6 & H7 & H8 & H9).
    rewrite H1, H2, H3, H4, H5, H6, H7, H8, Hn, Hst.
    repeat (split; [first [reflexivity | assumption]|]). discriminate.
Qed.

(** X15. A focus event that finds no page of a tracked and enabled
    site (the tab query gave nothing, the tab has no URL or a browser
    page, the URL does not parse, no registered site matches, or the
    site is disabled) only stops the previous session: no tab is
    tracked afterwards, the session's timer is cancelled, nothing is
    written and no further browser call is made. *)
Theorem focus_on_untracked_page
    (e1 e2 : Env) (tabId : Z) (found : option Tab) (w : World) :
  (forall tab matchedSite, found = Some tab -> ~ resolvesTo e2 tab (state w) matchedSite) ->
  let w' := completeLast (TabResult found) e2 (handleTabChange e1 tabId w) in
  (w' = stopTracking e1 w
   \/ w' = log (ConsoleError "Error handling tab change:" "Invalid URL") (stopTracking e1 w))
  /\ activeTab (state w') = None
  /\ sessionStartTime (state w') = None
  /\ trackingInterval (state w') = None
  /\ (forall id, trackingInterval (state w) = Some id -> ~ In id (intervals w'))
  /\ storage w' = storage w
  /\ pending w' = pending (stopTracking e1 w).
Proof.
  intros Hnone w'.
  assert (Hw : w' = stopTracking e1 w
               \/ w' = log (ConsoleError "Error handling tab change:" "Invalid URL")
                         (stopTracking e1 w)).
  { subst w'. unfold handleTabChange. rewrite completeLast_suspend. cbn [resume].
    destruct (stopTracking_frame e1 w) as (_ & Hsites & _). rewrite Hsites.
    destruct found as [tab|]; [|now left].
    destruct (url tab) as [u|] eqn:Hu; [|now left].
    destruct (String.eqb_spec u "") as [->|Hne]; [now left|].
    destruct (isSystemUrl u) eqn:Hsys; [now left|]. cbn [orb].
    destruct (hostnameOf e2 u) as [hostname|] eqn:Hh; [|now right].
    destruct (findMatchingSite (extractSite hostname) (sites (state w)))
      as [matchedSite|] eqn:Hm; [|now left].
    destruct (String.eqb_spec matchedSite "") as [->|Hms]; [now left|].
    destruct (JsMap.get (sites (state w)) matchedSite) as [siteConfig|] eqn:Hg; [|now left].
    destruct (enabled siteConfig) eqn:Hen; [|now left].
    exfalso. apply (Hnone tab matchedSite eq_refl).
    exists u, hostname, siteConfig. auto 10. }
  split; [exact Hw|].
  destruct (stopTracking_clears e1 w) as (Ha & Hs & Ht).
  destruct (stopTracking_frame e1 w) as (Hst & _ & _ & _ & Hi).
  assert (Hold : forall id, trackingInterval (state w) = Some id ->
                   ~ In id (intervals (stopTracking e1 w))).
  { intros id Hid. rewrite Hi, Hid. intros Hin.
    apply filter_In in Hin as [_ Hin]. rewrite Pos.eqb_refl in Hin. discriminate. }
  destruct Hw as [-> | ->]; cbn [state storage pending intervals log]; auto 10.
Qed.

End FocusStart.

(** ** Ticks that reach the limit, and the flush of a stopped session *)

Section TickEnd.

Lemma updateTimeSpent_first_segment (e : Env) (w : World) (tab : TabInfo) (start : Z) :
  activeTab (state w) = Some tab ->
  sessionStartTime (state w) = Some start ->
  start <> 0 ->
  exists w1,
    updateTimeSpent e w
    = suspend (UpdateTimeSpent_getTimeData (site tab) (now e) (now e - start)
                 (getTodayString e)) w1
    /\ flushSession e w = updateTimeSpent e w
    /\ storage w1 = storage w
    /\ pending w1 = pending w
    /\ intervals w1 = intervals w
    /\ nextInterval w1 = nextInterval w
    /\ activeTab (state w1) = Some tab
    /\ sessionStartTime (state w1) <> None
    /\ trackingInterval (state w1) = trackingInterval (state w)
    /\ maxUpdateInterval (state w1) = maxUpdateInterval (state w)
    /\ warningThreshold (state w1) = warningThreshold (state w)
    /\ sites (state w1) = sites (state w)
    /\ defaultTimeLimit (state w1) = defaultTimeLimit (state w).
Proof.
  intros Ha Hs Hne. unfold flushSession, updateTimeSpent, updateTimeSpent_session.
  rewrite Ha, Hs. apply Z.eqb_neq in Hne. rewrite Hne. cbn [negb].
  destruct (now e - start >? maxUpdateInterval (state w)).
  - eexists. split; [reflexivity|]. cbn. repeat split; auto; discriminate.
  - exists w. repeat split; auto; congruence.
Qed.

Lemma resume_update_read_full (site : string) (now sessionTime : Z) (today : string)
    (r : Response) (e : Env) (w : World) :
  let base :=
    if isRejected r then 0
    else match storage w !! storageKey site today with
         | Some stored => timeSpent stored
         | None => 0
         end in
  let total := base + Z.min sessionTime (maxUpdateInterval (state w)) in
  exists w2,
    resume (UpdateTimeSpent_getTimeData site now sessionTime today) r e w
    = suspend (UpdateTimeSpent_setTimeData site now total
                 {| timeSpent := total; date := getTodayString e; lastUpdate := now |}) w2
    /\ state w2 = state w
    /\ storage w2 = storage w
    /\ intervals w2 = intervals w
    /\ nextInterval w2 = nextInterval w
    /\ pending w2 = pending w.
Proof.
  cbn [resume]. unfold getTimeData_resume.
  destruct r as [|error|t]; cbn [isRejected].
  - exists w. destruct (storage w !! storageKey site today);
      cbn [timeSpent]; repeat split; auto.
  - exists (log (ConsoleError "Error getting time data:" error) w).
    cbn [timeSpent state log storage intervals nextInterval pending].
    repeat split; auto.
  - exists w. destruct (storage w !! storageKey site today);
      cbn [timeSpent]; repeat split; auto.
Qed.

Lemma resume_update_write_full (site : string) (now total : Z) (data : TimeData)
    (r : Response) (e : Env) (w : World) :
  exists w3,
    resume (UpdateTimeSpent_setTimeData site now total data) r e w
    = checkTimeThresholds site total w3
    /\ storage w3
       = (if isRejected r then storage w
          else <[storageKey site (date data) := data]> (storage w))
    /\ activeTab (state w3) = activeTab (state w)
    /\ sessionStartTime (state w3) = Some now
    /\ trackingInterval (state w3) = trackingInterval (state w)
    /\ sites (state w3) = sites (state w)
    /\ defaultTimeLimit (state w3) = defaultTimeLimit (state w)
    /\ warningThreshold (state w3) = warningThreshold (state w)
    /\ maxUpdateInterval (state w3) = maxUpdateInterval (state w)
    /\ intervals w3 = intervals w
    /\ nextInterval w3 = nextInterval w
    /\ pending w3 = pending w.
Proof.
  cbn [resume]. eexists. split; [reflexivity|].
  destruct r as [|error|t]; cbn; repeat split; auto.
Qed.

(** One tick is the threshold check over a world in which only the
    ledger entry and the start time of the session have changed. *)
Lemma tick_shape (e1 e2 e3 : Env) (r1 r2 : Response) (w : World)
    (tab : TabInfo) (start : Z) :
  activeTab (state w) = Some tab ->
  sessionStartTime (state w) = Some start ->
  start <> 0 ->
  let base := if isRejected r1 then 0 else spent w (site tab) (getTodayString e1) in
  let total := base + Z.min (now e1 - start) (maxUpdateInterval (state w)) in
  exists w3,
    tick e1 e2 e3 r1 r2 w = checkTimeThresholds (site tab) total w3
    /\ activeTab (state w3) = Some tab
    /\ sessionStartTime (state w3) = Some (now e1)
    /\ trackingInterval (state w3) = trackingInterval (state w)
    /\ sites (state w3) = sites (state w)
    /\ defaultTimeLimit (state w3) = defaultTimeLimit (state w)
    /\ warningThreshold (state w3) = warningThreshold (state w)
    /\ intervals w3 = intervals w
    /\ nextInterval w3 = nextInterval w
    /\ pending w3 = pending w.
Proof.
  intros Ha Hs Hne base total. unfold tick.
  destruct (updateTimeSpent_first_segment e1 w tab start Ha Hs Hne)
    as (w1 & -> & _ & S1 & P1 & I1 & N1 & A1 & _ & T1 & M1 & W1 & R1 & D1).
  rewrite completeLast_suspend.
  destruct (resume_update_read_full (site tab) (now e1) (now e1 - start)
              (getTodayString e1) r1 e2 w1) as (w2 & -> & St2 & S2 & I2 & N2 & P2).
  rewrite completeLast_suspend.
  match goal with
  | |- context [resume (UpdateTimeSpent_setTimeData ?s ?n ?t ?d) r2 e3 w2] =>
      destruct (resume_update_write_full s n t d r2 e3 w2)
        as (w3 & -> & _ & A3 & Ss3 & T3 & R3 & D3 & W3 & _ & I3 & N3 & P3)
  end.
  exists w3. rewrite S1, M1. subst base total. unfold spent.
  split; [reflexivity|].
  rewrite A3, Ss3, T3, R3, D3, W3, I3, N3, P3, St2, I2, N2, P2.
  repeat split; congruence.
Qed.

(** Without a tab being tracked the threshold check does nothing. *)
Lemma checkTimeThresholds_no_tab (site : string) (t : Z) (w : World) :
  activeTab (state w) = None -> checkTimeThresholds site t w = w.
Proof.
  intros Ha. unfold checkTimeThresholds, showWarning. rewrite Ha.
  repeat match goal with
         | |- context [if ?b then _ else _] => destruct b
         end; reflexivity.
Qed.

(** X16. A tick that brings the total to the limit requests the
    navigation of the tracked tab to the blocked page, and the session
    goes on until that navigation has been made: when it succeeds the
    session is stopped (the time since the tick being flushed to the
    ledger), and when it fails the error is logged and the session is
    as after the tick. *)
Theorem tick_reaching_limit
    (e1 e2 e3 e4 : Env) (r1 r2 r : Response) (w : World) (tab : TabInfo) (start : Z) :
  activeTab (state w) = Some tab ->
  sessionStartTime (state w) = Some start ->
  start <> 0 ->
  now e1 <> 0 ->
  0 < getSiteTimeLimit (state w) (site tab) ->
  getSiteTimeLimit (state w) (site tab)
    <= (if isRejected r1 then 0 else spent w (site tab) (getTodayString e1))
       + Z.min (now e1 - start) (maxUpdateInterval (state w)) ->
  let w1 := tick e1 e2 e3 r1 r2 w in
  let w2 := completeLast r e4 w1 in
  pending w1 = pending w ++ [BlockSite_update (tabId tab) (site tab)]
  /\ activeTab (state w1) = Some tab
  /\ trackingInterval (state w1) = trackingInterval (state w)
  /\ intervals w1 = intervals w
  /\ (isRejected r = false ->
      activeTab (state w2) = None
      /\ sessionStartTime (state w2) = None
      /\ trackingInterval (state w2) = None
      /\ (forall id, trackingInterval (state w) = Some id -> ~ In id (intervals w2))
      /\ pending w2
         = pending w ++ [UpdateTimeSpent_getTimeData (site tab) (now e4) (now e4 - now e1)
                           (getTodayString e4)])
  /\ (forall error, r = Rejected error ->
      state w2 = state w1
      /\ intervals w2 = intervals w1
      /\ storage w2 = storage w1
      /\ pending w2 = pending w
      /\ console w2 = ConsoleError "Error blocking site:" error :: console w1).
Proof.
  intros Ha Hs Hne Hnow Hpos Hreach w1 w2.
  destruct (tick_shape e1 e2 e3 r1 r2 w tab start Ha Hs Hne)
    as (w3 & Hw1 & A3 & S3 & T3 & R3 & D3 & W3 & I3 & N3 & P3).
  fold w1 in Hw1.
  assert (Hlimit : getSiteTimeLimit (state w3) (site tab)
                   = getSiteTimeLimit (state w) (site tab))
    by (unfold getSiteTimeLimit; now rewrite R3, D3).
  assert (Hblock : w1 = blockSite (tabId tab) (site tab) w3).
  { rewrite Hw1. unfold checkTimeThresholds. rewrite Hlimit, A3.
    match goal with
    | |- context [ge ?p (ofZ 1)] =>
        replace (ge p (ofZ 1)) with true
          by (symmetry; apply divZ_ge_one; [exact Hpos | exact Hreach])
    end.
    reflexivity. }
  assert (Hw2 : w2 = resume (BlockSite_update (tabId tab) (site tab)) r e4 w3).
  { subst w2. rewrite Hblock. unfold blockSite. apply completeLast_suspend. }
  rewrite Hw2, Hblock. unfold blockSite.
  cbn [pending suspend withPending state intervals storage console].
  rewrite P3, A3, T3, I3.
  do 4 (split; [reflexivity|]). split.
  - intros Hr. cbn [resume].
    replace (match r with
             | Rejected error => log (ConsoleError "Error blocking site:" error) w3
             | _ => stopTracking e4 w3
             end) with (stopTracking e4 w3) by (destruct r; [reflexivity | discriminate | reflexivity]).
    destruct (stopTracking_clears e4 w3) as (C1 & C2 & C3).
    destruct (stopTracking_frame e4 w3) as (_ & _ & _ & _ & Fi).
    rewrite (stopTracking_session e4 w3 tab (now e1) A3 S3 Hnow), P3.
    repeat (split; [assumption|]). split; [|reflexivity].
    intros id Hid. rewrite Fi, T3, Hid. intros Hin.
    apply filter_In in Hin as [_ Hin]. rewrite Pos.eqb_refl in Hin. discriminate.
  - intros error ->. cbn [resume state intervals storage pending console log].
    rewrite P3. repeat split; first [reflexivity | assumption].
Qed.

Lemma clearSession_suspend (p : Pending) (w : World) :
  clearSession (suspend p w) = suspend p (clearSession w).
Proof.
  unfold clearSession, suspend.
  cbn [state withState withPending setActiveTab setSessionStartTime trackingInterval].
  destruct (trackingInterval (state w)); reflexivity.
Qed.


End TickEnd.

(** ** A limit of zero *)

Section ZeroLimit.

(** X25. With a limit of zero (a site limit of 0 falls back to the
    default limit, which may be 0 too) the quotient of the threshold
    check is a division by zero: with no time spent it is [NaN] and
    the check does nothing, with any time spent it is [Infinity] and
    the tab is blocked, without a warning before; and a focus event
    on the site blocks at once, since 0 >= 0. *)
Theorem checkTimeThresholds_zero_limit
    (e : Env) (w : World) (site : string) (tab : TabInfo) (timeSpent : Z) :
  activeTab (state w) = Some tab ->
  getSiteTimeLimit (state w) site = 0 ->
  0 <= timeSpent ->
  checkTimeThresholds site timeSpent w
  = (if timeSpent =? 0 then w else blockSite (tabId tab) site w)
  /\ (forall tabId today,
        0 <= spent w site today ->
        resume (HandleTabChange_getTimeData tabId site today) Fulfilled e w
        = blockSite tabId site w).
Proof.
  intros Ha Hl Hpos. split.
  - unfold checkTimeThresholds. rewrite Hl, Ha. unfold divZ. cbn [Z.eqb].
    destruct (Z.eqb_spec timeSpent 0) as [->|Hne]; [reflexivity|].
    replace (0 <? timeSpent) with true by (symmetry; apply Z.ltb_lt; lia).
    reflexivity.
  - intros tabId today Hs. unfold spent in Hs. cbn [resume getTimeData_resume].
    rewrite Hl.
    destruct (storage w !! storageKey site today) as [stored|]; cbn [Types.timeSpent].
    + replace (Types.timeSpent stored >=? 0) with true; [reflexivity|].
      symmetry. rewrite Z.geb_leb. now apply Z.leb_le.
    + reflexivity.
Qed.

End ZeroLimit.

(** ** A tick and a stop that overlap *)

Section Overlap.

Lemma handle_completed (e : Env) (i : nat) (r : Response) (w : World) (p : Pending) :
  pending w !! i = Some p ->
  handle e (Completed i r) w = resume p r e (withPending (delete i) w).
Proof. intros H. cbn [handle]. now rewrite H. Qed.

(** X24. A window that loses focus while the read of a tick is still
    pending: the tick and the flush of [stopTracking] have both taken
    the same start of the session, so when the tick is completed
    before the flush reads the ledger, the time from that start to the
    tick is credited twice: the entry grows by
    [min (now1 - start) cap + min (now2 - start) cap], although only
    [now2 - start] has passed. *)
Theorem overlapping_stop_credits_twice
    (e1 e2 e3 e4 e5 e6 : Env) (w : World) (tab : TabInfo) (start : Z) (id : positive)
    (today : string) :
  pending w = [] ->
  activeTab (state w) = Some tab ->
  sessionStartTime (state w) = Some start ->
  start <> 0 ->
  In id (intervals w) ->
  now e1 - start <= maxUpdateInterval (state w) ->
  getTodayString e1 = today -> getTodayString e2 = today -> getTodayString e3 = today ->
  getTodayString e5 = today ->
  let w' :=
    run [(e1, IntervalFired id); (e2, WindowFocusLost);
         (e3, Completed 0 Fulfilled); (e4, Completed 1 Fulfilled);
         (e5, Completed 0 Fulfilled); (e6, Completed 0 Fulfilled)] w in
  spent w' (site tab) today
  = spent w (site tab) today
    + Z.min (now e1 - start) (maxUpdateInterval (state w))
    + Z.min (now e2 - start) (maxUpdateInterval (state w))
  /\ activeTab (state w') = None
  /\ pending w' = [].
Proof.
  intros Hq Ha Hs Hne Hid Hgap D1 D2 D3 D5 w'. subst w'.
  set (cap := maxUpdateInterval (state w)) in *.
  cbn [run fold_left fst snd].
  (* the tick starts *)
  assert (H1 : handle e1 (IntervalFired id) w
               = suspend (UpdateTimeSpent_getTimeData (site tab) (now e1) (now e1 - start)
                            today) w).
  { cbn [handle].
    replace (existsb (Pos.eqb id) (intervals w)) with true
      by (symmetry; apply existsb_exists; exists id; split;
          [exact Hid | apply Pos.eqb_refl]).
    unfold updateTimeSpent, updateTimeSpent_session. rewrite Ha, Hs.
    apply Z.eqb_neq in Hne as Hne'. rewrite Hne'. cbn [negb].
    replace (now e1 - start >? maxUpdateInterval (state w)) with false
      by (symmetry; rewrite Z.gtb_ltb; apply Z.ltb_ge; exact Hgap).
    now rewrite D1. }
  rewrite H1. clear H1.
  (* the window loses focus *)
  change (handle e2 WindowFocusLost (suspend (UpdateTimeSpent_getTimeData (site tab) (now e1) (now e1 - start) today) w)) with (stopTracking e2 (suspend (UpdateTimeSpent_getTimeData (site tab) (now e1) (now e1 - start) today) w)).
  unfold stopTracking.
  destruct (updateTimeSpent_first_segment e2 (suspend (UpdateTimeSpent_getTimeData (site tab) (now e1) (now e1 - start) today) w) tab start Ha Hs Hne)
    as (wB & Hu & -> & SB & PB & _ & _ & _ & _ & _ & MB & _).
  rewrite Hu, clearSession_suspend, D2. clear Hu.
  destruct (clearSession_frame wB) as (Cs & _ & Cp & _ & _ & _ & _ & Cm & Ca & _).
  set (wC := clearSession wB) in *. clearbody wC.
  cbn [storage pending suspend withPending state] in SB, PB, MB.
  rewrite Hq in PB. cbn [app] in PB.
  (* the read of the tick completes *)
  rewrite (handle_completed e3 0 Fulfilled (suspend (UpdateTimeSpent_getTimeData (site tab) (now e2) (now e2 - start) today) wC) (UpdateTimeSpent_getTimeData (site tab) (now e1) (now e1 - start) today))
    by (cbn [pending suspend withPending]; now rewrite Cp, PB).
  destruct (resume_update_read_full (site tab) (now e1) (now e1 - start) today Fulfilled e3
              (withPending (delete 0%nat) (suspend (UpdateTimeSpent_getTimeData (site tab) (now e2) (now e2 - start) today) wC)))
    as (w2 & -> & St2 & S2 & _ & _ & Q2).
  cbn [isRejected state storage pending withPending suspend] in St2, S2, Q2 |- *.
  rewrite Cp, PB in Q2. cbn in Q2.
  rewrite Cs, SB, Cm, MB, D3. fold cap.
  set (total1 := match storage w !! storageKey (site tab) today with
                 | Some stored => timeSpent stored
                 | None => 0
                 end + Z.min (now e1 - start) cap).
  (* the write of the tick completes *)
  match goal with
  | |- context [handle e4 (Completed 1 Fulfilled) (suspend ?p w2)] =>
      rewrite (handle_completed e4 1 Fulfilled (suspend p w2) p)
        by (cbn [pending suspend withPending]; now rewrite Q2);
      destruct (resume_update_write_full (site tab) (now e1) total1
                  {| timeSpent := total1; date := today; lastUpdate := now e1 |}
                  Fulfilled e4 (withPending (delete 1%nat) (suspend p w2)))
        as (w3 & -> & S3 & A3 & _ & _ & _ & _ & _ & M3 & _ & _ & Q3)
  end.
  cbn [isRejected state storage pending withPending suspend date] in S3, A3, M3, Q3.
  rewrite Q2 in Q3. cbn in Q3. rewrite St2, Ca in A3. rewrite St2, Cm, MB in M3.
  rewrite S2, Cs, SB in S3.
  rewrite (checkTimeThresholds_no_tab _ _ w3 A3).
  (* the read of the flush completes *)
  rewrite (handle_completed e5 0 Fulfilled w3 (UpdateTimeSpent_getTimeData (site tab) (now e2) (now e2 - start) today)) by now rewrite Q3.
  destruct (resume_update_read_full (site tab) (now e2) (now e2 - start) today Fulfilled e5
              (withPending (delete 0%nat) w3))
    as (w4 & -> & St4 & S4 & _ & _ & Q4).
  cbn [isRejected state storage pending withPending] in St4, S4, Q4 |- *.
  rewrite Q3 in Q4. cbn in Q4.
  rewrite S3, lookup_insert_eq, M3, D5. cbn [timeSpent]. fold cap.
  (* the write of the flush completes *)
  match goal with
  | |- context [handle e6 (Completed 0 Fulfilled) (suspend ?p w4)] =>
      rewrite (handle_completed e6 0 Fulfilled (suspend p w4) p)
        by (cbn [pending suspend withPending]; now rewrite Q4);
      destruct (resume_update_write_full (site tab) (now e2)
                  (total1 + Z.min (now e2 - start) cap)
                  {| timeSpent := total1 + Z.min (now e2 - start) cap; date := today;
                     lastUpdate := now e2 |}
                  Fulfilled e6 (withPending (delete 0%nat) (suspend p w4)))
        as (w5 & -> & S5 & A5 & _ & _ & _ & _ & _ & _ & _ & _ & Q5)
  end.
  cbn [isRejected state storage pending withPending suspend date] in S5, A5, Q5.
  rewrite Q4 in Q5. cbn in Q5. rewrite St4 in A5. cbn [state withPending] in A5.
  rewrite A3 in A5.
  rewrite (checkTimeThresholds_no_tab _ _ w5 A5).
  split; [|split; [exact A5 | exact Q5]].
  unfold spent. rewrite S5, lookup_insert_eq. cbn [timeSpent]. subst total1. lia.
Qed.

End Overlap.

(** ** The ledger: keys, reads and writes *)

Section Ledger.

Lemma append_inv_head (a b c : string) : a +:+ b = a +:+ c -> b = c.
Proof.
  induction a as [|x a IH]; [auto|]. rewrite !append_cons. intros [= H]. auto.
Qed.

Lemma append_inv_length (a b c d : string) :
  a +:+ b = c +:+ d -> String.length b = String.length d -> a = c /\ b = d.
Proof.
  revert c. induction a as [|x a IH]; intros c H Hlen.
  - destruct c as [|y c]; [auto|]. exfalso.
    change (b = String y c +:+ d) in H. apply (f_equal String.length) in H.
    rewrite string_length_append in H. simpl in H. lia.
  - destruct c as [|y c].
    + exfalso. change (String x a +:+ b = d) in H. apply (f_equal String.length) in H.
      rewrite string_length_append in H. simpl in H. lia.
    + rewrite !append_cons in H. injection H as -> H.
      destruct (IH c H Hlen) as [-> ->]. auto.
Qed.

(** Keys of entries with dates of one length are different for
    different sites or dates. *)
Lemma storageKey_inj (site1 date1 site2 date2 : string) :
  storageKey site1 date1 = storageKey site2 date2 ->
  String.length date1 = String.length date2 ->
  site1 = site2 /\ date1 = date2.
Proof.
  unfold storageKey. intros H Hlen. apply append_inv_head in H.
  apply append_inv_length in H.
  - destruct H as [-> H]. rewrite !append_cons in H. injection H as H.
    change (date1 = date2) in H. auto.
  - rewrite !string_length_append. simpl. lia.
Qed.

(** X18. The ledger through [setTimeData] and [getTimeData]: an entry
    written is the entry read back for its site on its own date, and
    the entries of every other site or day (the dates being of one
    length, as ISO dates are) read as before; a write that fails is
    logged and changes nothing; an entry that is not there reads as
    zero time on the day asked for. *)
Theorem ledger_set_then_get
    (e : Env) (site : string) (data : TimeData) (r : Response) (w : World) :
  let w1 := setTimeData_resume site data r w in
  (isRejected r = false ->
     fst (getTimeData_resume e site (date data) Fulfilled w1) = data
     /\ forall site' today,
          String.length today = String.length (date data) ->
          (site', today) <> (site, date data) ->
          fst (getTimeData_resume e site' today Fulfilled w1)
          = fst (getTimeData_resume e site' today Fulfilled w))
  /\ (forall error, r = Rejected error ->
        storage w1 = storage w
        /\ console w1 = ConsoleError "Error setting time data:" error :: console w)
  /\ (forall today, storage w !! storageKey site today = None ->
        fst (getTimeData_resume e site today Fulfilled w)
        = {| timeSpent := 0; date := today; lastUpdate := now e |})
  /\ state w1 = state w.
Proof.
  intros w1. subst w1. unfold setTimeData_resume, getTimeData_resume.
  split; [|split; [|split]].
  - intros Hr.
    replace (match r with
             | Rejected error => log (ConsoleError "Error setting time data:" error) w
             | _ => withStorage (insert (storageKey site (date data)) data) w
             end) with (withStorage (insert (storageKey site (date data)) data) w)
      by (destruct r; [reflexivity | discriminate | reflexivity]).
    cbn [fst storage withStorage]. split.
    + now rewrite lookup_insert_eq.
    + intros site' today Hlen Hne. rewrite lookup_insert_ne; [reflexivity|].
      intros Hk. apply storageKey_inj in Hk as [E1 E2]; [|now symmetry].
      apply Hne. congruence.
  - intros error ->. split; reflexivity.
  - intros today Hnone. cbn [fst]. now rewrite Hnone.
  - destruct r; reflexivity.
Qed.

Lemma includes_cons (c : ascii) (t : string) :
  JsString.includes (String c t) "_" = Ascii.eqb c "_" || JsString.includes t "_".
Proof.
  cbn [JsString.includes]. f_equal.
  destruct (Ascii.eqb_spec c "_") as [->|Hne].
  - apply prefix_spec. exists t. reflexivity.
  - destruct (String.prefix "_" (String c t)) eqn:Hp; [|reflexivity].
    apply prefix_spec in Hp as [rest Hp]. rewrite append_cons in Hp. congruence.
Qed.

Lemma prefix_sep_head (today : string) (c : ascii) (s : string) :
  String.prefix ("_" +:+ today) (String c s) = true -> c = "_"%char.
Proof.
  intros H. apply prefix_spec in H as [rest H]. rewrite !append_cons in H.
  now injection H as -> _.
Qed.

Lemma includes_append (a b : string) :
  JsString.includes (a +:+ "_" +:+ b) "_" = true.
Proof. apply includes_spec. now exists a, b. Qed.

Lemma removeFirst_prefix (p rest : string) :
  JsString.removeFirst p (p +:+ rest) = rest.
Proof.
  destruct p as [|c p]; [now destruct rest|].
  rewrite append_cons. cbn [JsString.removeFirst]. rewrite <- append_cons.
  replace (String.prefix (String c p) (String c p +:+ rest)) with true
    by (symmetry; apply prefix_spec; now exists rest).
  apply drop_append.
Qed.

(** Removing the first "_date" from "site_date" leaves the site, when
    the site has no "_". *)
Lemma removeFirst_site (site today : string) :
  JsString.includes site "_" = false ->
  JsString.removeFirst ("_" +:+ today) (site +:+ "_" +:+ today) = site.
Proof.
  induction site as [|c site IH]; intros Hs.
  - change (EmptyString +:+ "_" +:+ today) with ("_" +:+ today).
    pose proof (removeFirst_prefix ("_" +:+ today) "") as H.
    now rewrite append_nil_r in H.
  - rewrite includes_cons in Hs. apply orb_false_iff in Hs as [Hc Hs].
    rewrite (append_cons c site). set (p := "_" +:+ today) in *.
    cbn [JsString.removeFirst].
    destruct (String.prefix p (String c (site +:+ p))) eqn:Hp.
    + apply prefix_sep_head in Hp. subst c. discriminate.
    + f_equal. now apply IH.
Qed.

(** A text that ends with "_date" and from which removing the first
    "_date" leaves a site without "_" is "site_date", when the date has
    no "_" either. *)
Lemma removeFirst_only_site (today rest site : string) :
  JsString.includes site "_" = false ->
  JsString.includes today "_" = false ->
  JsString.endsWith rest ("_" +:+ today) = true ->
  JsString.removeFirst ("_" +:+ today) rest = site ->
  rest = site +:+ "_" +:+ today.
Proof.
  intros Hs Ht. revert site Hs.
  induction rest as [|c rest IH]; intros site Hs Hend Hrem.
  - apply endsWith_spec in Hend as [pre Hend]. symmetry in Hend.
    apply append_nil_inv in Hend as [_ Hend]. rewrite append_cons in Hend. discriminate.
  - cbn [JsString.removeFirst] in Hrem.
    destruct (String.prefix ("_" +:+ today) (String c rest)) eqn:Hp.
    + apply prefix_spec in Hp as [b Hp]. rewrite Hp in Hrem, Hend |- *.
      rewrite drop_append in Hrem. subst b.
      apply endsWith_spec in Hend as [pre Hend].
      destruct pre as [|x pre].
      * change (("_" +:+ today) +:+ site = "_" +:+ today) in Hend.
        rewrite <- (append_nil_r ("_" +:+ today)) in Hend at 2.
        apply append_inv_head in Hend. subst site. apply append_nil_r.
      * exfalso. rewrite !append_cons in Hend. injection Hend as <- Hend.
        change (EmptyString +:+ today +:+ site = pre +:+ "_" +:+ today) in Hend.
        change (EmptyString +:+ today +:+ site) with (today +:+ site) in Hend.
        assert (Hin : JsString.includes (today +:+ site) "_" = true)
          by (rewrite Hend; apply includes_append).
        apply includes_spec in Hin as (a & b & Hin).
        assert (Hnone : forall x y : string,
                  JsString.includes x "_" = false -> JsString.includes y "_" = false ->
                  forall a b, x +:+ y <> a +:+ "_" +:+ b).
        { clear. induction x as [|c x IHx]; intros y Hx Hy a b H.
          - change (y = a +:+ "_" +:+ b) in H. rewrite H, includes_append in Hy.
            discriminate.
          - rewrite includes_cons in Hx. apply orb_false_iff in Hx as [Hc Hx].
            rewrite append_cons in H. destruct a as [|c' a].
            + rewrite append_cons in H. injection H as -> _.
              rewrite Ascii.eqb_refl in Hc. discriminate.
            + rewrite append_cons in H. injection H as _ H.
              now apply (IHx y Hx Hy a b). }
        now apply (Hnone today site Ht Hs a b).
    + destruct site as [|c' site]; [discriminate|]. injection Hrem as -> Hrem.
      rewrite includes_cons in Hs. apply orb_false_iff in Hs as [Hc Hs].
      rewrite append_cons. f_equal. apply IH; [assumption| |assumption].
      apply endsWith_spec in Hend as [pre Hend]. apply endsWith_spec.
      destruct pre as [|x pre].
      * exfalso. change (String c' rest = "_" +:+ today) in Hend.
        rewrite append_cons in Hend. injection Hend as -> _.
        rewrite Ascii.eqb_refl in Hc. discriminate.
      * rewrite append_cons in Hend. injection Hend as _ Hend. now exists pre.
Qed.

(** [getAllTimeData] reads the site back out of the key of an entry. *)
Lemma siteOfKey_storageKey (site today : string) :
  JsString.includes site "_" = false ->
  siteOfKey today (storageKey site today) = site.
Proof.
  intros Hs. unfold siteOfKey, storageKey.
  rewrite removeFirst_prefix. now apply removeFirst_site.
Qed.

Lemma append_split (a b c d : string) :
  a +:+ b = c +:+ d ->
  (exists m, c = a +:+ m /\ b = m +:+ d) \/ (exists m, a = c +:+ m /\ d = m +:+ b).
Proof.
  revert c. induction a as [|x a IH]; intros c H.
  - left. exists c. split; [reflexivity | exact H].
  - destruct c as [|y c].
    + right. exists (String x a). split; [reflexivity | now symmetry].
    + rewrite !append_cons in H. injection H as -> H.
      destruct (IH c H) as [(m & -> & ->) | (m & -> & ->)]; [left | right];
        exists m; split; reflexivity.
Qed.

Lemma removeFirst_absent (today s : string) :
  JsString.includes s "_" = false -> JsString.removeFirst ("_" +:+ today) s = s.
Proof.
  induction s as [|c s IH]; intros Hs.
  - reflexivity.
  - rewrite includes_cons in Hs. apply orb_false_iff in Hs as [Hc Hs].
    set (p := "_" +:+ today) in *. cbn [JsString.removeFirst].
    destruct (String.prefix p (String c s)) eqn:Hp.
    + apply prefix_sep_head in Hp. subst c. discriminate.
    + f_equal. now apply IH.
Qed.

(** The only "_" of "timeData_" is its last character. *)
Lemma prefix_underscore (pre m : string) :
  "timeData_" = pre +:+ "_" +:+ m -> m = "".
Proof.
  intros H.
  destruct pre as [|p1 [|p2 [|p3 [|p4 [|p5 [|p6 [|p7 [|p8 [|p9 pre]]]]]]]]];
    rewrite ?append_cons in H; try discriminate.
  - injection H as _ _ _ _ _ _ _ _ H. exact (eq_sym H).
  - injection H as _ _ _ _ _ _ _ _ _ H. destruct pre; discriminate.
Qed.

(** A key that [getAllTimeData] takes for an entry of [today] and
    reads as [site] is the key of that site and day. *)
Lemma storageKey_of_site (today key site : string) :
  JsString.includes site "_" = false ->
  JsString.includes today "_" = false ->
  site <> today ->
  JsString.startsWith key "timeData_" = true ->
  JsString.endsWith key ("_" +:+ today) = true ->
  siteOfKey today key = site ->
  key = storageKey site today.
Proof.
  intros Hs Ht Hne Hp Hend Hsite. unfold JsString.startsWith in Hp.
  apply prefix_spec in Hp as [rest ->]. unfold siteOfKey in Hsite.
  rewrite removeFirst_prefix in Hsite. unfold storageKey. f_equal.
  apply endsWith_spec in Hend as [pre Hend].
  apply append_split in Hend as [(m & -> & Hrest) | (m & Hpre & Hm)].
  - apply (removeFirst_only_site today); try assumption.
    apply endsWith_spec. now exists m.
  - destruct m as [|c m].
    + change ("_" +:+ today = rest) in Hm. subst rest.
      pose proof (removeFirst_prefix ("_" +:+ today) "") as H0.
      rewrite append_nil_r in H0. rewrite H0 in Hsite. now subst site.
    + exfalso. rewrite !append_cons in Hm. injection Hm as <- Hm.
      change (today = m +:+ rest) in Hm.
      apply prefix_underscore in Hpre as ->.
      change (today = rest) in Hm. subst rest.
      rewrite removeFirst_absent in Hsite by assumption. now apply Hne.
Qed.

(** The loop of [getAllTimeData], entry by entry. *)
Lemma collect_step (today : string) (entries : list (string * TimeData))
    (acc : gmap string TimeData) (site : string) :
  JsString.includes site "_" = false ->
  JsString.includes today "_" = false ->
  site <> today ->
  let result :=
    fold_left
      (fun timeData entry =>
         let '(key, value) := entry in
         if JsString.startsWith key "timeData_" && JsString.endsWith key ("_" +:+ today)
         then <[siteOfKey today key := value]> timeData
         else timeData)
      entries acc in
  (exists value, In (storageKey site today, value) entries /\ result !! site = Some value)
  \/ (~ In (storageKey site today) (map fst entries) /\ result !! site = acc !! site).
Proof.
  intros Hs Ht Hne. revert acc.
  induction entries as [|[key value] entries IH]; intros acc result.
  - right. split; [intros [] | reflexivity].
  - subst result. cbn [fold_left].
    match goal with
    | |- context [fold_left ?f entries ?acc'] => destruct (IH acc') as [(v & Hin & Hv) | [Hnot Hv]]
    end.
    + left. exists v. split; [now right | exact Hv].
    + destruct (String.eqb_spec key (storageKey site today)) as [->|Hkey].
      * left. exists value. split; [now left|]. rewrite Hv.
        rewrite storageKey_is_ledger_key.
        replace (JsString.endsWith (storageKey site today) ("_" +:+ today)) with true
          by (symmetry; apply endsWith_spec; exists ("timeData_" +:+ site);
              unfold storageKey; now rewrite append_assoc).
        cbn [andb]. rewrite siteOfKey_storageKey by assumption.
        apply lookup_insert_eq.
      * right. split; [intros [H|H]; [now apply Hkey | now apply Hnot]|].
        rewrite Hv.
        destruct (JsString.startsWith key "timeData_") eqn:Hp; [|reflexivity].
        destruct (JsString.endsWith key ("_" +:+ today)) eqn:He; [|reflexivity].
        cbn [andb]. apply lookup_insert_ne. intros Hsite.
        apply Hkey. now apply (storageKey_of_site today key site).
Qed.

(** X19. What [getAllTimeData] reports for a site, when its listing of
    the store succeeds: the entry stored under the key of that site and
    day, and nothing when there is none; this for every site whose name
    has no "_" and is not the date itself, the date, an ISO date, having
    no "_" either.  When the listing fails the error is logged and
    nothing is reported. *)
Theorem getAllTimeData_reports (today site : string) (r : Response) (w : World) :
  JsString.includes site "_" = false ->
  JsString.includes today "_" = false ->
  site <> today ->
  (isRejected r = false ->
     fst (getAllTimeData_resume today r w) !! site = storage w !! storageKey site today
     /\ snd (getAllTimeData_resume today r w) = w)
  /\ (forall error, r = Rejected error ->
        fst (getAllTimeData_resume today r w) = ∅
        /\ snd (getAllTimeData_resume today r w)
           = log (ConsoleError "Error getting all time data:" error) w).
Proof.
  intros Hs Ht Hne. split.
  - intros Hr.
    replace (getAllTimeData_resume today r w)
      with (collectTimeData today (map_to_list (storage w)), w)
      by (destruct r; [reflexivity | discriminate | reflexivity]).
    cbn [fst snd]. split; [|reflexivity]. unfold collectTimeData.
    destruct (collect_step today (map_to_list (storage w)) ∅ site Hs Ht Hne)
      as [(v & Hin & Hv) | [Hnot Hv]].
    + rewrite Hv. symmetry. apply elem_of_map_to_list. now apply list_elem_of_In.
    + rewrite Hv, lookup_empty. symmetry.
      destruct (storage w !! storageKey site today) as [v|] eqn:Hl; [|reflexivity].
      exfalso. apply Hnot. apply in_map_iff. exists (storageKey site today, v).
      split; [reflexivity|]. apply list_elem_of_In. now apply elem_of_map_to_list.
  - intros error ->. split; reflexivity.
Qed.

End Ledger.

(** ** More on the reset and on the session fields *)

Section ResetFailure.

(** X20. A daily reset one of whose two storage calls fails removes
    nothing: store and tracker state are as before, nothing is left
    pending, and the error is logged. *)
Theorem rollover_failure_keeps_store (e1 e2 e3 : Env) (r1 r2 : Response) (w : World) :
  pending w = [] ->
  isRejected r1 || isRejected r2 = true ->
  let w' := rollover e1 e2 e3 r1 r2 w in
  storage w' = storage w
  /\ state w' = state w
  /\ pending w' = []
  /\ (forall error, r1 = Rejected error ->
        console w' = ConsoleError "Error resetting daily data:" error :: console w)
  /\ (forall error, isRejected r1 = false -> r2 = Rejected error ->
        console w'
        = match List.filter (fun key => JsString.startsWith key "timeData_") (storageKeys w) with
          | [] => console w
          | _ :: _ => ConsoleError "Error resetting daily data:" error :: console w
          end).
Proof.
  intros Hq Hrej w'. subst w'. unfold rollover.
  change (handle e1 (AlarmFired "dailyReset") w) with (suspend ResetDailyData_get w).
  rewrite completeLast_suspend. cbn [resume].
  destruct r1 as [|error1|t1].
  - cbn [isRejected orb] in Hrej. destruct r2 as [|error2|t2]; try discriminate.
    destruct (List.filter _ (storageKeys w)) as [|k ks] eqn:Hks.
    + rewrite completeLast_quiet by assumption.
      repeat split; auto; discriminate.
    + rewrite completeLast_suspend. cbn [resume state storage pending console log].
      repeat split; auto; try discriminate. now intros error _ [= <-].
  - rewrite completeLast_quiet by assumption.
    cbn [state storage pending console log isRejected].
    repeat split; auto; try discriminate. now intros error [= <-].
  - cbn [isRejected orb] in Hrej. destruct r2 as [|error2|t2]; try discriminate.
    destruct (List.filter _ (storageKeys w)) as [|k ks] eqn:Hks.
    + rewrite completeLast_quiet by assumption.
      repeat split; auto; discriminate.
    + rewrite completeLast_suspend. cbn [resume state storage pending console log].
      repeat split; auto; try discriminate. now intros error _ [= <-].
Qed.

End ResetFailure.

Section SessionFields.

Lemma session_same_state (w w' : World) :
  state w' = state w -> sessionConsistent w -> sessionConsistent w'.
Proof. unfold sessionConsistent. now intros ->. Qed.

Lemma session_stopped (e : Env) (w : World) : sessionConsistent (stopTracking e w).
Proof.
  destruct (stopTracking_clears e w) as (Ha & Hs & Ht).
  unfold sessionConsistent. rewrite Ha, Ht. split; [tauto | congruence].
Qed.

Lemma session_started (e : Env) (site : string) (tabId : Z) (w : World) :
  sessionConsistent (startTracking e site tabId w).
Proof.
  pose proof (startTracking_effect e site tabId w) as H. cbv zeta in H.
  destruct H as (Ha & Hs & _ & Ht & _).
  unfold sessionConsistent. rewrite Ha, Hs, Ht. split; [split|]; discriminate.
Qed.

Lemma session_updateTimeSpent (e : Env) (w : World) :
  sessionConsistent w -> sessionConsistent (updateTimeSpent e w).
Proof.
  intros Hc.
  destruct (activeTab (state w)) as [tab|] eqn:Ha;
    [destruct (sessionStartTime (state w)) as [start|] eqn:Hs;
     [destruct (Z.eq_dec start 0) as [->|Hne]|]|].
  - unfold updateTimeSpent. rewrite Ha, Hs. cbn. apply session_stopped.
  - destruct (updateTimeSpent_first_segment e w tab start Ha Hs Hne)
      as (w1 & -> & _ & _ & _ & _ & _ & A1 & S1 & T1 & _).
    destruct Hc as [Hc _]. unfold sessionConsistent. cbn [state suspend withPending].
    rewrite A1, T1. split; [|auto].
    rewrite <- Hc, Ha. tauto.
  - unfold updateTimeSpent. rewrite Ha, Hs. apply session_stopped.
  - unfold updateTimeSpent. rewrite Ha. apply session_stopped.
Qed.

Lemma session_resume (p : Pending) (r : Response) (e : Env) (w : World) :
  sessionConsistent w -> sessionConsistent (resume p r e w).
Proof.
  intros Hc.
  destruct p as [site now sessionTime today|site now total data|tabId site|tabId msg
                |tabId|tabId matchedSite today| |keys].
  - destruct (resume_update_read_full site now sessionTime today r e w)
      as (w2 & -> & Hs & _). apply (session_same_state w); [exact Hs | exact Hc].
  - destruct (resume_update_write_full site now total data r e w)
      as (w3 & -> & _ & A3 & S3 & T3 & _).
    destruct (checkTimeThresholds_frame site total w3) as (Es & _).
    unfold sessionConsistent. rewrite Es, A3, S3, T3.
    destruct Hc as [Hc _]. split; [exact Hc | discriminate].
  - cbn [resume]. destruct r; try apply session_stopped.
    now apply (session_same_state w).
  - cbn [resume]. destruct r; now apply (session_same_state w).
  - cbn [resume].
    repeat match goal with
           | |- context [match ?x with _ => _ end] => destruct x
           end; now apply (session_same_state w).
  - cbn [resume]. unfold getTimeData_resume.
    destruct r; cbn [fst snd];
      match goal with
      | |- context [if ?b then _ else _] => destruct b
      end;
      first [ apply session_started | now apply (session_same_state w) ].
  - cbn [resume].
    repeat match goal with
           | |- context [match ?x with _ => _ end] => destruct x
           end; now apply (session_same_state w).
  - cbn [resume]. destruct r; now apply (session_same_state w).
Qed.

Lemma session_handle (e : Env) (ev : Event) (w : World) :
  sessionConsistent w -> sessionConsistent (handle e ev w).
Proof.
  intros Hc. destruct ev as [tabId| |id|name|i r]; cbn [handle].
  - unfold handleTabChange.
    apply (session_same_state (stopTracking e w)); [reflexivity | apply session_stopped].
  - apply session_stopped.
  - destruct (existsb _ _); [now apply session_updateTimeSpent | exact Hc].
  - destruct (String.eqb name "dailyReset"); [|exact Hc].
    now apply (session_same_state w).
  - destruct (pending w !! i) as [p|]; [|exact Hc].
    apply session_resume. now apply (session_same_state w).
Qed.

(** X21. In every world the service worker reaches from its start by
    tab, window, timer and alarm events and the completions of its
    browser calls, a tab is being tracked exactly when the interval
    timer is set, and a tracked tab always has a session start time. *)
Theorem session_fields_consistent (registry : list (string * SiteConfig)) (limit : Z)
    (store : gmap string TimeData) (evs : list (Env * Event)) :
  sessionConsistent (run evs (initialWorld registry limit store)).
Proof.
  assert (H : forall w, sessionConsistent w -> sessionConsistent (run evs w)).
  { induction evs as [|[e ev] evs IH]; intros w Hc; [exact Hc|].
    cbn. apply IH. now apply session_handle. }
  apply H. unfold sessionConsistent. cbn. split; [tauto | congruence].
Qed.

End SessionFields.

Section LegacyKeys.

Lemma lastSegment_append (a b : string) :
  JsString.includes b "_" = false ->
  JsString.lastSegment "_" (a +:+ "_" +:+ b) = b.
Proof.
  intros Hb. induction a as [|c a IH].
  - change (EmptyString +:+ "_" +:+ b) with (String "_" b).
    cbn [JsString.lastSegment]. rewrite Hb. reflexivity.
  - rewrite append_cons. cbn [JsString.lastSegment].
    replace (JsString.includes (a +:+ "_" +:+ b) "_") with true; [exact IH|].
    symmetry. apply includes_spec. now exists a, b.
Qed.

(** X22. The daily reset of the legacy script: an entry stored under
    "time_<site>_<date>" is removed exactly when the date lies more
    than seven days before now, and is otherwise kept as it is, today's
    entry included; and every entry whose key does not start with
    "time_" is kept, so no entry under a key of the present scheme,
    "timeData_<site>_<date>", is ever removed. *)
Theorem legacy_reset_retention {V : Type} (e : Env) (store : gmap string V)
    (site dateText : string) (t : Z) :
  JsString.includes dateText "_" = false ->
  parseDate dateText = Some t ->
  Legacy.resetDailyData e store !! ("time_" +:+ site +:+ "_" +:+ dateText)
  = (if t <? now e - 7 * msPerDay then None
     else store !! ("time_" +:+ site +:+ "_" +:+ dateText))
  /\ (forall key, JsString.startsWith key "time_" = false ->
        Legacy.resetDailyData e store !! key = store !! key)
  /\ (forall site' date',
        Legacy.resetDailyData e store !! storageKey site' date'
        = store !! storageKey site' date').
Proof.
  intros Hd Hp.
  assert (Hother : forall key, JsString.startsWith key "time_" = false ->
                     Legacy.resetDailyData e store !! key = store !! key).
  { intros key Hk. rewrite legacy_reset_lookup. unfold Legacy.isStale. now rewrite Hk. }
  split; [|split; [exact Hother|]].
  - rewrite legacy_reset_lookup. unfold Legacy.isStale.
    replace (JsString.startsWith ("time_" +:+ site +:+ "_" +:+ dateText) "time_") with true
      by (symmetry; apply prefix_spec; eexists; reflexivity).
    cbn [andb].
    replace ("time_" +:+ site +:+ "_" +:+ dateText)
      with (("time_" +:+ site) +:+ "_" +:+ dateText) at 1
      by (now rewrite append_assoc).
    rewrite lastSegment_append by assumption. rewrite Hp. reflexivity.
  - intros site' date'. apply Hother. unfold JsString.startsWith.
    destruct (String.prefix "time_" (storageKey site' date')) eqn:Hpre; [|reflexivity].
    apply prefix_spec in Hpre as [rest Hpre]. unfold storageKey in Hpre.
    rewrite !append_cons in Hpre. discriminate.
Qed.

End LegacyKeys.

Section SettingsUpdate.

Lemma get_set (m : list (string * SiteConfig)) (k k' : string) (v : SiteConfig) :
  JsMap.get (JsMap.set m k v) k' = if String.eqb k k' then Some v else JsMap.get m k'.
Proof.
  induction m as [|[k0 v0] m IH]; cbn [JsMap.set JsMap.get].
  - reflexivity.
  - destruct (String.eqb_spec k0 k) as [->|Hne]; cbn [JsMap.get].
    + destruct (String.eqb k k'); reflexivity.
    + rewrite IH. destruct (String.eqb_spec k0 k') as [->|Hne']; [|reflexivity].
      apply String.eqb_neq in Hne. rewrite String.eqb_sym in Hne. now rewrite Hne.
Qed.

Lemma get_fold_absent (entries : list (string * SiteConfig)) (k : string) :
  ~ In k (map fst entries) ->
  forall m,
    JsMap.get (fold_left (fun m entry => JsMap.set m (fst entry) (snd entry)) entries m) k
    = JsMap.get m k.
Proof.
  induction entries as [|[k0 v0] entries IH]; intros Hn m; [reflexivity|].
  cbn [fold_left fst snd]. rewrite IH by (intros H; apply Hn; now right).
  rewrite get_set. destruct (String.eqb_spec k0 k) as [->|_]; [|reflexivity].
  exfalso. apply Hn. now left.
Qed.

Lemma get_fold_present (entries : list (string * SiteConfig)) (k : string) (v : SiteConfig) :
  List.NoDup (map fst entries) -> In (k, v) entries ->
  forall m,
    JsMap.get (fold_left (fun m entry => JsMap.set m (fst entry) (snd entry)) entries m) k
    = Some v.
Proof.
  induction entries as [|[k0 v0] entries IH]; intros Hnd Hin m; [contradiction|].
  cbn [map fst] in Hnd. apply NoDup_cons_iff in Hnd as [Hk0 Hnd].
  cbn [fold_left fst snd]. destruct Hin as [[= -> ->]|Hin].
  - rewrite get_fold_absent by assumption. rewrite get_set. now rewrite String.eqb_refl.
  - now apply IH.
Qed.

(** X23. What a settings message changes at once: the registry
    becomes the sites of the message, in their order and with their
    configurations, and the default limit that of the message; the
    session, its timer, the thresholds and the store are left as they
    are.  So a session goes on across the change, and a site that the
    message no longer lists is from then on limited by the new default
    limit. *)
Theorem updateSettings_effect (settings : Settings.Settings) (w : World) :
  List.NoDup (map fst (Settings.sites settings)) ->
  let w' := Settings.updateSettings settings w in
  (forall site config, In (site, config) (Settings.sites settings) ->
     JsMap.get (sites (state w')) site = Some config)
  /\ (forall site, ~ In site (map fst (Settings.sites settings)) ->
        JsMap.get (sites (state w')) site = None
        /\ getSiteTimeLimit (state w') site = Settings.defaultTimeLimit settings * 60 * 1000)
  /\ defaultTimeLimit (state w') = Settings.defaultTimeLimit settings
  /\ activeTab (state w') = activeTab (state w)
  /\ sessionStartTime (state w') = sessionStartTime (state w)
  /\ trackingInterval (state w') = trackingInterval (state w)
  /\ warningThreshold (state w') = warningThreshold (state w)
  /\ maxUpdateInterval (state w') = maxUpdateInterval (state w)
  /\ storage w' = storage w
  /\ intervals w' = intervals w
  /\ pending w' = pending w
  /\ (timersConsistent w -> timersConsistent w')
  /\ (sessionConsistent w -> sessionConsistent w').
Proof.
  intros Hnd w'. subst w'. unfold Settings.updateSettings.
  cbn [state withState sites defaultTimeLimit activeTab sessionStartTime trackingInterval
       warningThreshold maxUpdateInterval storage intervals pending].
  split; [|split].
  - intros site config Hin. unfold Settings.registryOf. now apply get_fold_present.
  - intros site Hn.
    assert (Hget : JsMap.get (Settings.registryOf (Settings.sites settings)) site = None)
      by (unfold Settings.registryOf; now rewrite get_fold_absent).
    split; [exact Hget|]. unfold getSiteTimeLimit.
    cbn [sites defaultTimeLimit]. now rewrite Hget.
  - repeat (split; [reflexivity|]).
    unfold timersConsistent, sessionConsistent.
    cbn [state withState activeTab sessionStartTime trackingInterval intervals nextInterval].
    split; auto.
Qed.

End SettingsUpdate.

(** ** More concrete situations *)

Section MoreSituations.
Import Scenario.

Lemma validateDomain_normal_form_witness :
  validateDomain "https://www.Example.com/" = inr "example.com"
  /\ stripProtocol "example.com" = "example.com"
  /\ isValidUrl "example.com" = true.
Proof.
  split; [reflexivity|]. split; [reflexivity|].
  exact (proj1 (proj2 (proj2 (proj2
           (validateDomain_normal_form "https://www.Example.com/" "example.com"
              eq_refl eq_refl))))).
Defined.

Lemma findMatchingSite_first_match_witness :
  findMatchingSite "m.youtube.com" registry = Some "youtube.com"
  /\ subdomainOf "m.youtube.com" "youtube.com".
Proof.
  split; [reflexivity|].
  destruct (findMatchingSite_first_match "m.youtube.com" registry "youtube.com" eq_refl)
    as [[_ H] | [_ (before & after & _ & Hsub & _)]]; [discriminate | exact Hsub].
Defined.

Lemma registered_pages_are_matched_witness :
  "youtube.com" <> ""
  /\ In "youtube.com" (JsMap.keys registry)
  /\ findMatchingSite (extractSite ("www." +:+ "youtube.com")) registry = Some "youtube.com".
Proof.
  assert (Hne : "youtube.com" <> "") by discriminate.
  assert (Hin : In "youtube.com" (JsMap.keys registry)) by (left; reflexivity).
  split; [exact Hne|]. split; [exact Hin|].
  exact (proj1 (registered_pages_are_matched "youtube.com" registry Hne Hin)).
Defined.

(** A site built from what a user typed with the limit 0, then
    switched off and set to 45 minutes; and the same with the limit
    [NaN]. *)
Lemma site_invariant_witness :
  let d := "https://www.Example.com/" in
  let zero := {| SiteClass.enabledOpt := None;
                 SiteClass.timeLimitOpt := Some (ofZ 0);
                 SiteClass.isDefaultOpt := None |} in
  let nan := {| SiteClass.enabledOpt := Some false;
                SiteClass.timeLimitOpt := Some NaN;
                SiteClass.isDefaultOpt := Some true |} in
  let s := {| SiteClass.domain := "example.com"; SiteClass.enabled := true;
              SiteClass.timeLimit := ofZ 30; SiteClass.isDefault := false |} in
  let s' := {| SiteClass.domain := "example.com"; SiteClass.enabled := false;
               SiteClass.timeLimit := ofZ 45; SiteClass.isDefault := false |} in
  validateDomain d = inr "example.com"
  /\ toBoolean (ofZ 0) = false
  /\ toBoolean NaN = false
  /\ SiteClass.new d zero = inr s
  /\ SiteClass.new d nan
     = inr {| SiteClass.domain := "example.com"; SiteClass.enabled := false;
              SiteClass.timeLimit := ofZ 30; SiteClass.isDefault := true |}
  /\ SiteClass.applyAll [SiteClass.Toggle; SiteClass.SetTimeLimit (ofZ 45)] s = inr s'
  /\ (exists n, 1 <= n <= 480 /\ SiteClass.timeLimit s' = ofZ n).
Proof.
  intros d zero nan s s'.
  assert (Hd : validateDomain d = inr "example.com") by reflexivity.
  assert (Hzero : SiteClass.new d zero = inr s)
    by exact (proj2 (proj2 (site_invariant d zero []) (ofZ 0) "example.com"
                       Hd eq_refl eq_refl)).
  assert (Hops : SiteClass.applyAll [SiteClass.Toggle; SiteClass.SetTimeLimit (ofZ 45)] s
                 = inr s') by reflexivity.
  split; [exact Hd|]. split; [reflexivity|]. split; [reflexivity|].
  split; [exact Hzero|]. split.
  - exact (proj2 (proj2 (site_invariant d nan []) NaN "example.com" Hd eq_refl eq_refl)).
  - split; [exact Hops|].
    exact (proj1 (proj1 (site_invariant d zero
                           [SiteClass.Toggle; SiteClass.SetTimeLimit (ofZ 45)])
                    s s' Hzero Hops)).
Defined.

Lemma site_json_round_trip_witness :
  let config := {| SiteClass.enabledOpt := None;
                   SiteClass.timeLimitOpt := Some (Num (61 # 2));
                   SiteClass.isDefaultOpt := None |} in
  let s := {| SiteClass.domain := "example.com"; SiteClass.enabled := true;
              SiteClass.timeLimit := ofZ 30; SiteClass.isDefault := false |} in
  SiteClass.new "https://www.Example.com/" config = inr s
  /\ SiteClass.fromJSON (SiteClass.domain s) (SiteClass.toJSON s) = inr s.
Proof.
  intros config s. split; [reflexivity|].
  exact (site_json_round_trip "https://www.Example.com/" config [] s s
           eq_refl eq_refl eq_refl eq_refl).
Defined.

Lemma focus_starts_session_witness :
  let e := envAt t0 in
  let w := idleWorld 1000 in
  resolvesTo e youtubeTab (state w) "youtube.com"
  /\ spent w "youtube.com" (getTodayString e) < getSiteTimeLimit (state w) "youtube.com"
  /\ activeTab (state (focus e e e 9 youtubeTab Fulfilled w))
     = Some {| site := "youtube.com"; tabId := 9 |}.
Proof.
  intros e w.
  assert (Hres : resolvesTo e youtubeTab (state w) "youtube.com").
  { exists "https://www.youtube.com/watch", "www.youtube.com",
      {| enabled := true; timeLimit := 1; isDefault := true |}.
    repeat split; try reflexivity; discriminate. }
  assert (Hlt : spent w "youtube.com" (getTodayString e)
                < getSiteTimeLimit (state w) "youtube.com") by reflexivity.
  split; [exact Hres|]. split; [exact Hlt|].
  pose proof (focus_starts_session e e e 9 youtubeTab Fulfilled w "youtube.com" Hres Hlt) as H.
  cbv zeta in H. exact (proj1 H).
Defined.

Lemma focus_on_untracked_page_witness :
  let e := envAt t0 in
  let settings := {| url := Some "chrome://settings" |} in
  isSystemUrl "chrome://settings" = true
  /\ activeTab (state (completeLast (TabResult (Some settings)) e
                         (handleTabChange e 9 (trackingWorld 1000)))) = None.
Proof.
  intros e settings. split; [reflexivity|].
  assert (Hnone : forall tab matchedSite, Some settings = Some tab ->
                    ~ resolvesTo e tab (state (trackingWorld 1000)) matchedSite).
  { intros tab matchedSite [= <-] (u & hostname & siteConfig & Hu & _ & Hsys & _).
    injection Hu as <-. discriminate. }
  pose proof (focus_on_untracked_page e e 9 (Some settings) (trackingWorld 1000) Hnone) as H.
  cbv zeta in H. exact (proj1 (proj2 H)).
Defined.

Lemma tick_reaching_limit_witness :
  let e := envAt t0 in
  let w := trackingWorld 59000 in
  getSiteTimeLimit (state w) "youtube.com" = 60000
  /\ spent w "youtube.com" (getTodayString e) = 59000
  /\ pending (tick e e e Fulfilled Fulfilled w) = [BlockSite_update 7 "youtube.com"].
Proof.
  intros e w. split; [reflexivity|]. split; [reflexivity|].
  assert (Hstart : t0 - 1000 <> 0) by discriminate.
  assert (Hnow : now e <> 0) by discriminate.
  assert (Hpos : 0 < getSiteTimeLimit (state w) "youtube.com") by reflexivity.
  assert (Hreach : getSiteTimeLimit (state w) "youtube.com"
                   <= (if isRejected Fulfilled then 0
                       else spent w "youtube.com" (getTodayString e))
                      + Z.min (now e - (t0 - 1000)) (maxUpdateInterval (state w)))
    by (vm_compute; discriminate).
  pose proof (tick_reaching_limit e e e e Fulfilled Fulfilled Fulfilled w
                {| site := "youtube.com"; tabId := 7 |} (t0 - 1000)
                eq_refl eq_refl Hstart Hnow Hpos Hreach) as H.
  cbv zeta in H. exact (proj1 H).
Defined.


Lemma overlapping_stop_credits_twice_witness :
  let w :=
    run [(envAt t0, IntervalFired 1); (envAt (t0 + 5), WindowFocusLost);
         (envAt (t0 + 6), Completed 0 Fulfilled); (envAt (t0 + 7), Completed 1 Fulfilled);
         (envAt (t0 + 8), Completed 0 Fulfilled); (envAt (t0 + 9), Completed 0 Fulfilled)]
      (trackingWorld 1000) in
  pending (trackingWorld 1000) = []
  /\ now (envAt t0) - (t0 - 1000) <= maxUpdateInterval (state (trackingWorld 1000))
  /\ spent w "youtube.com" "2024-01-02"
     = spent (trackingWorld 1000) "youtube.com" "2024-01-02"
       + Z.min (now (envAt t0) - (t0 - 1000)) (maxUpdateInterval (state (trackingWorld 1000)))
       + Z.min (now (envAt (t0 + 5)) - (t0 - 1000))
           (maxUpdateInterval (state (trackingWorld 1000))).
Proof.
  intros w. subst w.
  assert (Hstart : t0 - 1000 <> 0) by discriminate.
  assert (Hgap : now (envAt t0) - (t0 - 1000)
                 <= maxUpdateInterval (state (trackingWorld 1000)))
    by (vm_compute; discriminate).
  assert (D1 : getTodayString (envAt t0) = "2024-01-02") by (vm_compute; reflexivity).
  assert (D2 : getTodayString (envAt (t0 + 5)) = "2024-01-02") by (vm_compute; reflexivity).
  assert (D3 : getTodayString (envAt (t0 + 6)) = "2024-01-02") by (vm_compute; reflexivity).
  assert (D5 : getTodayString (envAt (t0 + 8)) = "2024-01-02") by (vm_compute; reflexivity).
  split; [reflexivity|]. split; [exact Hgap|].
  pose proof (overlapping_stop_credits_twice
                (envAt t0) (envAt (t0 + 5)) (envAt (t0 + 6)) (envAt (t0 + 7))
                (envAt (t0 + 8)) (envAt (t0 + 9)) (trackingWorld 1000)
                {| site := "youtube.com"; tabId := 7 |} (t0 - 1000) 1%positive "2024-01-02"
                eq_refl eq_refl eq_refl Hstart (or_introl eq_refl) Hgap D1 D2 D3 D5) as H.
  cbv zeta in H. exact (proj1 H).
Defined.

(** The registry after a settings message that sets every limit to 0. *)
Lemma checkTimeThresholds_zero_limit_witness :
  let zero :=
    {| Settings.defaultTimeLimit := 0;
       Settings.sites :=
         [("youtube.com", {| enabled := true; timeLimit := 0; isDefault := true |})] |} in
  let w := Settings.updateSettings zero (trackingWorld 0) in
  getSiteTimeLimit (state w) "youtube.com" = 0
  /\ checkTimeThresholds "youtube.com" 1000 w = blockSite 7 "youtube.com" w.
Proof.
  intros zero w. split; [reflexivity|].
  exact (proj1 (checkTimeThresholds_zero_limit (envAt t0) w "youtube.com"
                  {| site := "youtube.com"; tabId := 7 |} 1000
                  eq_refl eq_refl ltac:(discriminate))).
Defined.

Lemma getAllTimeData_reports_witness :
  JsString.includes "youtube.com" "_" = false
  /\ JsString.includes "2024-01-02" "_" = false
  /\ fst (getAllTimeData_resume "2024-01-02" Fulfilled (trackingWorld 1000)) !! "youtube.com"
     = storage (trackingWorld 1000) !! storageKey "youtube.com" "2024-01-02".
Proof.
  split; [reflexivity|]. split; [reflexivity|].
  exact (proj1 (proj1 (getAllTimeData_reports "2024-01-02" "youtube.com" Fulfilled
                         (trackingWorld 1000) eq_refl eq_refl ltac:(discriminate))
                  eq_refl)).
Defined.

Lemma rollover_failure_keeps_store_witness :
  let e := envAt t0 in
  pending ledgerWorld = []
  /\ storage (rollover e e e (Rejected "quota exceeded") Fulfilled ledgerWorld)
     = storage ledgerWorld.
Proof.
  intros e. split; [reflexivity|].
  pose proof (rollover_failure_keeps_store e e e (Rejected "quota exceeded") Fulfilled
                ledgerWorld eq_refl eq_refl) as H.
  cbv zeta in H. exact (proj1 H).
Defined.

(** At 2024-01-02T04:00:00Z the entry of 2023-12-20 is removed. *)
Lemma legacy_reset_retention_witness :
  parseDate "2023-12-20" = Some 1703030400000
  /\ Legacy.resetDailyData (envAt t0) legacyLedger !! "time_youtube.com_2023-12-20"
     = (if 1703030400000 <? now (envAt t0) - 7 * msPerDay then None
        else legacyLedger !! "time_youtube.com_2023-12-20").
Proof.
  split; [reflexivity|].
  exact (proj1 (legacy_reset_retention (envAt t0) legacyLedger "youtube.com" "2023-12-20"
                  1703030400000 eq_refl eq_refl)).
Defined.

Lemma updateSettings_effect_witness :
  let settings := {| Settings.defaultTimeLimit := 45; Settings.sites := registry |} in
  List.NoDup (map fst (Settings.sites settings))
  /\ defaultTimeLimit (state (Settings.updateSettings settings (trackingWorld 1000))) = 45.
Proof.
  intros settings.
  assert (Hnd : List.NoDup (map fst (Settings.sites settings)))
    by (constructor; [intros [] | constructor]).
  split; [exact Hnd|].
  pose proof (updateSettings_effect settings (trackingWorld 1000) Hnd) as H.
  cbv zeta in H. exact (proj1 (proj2 (proj2 H))).
Defined.

End MoreSituations.
